(** * Biker Lane: the terrain and physics core of [App.tsx]

    A shallow embedding of the simulation core of the game component,
    [generateTerrain], [getTerrainHeight], [startLevel] and [gameLoop],
    with the handlers and screens that drive them, and the properties of
    its design specification.  The source file holds two revisions of the
    component; the embedding follows the first one.  The second differs
    in tuning constants only (seed factor, ramp shape, airborne and boost
    thresholds, flip impulse), not in the structure of any function
    embedded here.

    Numbers.  The source computes on JavaScript numbers.  The embedding
    takes them as real numbers: [Math.sin], [Math.cos], [Math.PI] are the
    functions of the real-number library, [Math.floor], [Math.ceil], [%]
    and [Math.atan2] are written out below.  Level ids, coins and array
    indices, which the program only ever builds from integer literals,
    are integers.  Where rounding decides a property, the velocity
    sequence under steady throttle, the statements of the source are
    given on binary64 numbers as well.

    Exceptions.  Reading a property of [undefined] (an array read out of
    range followed by [.x] or [.y]) raises a TypeError in the source; the
    embedding returns [None] (or [Threw]) there.

    State.  The [useState] and [useRef] cells of the component are the
    fields of one record, threaded through the handlers.  A state setter
    called twice in one handler leaves the value of the last call. *)

From Stdlib Require Import Reals Lra Lia ZArith List Bool PrimFloat.
Import ListNotations.

Open Scope R_scope.

#[local] Set Warnings "-inexact-float".

(** ** JavaScript arithmetic on real numbers *)

Module JsMath.

(** [Math.floor] *)
Definition floor (r : R) : Z := Int_part r.

(** [Math.ceil] *)
Definition ceil (r : R) : Z := (- Int_part (- r))%Z.

(** Rounding toward zero, the quotient that [%] uses. *)
Definition trunc (r : R) : Z :=
  if Rle_dec 0 r then floor r else ceil r.

(** [a % b]: the remainder has the sign of the dividend. *)
Definition rem (a b : R) : R := a - b * IZR (trunc (a / b)).

(** Comparisons as the booleans the source branches on. *)
Definition ltb (a b : R) : bool := if Rlt_dec a b then true else false.
Definition gtb (a b : R) : bool := ltb b a.
Definition geb (a b : R) : bool := if Rle_dec b a then true else false.

(** [Math.atan2 (y, x)]: the angle of the vector [(x, y)], in [(-PI, PI]]. *)
Definition atan2 (y x : R) : R :=
  if Rlt_dec 0 x then atan (y / x)
  else if Rlt_dec x 0 then
         if Rle_dec 0 y then atan (y / x) + PI else atan (y / x) - PI
  else if Rlt_dec 0 y then PI / 2
  else if Rlt_dec y 0 then - (PI / 2)
  else 0.

End JsMath.

(** ** Data model ([types.ts]) *)

Inductive GameState : Set :=
| MENU | LEVEL_SELECT | SHOP | PLAYING | PAUSED | WON | CRASHED | CREDITS | POLICY.

Definition GameState_eqb (a b : GameState) : bool :=
  match a, b with
  | MENU, MENU | LEVEL_SELECT, LEVEL_SELECT | SHOP, SHOP | PLAYING, PLAYING
  | PAUSED, PAUSED | WON, WON | CRASHED, CRASHED | CREDITS, CREDITS
  | POLICY, POLICY => true
  | _, _ => false
  end.

Module Point.
Record t : Type := mk { x : R; y : R }.
End Point.

Module BikePhysics.
Record t : Type := mk {
  x : R;
  y : R;
  velocity : R;
  angle : R;
  angularVelocity : R;
  lean : R
}.
End BikePhysics.

Module Inputs.
Record t : Type := mk {
  throttle : bool;
  brake : bool;
  left : bool;
  right : bool;
  nitro : bool
}.

Definition released : t := mk false false false false false.
End Inputs.

(** ** Constants *)

Definition GRAVITY : R := 0.22.
Definition ACCELERATION : R := 0.25.
Definition NITRO_ACCELERATION : R := 0.8.
Definition BRAKE_FORCE : R := 0.4.
Definition FRICTION : R := 0.96.
Definition MAX_SPEED : R := 28.
Definition MAX_NITRO_SPEED : R := 60.
Definition ROTATION_SPEED : R := 0.04.
Definition AIR_ROTATION_BOOST : R := 1.8.
Definition ANGULAR_DAMPING : R := 0.92.
Definition WHEEL_BASE : R := 70.
Definition CANVAS_HEIGHT : R := 1080.

Definition segmentLength : R := 50.

(** ** Array reads *)

(** [arr[i]] for an integer-valued index: [None] stands for [undefined]. *)
Definition index {A : Type} (arr : list A) (i : Z) : option A :=
  if (i <? 0)%Z then None else nth_error arr (Z.to_nat i).

Definition len {A : Type} (arr : list A) : Z := Z.of_nat (length arr).

(** ** Terrain sampler *)

Definition getTerrainHeight (x : R) (terrain : list Point.t) : option R :=
  if JsMath.ltb x 0 then option_map Point.y (index terrain 0)
  else
    let idx := JsMath.floor (x / segmentLength) in
    if (idx >=? len terrain - 1)%Z
    then option_map Point.y (index terrain (len terrain - 1))
    else
      match index terrain idx, index terrain (idx + 1) with
      | Some p1, Some p2 =>
          let t := (x - Point.x p1) / segmentLength in
          Some (Point.y p1 + (Point.y p2 - Point.y p1) * t)
      | _, _ => None
      end.

(** ** Terrain generator *)

(** The sample the loop body pushes at counter [i]; [currentY] is
    assigned before it is read, so the body does not depend on the value
    the variable had in the iteration before. *)
Definition terrainSample (totalSegments : Z) (seed : R) (i : Z) : Point.t :=
  let x := IZR i * segmentLength in
  let rampFrequency := 0.15 in
  let rampHeight := 400 in
  let noise1 := sin (IZR i * 0.1 + seed) * 100 in
  let rampPhase := IZR i * rampFrequency + seed * 3 in
  let ramp := sin rampPhase ^ 5 in
  let noise2 := if JsMath.gtb ramp 0 then ramp * rampHeight else 0 in
  let noise := noise1 + noise2 in
  let noise := if (i <? 20)%Z then noise * (IZR i / 20) else noise in
  let noise :=
    if (i >? totalSegments - 20)%Z
    then noise * (IZR (totalSegments - i) / 20) else noise in
  let currentY := CANVAS_HEIGHT * 0.7 - noise in
  let currentY :=
    if JsMath.gtb currentY (CANVAS_HEIGHT - 50)
    then CANVAS_HEIGHT - 50 else currentY in
  let currentY := if JsMath.ltb currentY 100 then 100 else currentY in
  Point.mk x currentY.

(** The [for] loop: [n] iterations are left, [i] is the counter,
    [points] the array built so far and [currentY] the loop-carried
    variable. *)
Fixpoint terrainLoop (n : nat) (totalSegments : Z) (seed : R) (i : Z)
    (points : list Point.t) (currentY : R) : list Point.t :=
  match n with
  | O => points
  | S n' =>
      let p := terrainSample totalSegments seed i in
      terrainLoop n' totalSegments seed (i + 1)%Z (points ++ [p]) (Point.y p)
  end.

Definition generateTerrain (length seed : R) : list Point.t :=
  let totalSegments := JsMath.ceil (length / segmentLength) in
  terrainLoop (Z.to_nat (totalSegments + 1)) totalSegments seed 0%Z []
    (CANVAS_HEIGHT * 0.6).

(** ** Component state *)

(** The blob [saveData] writes under the storage key. *)
Record Saved : Type := mkSaved {
  saved_unlockedLevels : Z;
  saved_coins : Z;
  saved_ownedBikes : list Z;
  saved_selectedBikeId : Z
}.

(** The [useState] cells and [useRef] cells of [App], and the storage
    entry.  The canvas, the audio element and the animation-frame handle
    carry no simulation state and are left out. *)
Record App : Type := mkApp {
  unlockedLevels : Z;
  coins : Z;
  ownedBikes : list Z;
  selectedBikeId : Z;
  gameState : GameState;
  currentLevel : Z;
  time : R;
  isMuted : bool;
  bikeRef : BikePhysics.t;
  inputsRef : Inputs.t;
  terrainRef : list Point.t;
  startTimeRef : R;
  storage : option Saved
}.

Definition setGameState (g : GameState) (s : App) : App :=
  mkApp (unlockedLevels s) (coins s) (ownedBikes s) (selectedBikeId s)
        g (currentLevel s) (time s) (isMuted s) (bikeRef s) (inputsRef s)
        (terrainRef s) (startTimeRef s) (storage s).

Definition setCurrentLevel (l : Z) (s : App) : App :=
  mkApp (unlockedLevels s) (coins s) (ownedBikes s) (selectedBikeId s)
        (gameState s) l (time s) (isMuted s) (bikeRef s) (inputsRef s)
        (terrainRef s) (startTimeRef s) (storage s).

Definition setTime (t : R) (s : App) : App :=
  mkApp (unlockedLevels s) (coins s) (ownedBikes s) (selectedBikeId s)
        (gameState s) (currentLevel s) t (isMuted s) (bikeRef s) (inputsRef s)
        (terrainRef s) (startTimeRef s) (storage s).

Definition setBike (b : BikePhysics.t) (s : App) : App :=
  mkApp (unlockedLevels s) (coins s) (ownedBikes s) (selectedBikeId s)
        (gameState s) (currentLevel s) (time s) (isMuted s) b (inputsRef s)
        (terrainRef s) (startTimeRef s) (storage s).

Definition setInputs (i : Inputs.t) (s : App) : App :=
  mkApp (unlockedLevels s) (coins s) (ownedBikes s) (selectedBikeId s)
        (gameState s) (currentLevel s) (time s) (isMuted s) (bikeRef s) i
        (terrainRef s) (startTimeRef s) (storage s).

Definition setTerrain (t : list Point.t) (s : App) : App :=
  mkApp (unlockedLevels s) (coins s) (ownedBikes s) (selectedBikeId s)
        (gameState s) (currentLevel s) (time s) (isMuted s) (bikeRef s)
        (inputsRef s) t (startTimeRef s) (storage s).

Definition setStartTime (t : R) (s : App) : App :=
  mkApp (unlockedLevels s) (coins s) (ownedBikes s) (selectedBikeId s)
        (gameState s) (currentLevel s) (time s) (isMuted s) (bikeRef s)
        (inputsRef s) (terrainRef s) t (storage s).

Definition saveData (newLevel newCoins : Z) (newBikes : list Z)
    (newSelected : Z) (s : App) : App :=
  mkApp newLevel newCoins newBikes newSelected
        (gameState s) (currentLevel s) (time s) (isMuted s) (bikeRef s)
        (inputsRef s) (terrainRef s) (startTimeRef s)
        (Some (mkSaved newLevel newCoins newBikes newSelected)).

(** How a call ends: it returns, or a TypeError escapes it; either way
    with the state the component is left in. *)
Inductive Outcome : Type :=
| Returned (s : App)
| Threw (s : App).

Definition stateOf (o : Outcome) : App :=
  match o with Returned s | Threw s => s end.

(** ** Run start *)

(** [now] is the value [Date.now ()] returns during the call. *)
Definition startLevel (now : R) (levelId : Z) (s : App) : Outcome :=
  if (levelId >? unlockedLevels s)%Z then Returned s
  else
    let seed := IZR (levelId * 777) in
    let length := IZR (4000 + levelId * 1500) in
    let s := setTerrain (generateTerrain length seed) s in
    match getTerrainHeight 100 (terrainRef s) with
    | None => Threw s
    | Some h =>
        let s := setBike (BikePhysics.mk 100 h 0 0 0 0) s in
        let s := setInputs Inputs.released s in
        let s := setTime 0 s in
        let s := setStartTime now s in
        let s := setCurrentLevel levelId s in
        Returned (setGameState PLAYING s)
    end.

(** ** Physics integrator: the body of [gameLoop] *)

(** [isAirborne]: the distance of the pose from the ground under the rear
    wheel exceeds the threshold. *)
Definition isAirborne (bike : BikePhysics.t) (groundRearY : R) : bool :=
  JsMath.gtb (Rabs (BikePhysics.y bike - groundRearY)) 10.

Definition currentMaxSpeed (inputs : Inputs.t) : R :=
  if Inputs.nitro inputs then MAX_NITRO_SPEED else MAX_SPEED.

(** The statements on [bike.velocity], in source order. *)
Definition updateVelocity (velocity angle : R) (inputs : Inputs.t) : R :=
  let v := velocity + sin angle * GRAVITY in
  let v := if Inputs.throttle inputs then v + ACCELERATION else v in
  let v := if Inputs.nitro inputs then v + NITRO_ACCELERATION else v in
  let v := if Inputs.brake inputs then v - BRAKE_FORCE else v in
  let v := v * FRICTION in
  let v := if JsMath.gtb v (currentMaxSpeed inputs)
           then currentMaxSpeed inputs else v in
  if JsMath.ltb v (- MAX_SPEED) then - MAX_SPEED else v.

(** The statements on [bike.angularVelocity], in source order. *)
Definition updateAngularVelocity (angularVelocity angleDiff : R)
    (airborne : bool) (inputs : Inputs.t) : R :=
  let w :=
    if Inputs.nitro inputs && airborne
    then angularVelocity - 0.02 else angularVelocity in
  let stability := if Inputs.nitro inputs then 0.05 else 0.15 in
  let w := w + angleDiff * stability in
  let rotationForce :=
    if JsMath.gtb (Rabs angleDiff) 0.5
    then ROTATION_SPEED * AIR_ROTATION_BOOST else ROTATION_SPEED in
  let w := if Inputs.left inputs then w - rotationForce else w in
  let w := if Inputs.right inputs then w + rotationForce else w in
  w * ANGULAR_DAMPING.

(** The pose after the in-place updates of one tick, given the two ground
    heights looked up at its start. *)
Definition integrate (bike : BikePhysics.t) (inputs : Inputs.t)
    (groundRearY groundFrontY : R) : BikePhysics.t :=
  let rearX := BikePhysics.x bike in
  let frontX := BikePhysics.x bike + cos (BikePhysics.angle bike) * WHEEL_BASE in
  let airborne := isAirborne bike groundRearY in
  let targetAngle :=
    JsMath.atan2 (groundFrontY - groundRearY) (frontX - rearX) in
  let velocity :=
    updateVelocity (BikePhysics.velocity bike) (BikePhysics.angle bike) inputs in
  let x := BikePhysics.x bike + cos (BikePhysics.angle bike) * velocity in
  let y :=
    if negb airborne && JsMath.gtb (BikePhysics.y bike) (groundRearY - 5)
    then groundRearY else groundRearY in
  let angleDiff := targetAngle - BikePhysics.angle bike in
  let angularVelocity :=
    updateAngularVelocity (BikePhysics.angularVelocity bike) angleDiff
      airborne inputs in
  let angle := BikePhysics.angle bike + angularVelocity in
  BikePhysics.mk x y velocity angle angularVelocity (BikePhysics.lean bike).

(** Crash detection *)
Definition normalizedAngle (angle : R) : R :=
  Rabs (JsMath.rem angle (PI * 2)).

Definition headCollision (angle : R) : bool :=
  JsMath.gtb (normalizedAngle angle) (PI / 1.8)
  && JsMath.ltb (normalizedAngle angle) (PI * 1.5).

(** ** Rendering: the terrain reads of [drawFrame] *)

Definition CANVAS_WIDTH : R := 1920.

(** [startIndex] and [endIndex]: the samples in view of a camera that
    keeps the bike at three tenths of the canvas width. *)
Definition visibleRange (bike : BikePhysics.t) (terrain : list Point.t) : Z * Z :=
  let cameraX := BikePhysics.x bike - CANVAS_WIDTH * 0.3 in
  (Z.max 0 (JsMath.floor (cameraX / 50)),
   Z.min (len terrain - 1) (JsMath.ceil ((cameraX + CANVAS_WIDTH) / 50))).

(** The reads [terrain[i]], [terrain[i + 1]], ... of a loop of [n]
    iterations. *)
Fixpoint readRange (terrain : list Point.t) (i : Z) (n : nat)
    : option (list Point.t) :=
  match n with
  | O => Some []
  | S n' =>
      match index terrain i, readRange terrain (i + 1) n' with
      | Some p, Some ps => Some (p :: ps)
      | _, _ => None
      end
  end.

(** The terrain part of [drawFrame] in game mode, as far as the arrays go:
    the samples joined by the ground polyline and the sample the finish
    flag is planted on.  Nothing is read when the course is empty; [None]
    stands for the TypeError of a read out of range.  The canvas calls
    themselves are not part of the embedding: they take numbers and
    constants and raise nothing, so a [drawFrame] call on the mounted
    canvas fails exactly when one of these reads does. *)
Definition drawTerrain (bike : BikePhysics.t) (terrain : list Point.t)
    : option (list Point.t * option Point.t) :=
  if (len terrain >? 0)%Z then
    let startIndex := fst (visibleRange bike terrain) in
    let endIndex := snd (visibleRange bike terrain) in
    match index terrain startIndex with
    | None => None
    | Some _ =>
      match readRange terrain startIndex (Z.to_nat (endIndex - startIndex + 1)) with
      | None => None
      | Some strip =>
        match index terrain endIndex with
        | None => None
        | Some _ =>
          match index terrain (len terrain - 20) with
          | None => None
          | Some finish => Some (strip, Some finish)
          end
        end
      end
    end
  else Some ([], None).

(** ** The tick *)

(** One tick.  [now] is the value [Date.now ()] returns during the call.
    The closure reads the state cells as of the render that built it; the
    embedding takes that render to be the latest one, so the cells are
    read from [s].  The tick ends with the [drawFrame] call on the moved
    pose; it writes no cell of the record, but a read of it out of range
    ends the call before the next frame is requested.  The state setters
    called before it have taken their values by then. *)
Definition gameLoop (now : R) (s : App) : Outcome :=
  if negb (GameState_eqb (gameState s) PLAYING) then Returned s
  else
    let bike := bikeRef s in
    let terrain := terrainRef s in
    let inputs := inputsRef s in
    let rearX := BikePhysics.x bike in
    let frontX := BikePhysics.x bike + cos (BikePhysics.angle bike) * WHEEL_BASE in
    match getTerrainHeight rearX terrain with
    | None => Threw s
    | Some groundRearY =>
      match getTerrainHeight frontX terrain with
      | None => Threw s
      | Some groundFrontY =>
        let bike := integrate bike inputs groundRearY groundFrontY in
        let s1 := setBike bike s in
        let s2 :=
          if headCollision (BikePhysics.angle bike)
          then setGameState CRASHED s1 else s1 in
        match index terrain (len terrain - 20) with
        | None => Threw s2
        | Some p =>
          let finishLine := Point.x p in
          let s3 :=
            if JsMath.geb (BikePhysics.x bike) finishLine then
              let reward := (50 + currentLevel s * 25)%Z in
              let nextLevel := Z.max (unlockedLevels s) (currentLevel s + 1) in
              setGameState WON
                (saveData nextLevel (coins s + reward)%Z (ownedBikes s)
                   (selectedBikeId s) s2)
            else s2 in
          let s4 := setTime ((now - startTimeRef s) / 1000) s3 in
          match drawTerrain bike terrain with
          | None => Threw s4
          | Some _ => Returned s4
          end
        end
      end
    end.

(** ** The other handlers that write the state *)

Inductive InputKey : Set := Throttle | Brake | Left | Right | Nitro.

Definition handleInput (k : InputKey) (active : bool) (s : App) : App :=
  let i := inputsRef s in
  setInputs
    match k with
    | Throttle => Inputs.mk active (Inputs.brake i) (Inputs.left i)
                    (Inputs.right i) (Inputs.nitro i)
    | Brake => Inputs.mk (Inputs.throttle i) active (Inputs.left i)
                 (Inputs.right i) (Inputs.nitro i)
    | Left => Inputs.mk (Inputs.throttle i) (Inputs.brake i) active
                (Inputs.right i) (Inputs.nitro i)
    | Right => Inputs.mk (Inputs.throttle i) (Inputs.brake i) (Inputs.left i)
                 active (Inputs.nitro i)
    | Nitro => Inputs.mk (Inputs.throttle i) (Inputs.brake i) (Inputs.left i)
                 (Inputs.right i) active
    end s.

Definition includes (l : list Z) (id : Z) : bool := existsb (Z.eqb id) l.

Definition buyBike (id price : Z) (s : App) : App :=
  if (coins s >=? price)%Z && negb (includes (ownedBikes s) id)
  then saveData (unlockedLevels s) (coins s - price)%Z (ownedBikes s ++ [id]) id s
  else s.

Definition selectBike (id : Z) (s : App) : App :=
  if includes (ownedBikes s) id
  then saveData (unlockedLevels s) (coins s) (ownedBikes s) id s
  else s.

Definition toggleAudio (s : App) : App :=
  mkApp (unlockedLevels s) (coins s) (ownedBikes s) (selectedBikeId s)
        (gameState s) (currentLevel s) (time s) (negb (isMuted s)) (bikeRef s)
        (inputsRef s) (terrainRef s) (startTimeRef s) (storage s).

(** ** Notions the properties are stated with *)

(** The invariant of a terrain profile: the samples are spaced by the
    segment length, starting at 0. *)
Definition uniform (terrain : list Point.t) : Prop :=
  forall i p, nth_error terrain i = Some p -> Point.x p = INR i * segmentLength.

(** Linear interpolation between two samples. *)
Definition interpolate (p1 p2 : Point.t) (x : R) : R :=
  Point.y p1
  + (Point.y p2 - Point.y p1) * ((x - Point.x p1) / (Point.x p2 - Point.x p1)).

Definition frontX (bike : BikePhysics.t) : R :=
  BikePhysics.x bike + cos (BikePhysics.angle bike) * WHEEL_BASE.

(** The state a tick leaves when the game is running and the three array
    reads succeed. *)
Definition afterTick (now : R) (s : App) (groundRearY groundFrontY : R)
    (finish : Point.t) : App :=
  let bike := integrate (bikeRef s) (inputsRef s) groundRearY groundFrontY in
  let s1 := setBike bike s in
  let s2 :=
    if headCollision (BikePhysics.angle bike)
    then setGameState CRASHED s1 else s1 in
  let s3 :=
    if JsMath.geb (BikePhysics.x bike) (Point.x finish)
    then setGameState WON
           (saveData (Z.max (unlockedLevels s) (currentLevel s + 1))
              (coins s + (50 + currentLevel s * 25))%Z (ownedBikes s)
              (selectedBikeId s) s2)
    else s2 in
  setTime ((now - startTimeRef s) / 1000) s3.

(** Level ground: every sample lies at height [h]. *)
Definition flat (h : R) (terrain : list Point.t) : Prop :=
  Forall (fun p => Point.y p = h) terrain.

(** ** The events that reach the component *)

(** An animation frame, a key or touch control changing state, and the
    buttons of the screens: those whose handler is [setGameState g], the
    audio toggle, the two shop buttons, and those whose handler is
    [startLevel levelId]. *)
Inductive Event : Type :=
| Frame (now : R)
| Control (k : InputKey) (active : bool)
| Goto (g : GameState)
| ToggleAudio
| Buy (id price : Z)
| Select (id : Z)
| Start (now : R) (levelId : Z).

(** Whether the screen rendered for the state offers the event.  Frames
    and key events arrive on every screen. *)
Definition offered (s : App) (e : Event) : bool :=
  match e with
  | Frame _ | Control _ _ => true
  | Goto g =>
      match gameState s, g with
      | MENU, (LEVEL_SELECT | SHOP | CREDITS | POLICY) => true
      | (CREDITS | POLICY | SHOP | LEVEL_SELECT | WON | CRASHED | PAUSED), MENU =>
          true
      | PLAYING, PAUSED => true
      | PAUSED, PLAYING => true
      | _, _ => false
      end
  | ToggleAudio =>
      match gameState s with MENU | PLAYING => true | _ => false end
  | Buy _ _ | Select _ =>
      match gameState s with SHOP => true | _ => false end
  | Start _ levelId =>
      match gameState s with
      | LEVEL_SELECT =>
          (1 <=? levelId)%Z && (levelId <=? 12)%Z
          && negb (levelId >? unlockedLevels s)%Z
      | WON =>
          (levelId =? currentLevel s)%Z || (levelId =? currentLevel s + 1)%Z
      | CRASHED => (levelId =? currentLevel s)%Z
      | _ => false
      end
  end.

Definition handle (e : Event) (s : App) : App :=
  match e with
  | Frame now => stateOf (gameLoop now s)
  | Control k active => handleInput k active s
  | Goto g => setGameState g s
  | ToggleAudio => toggleAudio s
  | Buy id price => buyBike id price s
  | Select id => selectBike id s
  | Start now levelId => stateOf (startLevel now levelId s)
  end.

Definition dispatch (s : App) (e : Event) : App :=
  if offered s e then handle e s else s.

Definition run (es : list Event) (s : App) : App := fold_left dispatch es s.

Definition startsRun (e : Event) : bool :=
  match e with Start _ _ => true | _ => false end.

(** The states in which a run is under way. *)
Definition inRun (g : GameState) : bool :=
  match g with PLAYING | PAUSED => true | _ => false end.

(** The two outcomes that end a run. *)
Definition isOutcome (g : GameState) : bool :=
  match g with WON | CRASHED => true | _ => false end.

(** What an event other than a run start preserves outside a run. *)
Definition idleStep (s s' : App) : Prop :=
  bikeRef s' = bikeRef s /\ terrainRef s' = terrainRef s /\ time s' = time s /\
  inRun (gameState s') = false /\
  (isOutcome (gameState s') = true -> gameState s' = gameState s).

(** ** Iterating the integrator *)

(** The pose part of a tick: the two ground reads, then the in-place
    updates. *)
Definition physicsTick (terrain : list Point.t) (inputs : Inputs.t)
    (bike : BikePhysics.t) : option BikePhysics.t :=
  match getTerrainHeight (BikePhysics.x bike) terrain with
  | None => None
  | Some groundRearY =>
      match getTerrainHeight (frontX bike) terrain with
      | None => None
      | Some groundFrontY => Some (integrate bike inputs groundRearY groundFrontY)
      end
  end.

(** [n] ticks with the same inputs held. *)
Fixpoint physicsTicks (n : nat) (terrain : list Point.t) (inputs : Inputs.t)
    (bike : BikePhysics.t) : option BikePhysics.t :=
  match n with
  | O => Some bike
  | S n' =>
      match physicsTicks n' terrain inputs bike with
      | Some b => physicsTick terrain inputs b
      | None => None
      end
  end.

(** The velocity after [n] ticks. *)
Definition velocityAfter (terrain : list Point.t) (inputs : Inputs.t)
    (bike : BikePhysics.t) (n : nat) : R :=
  match physicsTicks n terrain inputs bike with
  | Some b => BikePhysics.velocity b
  | None => 0
  end.

(** ** Iterating the tick *)

(** A sequence of frames; before each one the controls take the given
    state, then the frame's [gameLoop] call runs. *)
Fixpoint ticks (frames : list (Inputs.t * R)) (s : App) : App :=
  match frames with
  | [] => s
  | (inputs, now) :: rest =>
      ticks rest (stateOf (gameLoop now (setInputs inputs s)))
  end.

(** Left and right are released. *)
Definition noRotation (inputs : Inputs.t) : bool :=
  negb (Inputs.left inputs) && negb (Inputs.right inputs).

(** The frame after [s] with every control released. *)
Definition frame (s : App) : App :=
  stateOf (gameLoop 0 (setInputs Inputs.released s)).

(** ** Sample data *)

(** The profile of [n] samples, spaced by the segment length, with the
    heights [f] gives. *)
Definition profile (f : nat -> R) (n : nat) : list Point.t :=
  map (fun k => Point.mk (INR k * segmentLength) (f k)) (seq 0 n).

(** A level course of 41 samples at the baseline height. *)
Definition levelGround : list Point.t := profile (fun _ => 756) 41.

(** A course of 61 samples inside the height band: the first and the last
    twenty at the baseline, and in between a valley floor at 100 from
    which the ground climbs to 1030 between x = 1500 and x = 1600. *)
Definition rampY (k : nat) : R :=
  if (k <? 20)%nat then 756
  else if (k <=? 30)%nat then 100
  else if (k =? 31)%nat then 565
  else if (k <=? 40)%nat then 1030
  else 756.

Definition steepRamp : list Point.t := profile rampY 61.

(** A running game of level 1 on the given profile, pose and inputs. *)
Definition running (terrain : list Point.t) (bike : BikePhysics.t)
    (inputs : Inputs.t) : App :=
  mkApp 1 0 [0%Z] 0 PLAYING 1 0 false bike inputs terrain 0 None.

Definition throttleOnly : Inputs.t := Inputs.mk true false false false false.

(** The pose [startLevel] builds, on [levelGround]. *)
Definition startPose : BikePhysics.t := BikePhysics.mk 100 756 0 0 0 0.

(** Upside down, at rest, exactly on the finish line. *)
Definition invertedAtFinish : App :=
  running levelGround (BikePhysics.mk 1050 756 0 PI 0 0) Inputs.released.

(** Upright, at rest, on the ground at the foot of the ramp. *)
Definition restingOnRamp : App :=
  running steepRamp (BikePhysics.mk 1501 109.3 0 0 0 0) Inputs.released.

(** Upside down on level ground, turning back at 2 radians a tick. *)
Definition invertedTurning : App :=
  running levelGround (BikePhysics.mk 100 756 0 PI (-2) 0) Inputs.released.

(** Upright, at rest, exactly on the finish line. *)
Definition atFinish : App :=
  running levelGround (BikePhysics.mk 1050 756 0 0 0 0) Inputs.released.

(** At the start of the level course, throttle held. *)
Definition atStart : App := running levelGround startPose throttleOnly.

(** A run on the level course that has ended Crashed. *)
Definition crashedRun : App :=
  setGameState CRASHED (running levelGround startPose Inputs.released).

(** On the finish line at rest, brake held. *)
Definition brakingAtFinish : App :=
  running levelGround (BikePhysics.mk 1050 756 0 0 0 0)
    (Inputs.mk false true false false false).

(** ** Courses of the levels *)

(** The arguments [startLevel] passes to the generator. *)
Definition levelLength (levelId : Z) : R := IZR (4000 + levelId * 1500).
Definition levelSeed (levelId : Z) : R := IZR (levelId * 777).
Definition levelTerrain (levelId : Z) : list Point.t :=
  generateTerrain (levelLength levelId) (levelSeed levelId).

(** ** Notions for the further properties *)

(** The velocity update without its two clamps. *)
Definition accelerate (velocity angle : R) (inputs : Inputs.t) : R :=
  (velocity + sin angle * GRAVITY
   + (if Inputs.throttle inputs then ACCELERATION else 0)
   + (if Inputs.nitro inputs then NITRO_ACCELERATION else 0)
   - (if Inputs.brake inputs then BRAKE_FORCE else 0)) * FRICTION.

(** The speeds the integrator can sustain: the fixed points of the update
    under full reverse and full forward drive. *)
Definition cruising (v : R) : Prop := -14.88 <= v <= 30.48.

(** The storage entry, when there is one, holds the four persistent
    cells. *)
Definition storageInSync (s : App) : Prop :=
  match storage s with
  | None => True
  | Some v =>
      v = mkSaved (unlockedLevels s) (coins s) (ownedBikes s) (selectedBikeId s)
  end.

(** The garage is sound: no bike is owned twice and the selected bike is
    owned. *)
Definition garageSound (s : App) : Prop :=
  NoDup (ownedBikes s) /\ In (selectedBikeId s) (ownedBikes s).

(** The level on display is unlocked, and so is the next one once the
    level is won. *)
Definition levelUnlocked (s : App) : Prop :=
  (currentLevel s <= unlockedLevels s)%Z /\
  (gameState s = WON -> (currentLevel s + 1 <= unlockedLevels s)%Z).

(** Only the brake held. *)
Definition brakeOnly : Inputs.t := Inputs.mk false true false false false.

(** The pose after [n] frames of reversing from x = 100 on level ground
    at height [h]: upright, the speed on its way to -9.6. *)
Definition reversed (h lean : R) (n : nat) : BikePhysics.t :=
  BikePhysics.mk (100 - 9.6 * INR n + 230.4 * (1 - FRICTION ^ n)) h
    (- 9.6 * (1 - FRICTION ^ n)) 0 0 lean.

(** ** The velocity statements on binary64 numbers *)

(** The constants as the doubles their literals denote. *)
Definition GRAVITY64 : float := 0.22%float.
Definition ACCELERATION64 : float := 0.25%float.
Definition NITRO_ACCELERATION64 : float := 0.8%float.
Definition BRAKE_FORCE64 : float := 0.4%float.
Definition FRICTION64 : float := 0.96%float.
Definition MAX_SPEED64 : float := 28%float.
Definition MAX_NITRO_SPEED64 : float := 60%float.

Definition currentMaxSpeed64 (inputs : Inputs.t) : float :=
  if Inputs.nitro inputs then MAX_NITRO_SPEED64 else MAX_SPEED64.

(** The statements on [bike.velocity], in source order, with the
    operations of binary64; [sinAngle] is the double [Math.sin (bike.angle)]
    returns. *)
Definition updateVelocity64 (velocity sinAngle : float) (inputs : Inputs.t)
    : float :=
  let v := (velocity + sinAngle * GRAVITY64)%float in
  let v := if Inputs.throttle inputs then (v + ACCELERATION64)%float else v in
  let v := if Inputs.nitro inputs then (v + NITRO_ACCELERATION64)%float else v in
  let v := if Inputs.brake inputs then (v - BRAKE_FORCE64)%float else v in
  let v := (v * FRICTION64)%float in
  let v := if (currentMaxSpeed64 inputs <? v)%float
           then currentMaxSpeed64 inputs else v in
  if (v <? - MAX_SPEED64)%float then (- MAX_SPEED64)%float else v.

(** The velocity after [n] ticks from rest on level ground with only the
    throttle held.  There the two ground heights are equal, so
    [Math.atan2] is given [+0] and a positive number and returns [+0];
    the angular velocity and the angle stay [+0], and [Math.sin] of the
    angle is [+0] on every tick. *)
Fixpoint velocityAfter64 (n : nat) : float :=
  match n with
  | O => 0%float
  | S n' => updateVelocity64 (velocityAfter64 n') 0%float throttleOnly
  end.

(** The double the velocity comes to rest on. *)
Definition throttleRest64 : float := 5.999999999999984%float.

(** Each of [n] ticks from velocity [v] raises the velocity and leaves it
    below 6. *)
Fixpoint rising64 (n : nat) (v : float) : bool :=
  match n with
  | O => true
  | S n' =>
      let w := updateVelocity64 v 0%float throttleOnly in
      (v <? w)%float && (v <=? w)%float && (w <? 6)%float
      && (w <=? MAX_SPEED64)%float && rising64 n' w
  end.

(** * Properties *)

(** ** Arithmetic helpers *)

Lemma ltb_true (a b : R) : JsMath.ltb a b = true <-> a < b.
Proof.
  unfold JsMath.ltb; destruct (Rlt_dec a b); split; intros; try discriminate; tauto.
Qed.

Lemma ltb_false (a b : R) : JsMath.ltb a b = false <-> b <= a.
Proof.
  unfold JsMath.ltb; destruct (Rlt_dec a b); split; intros; try discriminate;
    try reflexivity; lra.
Qed.

Lemma gtb_true (a b : R) : JsMath.gtb a b = true <-> b < a.
Proof. apply ltb_true. Qed.

Lemma gtb_false (a b : R) : JsMath.gtb a b = false <-> a <= b.
Proof. apply ltb_false. Qed.

Lemma geb_true (a b : R) : JsMath.geb a b = true <-> b <= a.
Proof.
  unfold JsMath.geb; destruct (Rle_dec b a); split; intros; try discriminate; tauto.
Qed.

Lemma geb_false (a b : R) : JsMath.geb a b = false <-> a < b.
Proof.
  unfold JsMath.geb; destruct (Rle_dec b a); split; intros; try discriminate;
    try reflexivity; lra.
Qed.

Lemma floor_spec (r : R) :
  IZR (JsMath.floor r) <= r < IZR (JsMath.floor r) + 1.
Proof. unfold JsMath.floor; destruct (base_Int_part r); lra. Qed.

Lemma floor_unique (r : R) (z : Z) :
  IZR z <= r < IZR z + 1 -> JsMath.floor r = z.
Proof.
  intros H; unfold JsMath.floor; symmetry; apply Int_part_spec; lra.
Qed.

Lemma floor_nonneg (r : R) : 0 <= r -> (0 <= JsMath.floor r)%Z.
Proof.
  intros H. destruct (floor_spec r) as [_ Hu].
  assert (Hlt : IZR (-1) < IZR (JsMath.floor r)) by (simpl; lra).
  apply lt_IZR in Hlt; lia.
Qed.

Lemma floor_IZR (z : Z) : JsMath.floor (IZR z) = z.
Proof. apply floor_unique; lra. Qed.

(** ** Array helpers *)

Lemma index_nonneg {A : Type} (arr : list A) (i : Z) :
  (0 <= i)%Z -> index arr i = nth_error arr (Z.to_nat i).
Proof.
  intros H; unfold index. destruct (Z.ltb_spec i 0); [lia | reflexivity].
Qed.

Lemma index_of_nat {A : Type} (arr : list A) (n : nat) :
  index arr (Z.of_nat n) = nth_error arr n.
Proof. rewrite index_nonneg by lia. now rewrite Nat2Z.id. Qed.

Lemma index_in_range {A : Type} (arr : list A) (i : Z) :
  (0 <= i < len arr)%Z -> exists a, index arr i = Some a.
Proof.
  intros H. rewrite index_nonneg by lia.
  destruct (nth_error arr (Z.to_nat i)) as [a|] eqn:E; [now exists a|].
  apply nth_error_None in E. unfold len in H. lia.
Qed.

Lemma index_out_of_range {A : Type} (arr : list A) (i : Z) :
  (i < 0 \/ len arr <= i)%Z -> index arr i = None.
Proof.
  intros H; unfold index. destruct (Z.ltb_spec i 0); [reflexivity|].
  apply nth_error_None. unfold len in H. lia.
Qed.

Lemma len_pos {A : Type} (arr : list A) : arr <> [] -> (1 <= len arr)%Z.
Proof. destruct arr; [congruence | unfold len; simpl; lia]. Qed.

(** ** Terrain sampler: every read is in range *)

Lemma getTerrainHeight_defined (terrain : list Point.t) (x : R) :
  terrain <> [] -> exists h, getTerrainHeight x terrain = Some h.
Proof.
  intros Hne. pose proof (len_pos terrain Hne) as Hlen.
  unfold getTerrainHeight.
  destruct (JsMath.ltb x 0) eqn:Hx.
  - destruct (index_in_range terrain 0) as [p Hp]; [lia|].
    rewrite Hp; simpl; eauto.
  - apply ltb_false in Hx.
    assert (Hidx : (0 <= JsMath.floor (x / segmentLength))%Z).
    { apply floor_nonneg. unfold segmentLength. lra. }
    destruct (Z.geb_spec (JsMath.floor (x / segmentLength)) (len terrain - 1)).
    + destruct (index_in_range terrain (len terrain - 1)) as [p Hp]; [lia|].
      rewrite Hp; simpl; eauto.
    + destruct (index_in_range terrain (JsMath.floor (x / segmentLength)))
        as [p1 Hp1]; [lia|].
      destruct (index_in_range terrain (JsMath.floor (x / segmentLength) + 1))
        as [p2 Hp2]; [lia|].
      rewrite Hp1, Hp2; eauto.
Qed.

Lemma getTerrainHeight_empty (x : R) : getTerrainHeight x [] = None.
Proof.
  unfold getTerrainHeight.
  destruct (JsMath.ltb x 0) eqn:Hx; [reflexivity|].
  apply ltb_false in Hx.
  assert (Hidx : (0 <= JsMath.floor (x / segmentLength))%Z).
  { apply floor_nonneg. unfold segmentLength. lra. }
  destruct (Z.geb_spec (JsMath.floor (x / segmentLength)) (len (@nil Point.t) - 1)) as [_|H].
  - reflexivity.
  - unfold len in H; simpl in H; lia.
Qed.

(** C10: on a non-empty profile every array read of [getTerrainHeight] is
    in range and a number is returned, for every real [x]; on the empty
    profile the read fails whatever [x] is, the read of [terrain[0]]
    included.  So the sampler returns a number exactly on the non-empty
    profiles. *)
Theorem getTerrainHeight_in_bounds (terrain : list Point.t) (x : R) :
  ((exists h, getTerrainHeight x terrain = Some h) <-> terrain <> []) /\
  (index terrain 0 = None <-> terrain = []).
Proof.
  split; split.
  - intros [h Hh] ->. rewrite getTerrainHeight_empty in Hh. discriminate.
  - apply getTerrainHeight_defined.
  - destruct terrain; [reflexivity | discriminate].
  - intros ->. reflexivity.
Qed.

(** ** Terrain sampler: clamping, interpolation, continuity *)


Lemma getTerrainHeight_negative (terrain : list Point.t) (first : Point.t) (x : R) :
  nth_error terrain 0 = Some first -> x < 0 ->
  getTerrainHeight x terrain = Some (Point.y first).
Proof.
  intros Hf Hx. unfold getTerrainHeight.
  apply ltb_true in Hx. rewrite Hx.
  change 0%Z with (Z.of_nat 0). now rewrite index_of_nat, Hf.
Qed.

Lemma getTerrainHeight_beyond (terrain : list Point.t) (last : Point.t) (x : R) :
  uniform terrain ->
  nth_error terrain (length terrain - 1) = Some last ->
  Point.x last <= x ->
  getTerrainHeight x terrain = Some (Point.y last).
Proof.
  intros Hu Hl Hx.
  assert (Hne : terrain <> []) by (intros ->; discriminate).
  pose proof (len_pos terrain Hne) as Hlen. unfold len in Hlen.
  rewrite (Hu _ _ Hl) in Hx. unfold segmentLength in Hx.
  assert (H0 : 0 <= INR (length terrain - 1)) by apply pos_INR.
  unfold getTerrainHeight.
  assert (Hlt : JsMath.ltb x 0 = false) by (apply ltb_false; lra).
  rewrite Hlt.
  destruct (floor_spec (x / segmentLength)) as [_ Hup].
  unfold segmentLength in *.
  assert (Hge : (len terrain - 1 <= JsMath.floor (x / 50))%Z).
  { assert (Hz : IZR (len terrain - 1 - 1) < IZR (JsMath.floor (x / 50))).
    { unfold len. rewrite !minus_IZR, <- INR_IZR_INZ.
      rewrite minus_INR in Hx by lia. simpl in Hx. lra. }
    apply lt_IZR in Hz. lia. }
  destruct (Z.geb_spec (JsMath.floor (x / 50)) (len terrain - 1)); [|lia].
  replace (len terrain - 1)%Z with (Z.of_nat (length terrain - 1))
    by (unfold len; lia).
  now rewrite index_of_nat, Hl.
Qed.

Lemma getTerrainHeight_segment (terrain : list Point.t) (k : nat)
    (p1 p2 : Point.t) (x : R) :
  uniform terrain ->
  nth_error terrain k = Some p1 ->
  nth_error terrain (S k) = Some p2 ->
  Point.x p1 <= x < Point.x p2 ->
  getTerrainHeight x terrain = Some (interpolate p1 p2 x).
Proof.
  intros Hu H1 H2 Hx.
  pose proof (Hu _ _ H1) as Hx1. pose proof (Hu _ _ H2) as Hx2.
  rewrite S_INR in Hx2. unfold segmentLength in *.
  pose proof (pos_INR k) as Hk.
  assert (Hlen : (S k < length terrain)%nat).
  { apply nth_error_Some. congruence. }
  unfold getTerrainHeight, interpolate.
  assert (Hlt : JsMath.ltb x 0 = false) by (apply ltb_false; lra).
  rewrite Hlt.
  assert (Hfl : JsMath.floor (x / segmentLength) = Z.of_nat k).
  { apply floor_unique. rewrite <- INR_IZR_INZ. unfold segmentLength. lra. }
  rewrite Hfl.
  destruct (Z.geb_spec (Z.of_nat k) (len terrain - 1)) as [H|_];
    [unfold len in H; lia|].
  rewrite index_of_nat, H1.
  replace (Z.of_nat k + 1)%Z with (Z.of_nat (S k)) by lia.
  rewrite index_of_nat, H2.
  f_equal. unfold segmentLength. rewrite Hx2, Hx1. f_equal. f_equal. f_equal. lra.
Qed.

Lemma getTerrainHeight_at_sample (terrain : list Point.t) (k : nat) (p : Point.t) :
  uniform terrain ->
  nth_error terrain k = Some p ->
  getTerrainHeight (Point.x p) terrain = Some (Point.y p).
Proof.
  intros Hu Hp.
  destruct (nth_error terrain (S k)) as [p2|] eqn:H2.
  - rewrite (getTerrainHeight_segment terrain k p p2); auto.
    + unfold interpolate. f_equal. unfold Rdiv. rewrite Rminus_diag. lra.
    + rewrite (Hu _ _ Hp), (Hu _ _ H2), S_INR. unfold segmentLength. lra.
  - assert (Hk : (k < length terrain)%nat) by (apply nth_error_Some; congruence).
    apply nth_error_None in H2.
    assert (Hkl : k = (length terrain - 1)%nat) by lia.
    apply getTerrainHeight_beyond; auto; [congruence | lra].
Qed.

Lemma getTerrainHeight_left_limit (terrain : list Point.t) (k : nat)
    (p : Point.t) (eps : R) :
  uniform terrain ->
  nth_error terrain k = Some p ->
  0 < eps ->
  exists delta, 0 < delta /\
    forall x, Point.x p - delta < x < Point.x p ->
      exists h, getTerrainHeight x terrain = Some h /\ Rabs (h - Point.y p) < eps.
Proof.
  intros Hu Hp Heps.
  destruct k as [|k].
  - exists 1. split; [lra|]. intros x Hx.
    rewrite (Hu _ _ Hp) in Hx. simpl in Hx.
    exists (Point.y p). split.
    + apply getTerrainHeight_negative; auto. lra.
    + rewrite Rminus_diag, Rabs_R0. exact Heps.
  - assert (Hk : (k < length terrain)%nat).
    { assert (S k < length terrain)%nat by (apply nth_error_Some; congruence). lia. }
    destruct (nth_error terrain k) as [p1|] eqn:H1;
      [|apply nth_error_None in H1; lia].
    pose proof (Hu _ _ H1) as Hx1. pose proof (Hu _ _ Hp) as Hx2.
    rewrite S_INR in Hx2. unfold segmentLength in *.
    set (d := Rabs (Point.y p - Point.y p1)).
    assert (Hd : 0 <= d) by apply Rabs_pos.
    exists (Rmin 50 (50 * eps / (d + 1))). split.
    + apply Rmin_glb_lt; [lra|].
      apply Rdiv_lt_0_compat; lra.
    + intros x Hx.
      pose proof (Rmin_l 50 (50 * eps / (d + 1))) as Hm1.
      pose proof (Rmin_r 50 (50 * eps / (d + 1))) as Hm2.
      exists (interpolate p1 p x). split.
      * apply (getTerrainHeight_segment terrain k); auto. lra.
      * unfold interpolate.
        assert (Hdx : Point.x p - Point.x p1 = 50) by lra.
        rewrite Hdx.
        replace (Point.y p1
                 + (Point.y p - Point.y p1) * ((x - Point.x p1) / 50) - Point.y p)
          with ((Point.y p - Point.y p1) * ((x - Point.x p) / 50))
          by (replace (x - Point.x p) with (x - Point.x p1 - 50) by lra; field).
        rewrite Rabs_mult. fold d.
        assert (Hq : Rabs ((x - Point.x p) / 50) = (Point.x p - x) / 50).
        { rewrite Rabs_left; lra. }
        rewrite Hq.
        assert (Hb : (Point.x p - x) * (d + 1) < 50 * eps).
        { assert (Hc : Point.x p - x < 50 * eps / (d + 1)) by lra.
          apply (Rmult_lt_compat_r (d + 1)) in Hc; [|lra].
          unfold Rdiv in Hc. rewrite Rmult_assoc, Rinv_l in Hc; lra. }
        assert (Hpos : 0 < Point.x p - x) by lra.
        nra.
Qed.

Lemma getTerrainHeight_right_limit (terrain : list Point.t) (k : nat)
    (p : Point.t) (eps : R) :
  uniform terrain ->
  nth_error terrain k = Some p ->
  0 < eps ->
  exists delta, 0 < delta /\
    forall x, Point.x p < x < Point.x p + delta ->
      exists h, getTerrainHeight x terrain = Some h /\ Rabs (h - Point.y p) < eps.
Proof.
  intros Hu Hp Heps.
  assert (Hk : (k < length terrain)%nat) by (apply nth_error_Some; congruence).
  destruct (nth_error terrain (S k)) as [p2|] eqn:H2.
  - pose proof (Hu _ _ Hp) as Hx1. pose proof (Hu _ _ H2) as Hx2.
    rewrite S_INR in Hx2. unfold segmentLength in *.
    set (d := Rabs (Point.y p2 - Point.y p)).
    assert (Hd : 0 <= d) by apply Rabs_pos.
    exists (Rmin 50 (50 * eps / (d + 1))). split.
    + apply Rmin_glb_lt; [lra|]. apply Rdiv_lt_0_compat; lra.
    + intros x Hx.
      pose proof (Rmin_l 50 (50 * eps / (d + 1))) as Hm1.
      pose proof (Rmin_r 50 (50 * eps / (d + 1))) as Hm2.
      exists (interpolate p p2 x). split.
      * apply (getTerrainHeight_segment terrain k); auto. lra.
      * unfold interpolate.
        assert (Hdx : Point.x p2 - Point.x p = 50) by lra.
        rewrite Hdx.
        replace (Point.y p
                 + (Point.y p2 - Point.y p) * ((x - Point.x p) / 50) - Point.y p)
          with ((Point.y p2 - Point.y p) * ((x - Point.x p) / 50)) by lra.
        rewrite Rabs_mult. fold d.
        assert (Hq : Rabs ((x - Point.x p) / 50) = (x - Point.x p) / 50).
        { rewrite Rabs_right; lra. }
        rewrite Hq.
        assert (Hb : (x - Point.x p) * (d + 1) < 50 * eps).
        { assert (Hc : x - Point.x p < 50 * eps / (d + 1)) by lra.
          apply (Rmult_lt_compat_r (d + 1)) in Hc; [|lra].
          unfold Rdiv in Hc. rewrite Rmult_assoc, Rinv_l in Hc; lra. }
        assert (Hpos : 0 < x - Point.x p) by lra.
        nra.
  - apply nth_error_None in H2.
    assert (Hkl : k = (length terrain - 1)%nat) by lia.
    exists 1. split; [lra|]. intros x Hx.
    exists (Point.y p). split.
    + apply getTerrainHeight_beyond; auto; [congruence | lra].
    + rewrite Rminus_diag, Rabs_R0. exact Heps.
Qed.

Lemma getTerrainHeight_continuous_at_sample (terrain : list Point.t) (k : nat)
    (p : Point.t) (eps : R) :
  uniform terrain ->
  nth_error terrain k = Some p ->
  0 < eps ->
  exists delta, 0 < delta /\
    forall x, Rabs (x - Point.x p) < delta ->
      exists h, getTerrainHeight x terrain = Some h /\ Rabs (h - Point.y p) < eps.
Proof.
  intros Hu Hp Heps.
  destruct (getTerrainHeight_left_limit terrain k p eps Hu Hp Heps)
    as (dl & Hdl & Hl).
  destruct (getTerrainHeight_right_limit terrain k p eps Hu Hp Heps)
    as (dr & Hdr & Hr).
  exists (Rmin dl dr). split; [now apply Rmin_glb_lt|].
  intros x Hx.
  pose proof (Rmin_l dl dr). pose proof (Rmin_r dl dr).
  apply Rabs_def2 in Hx.
  destruct (Rtotal_order x (Point.x p)) as [Hlt | [-> | Hgt]].
  - apply Hl. lra.
  - exists (Point.y p). split.
    + now apply (getTerrainHeight_at_sample terrain k).
    + rewrite Rminus_diag, Rabs_R0. exact Heps.
  - apply Hr. lra.
Qed.

(** C7: the sampler contract on a terrain profile: the first sample's
    height left of 0, the last sample's height from the last sample on,
    linear interpolation between the two endpoints of the enclosing
    segment in between; at every sample position the height is the
    sample's, and the height function is continuous there, from the left
    as from the right. *)
Theorem sampler_contract (terrain : list Point.t) (first last : Point.t) :
  uniform terrain ->
  nth_error terrain 0 = Some first ->
  nth_error terrain (length terrain - 1) = Some last ->
  (forall x, x < 0 -> getTerrainHeight x terrain = Some (Point.y first)) /\
  (forall x, Point.x last <= x ->
     getTerrainHeight x terrain = Some (Point.y last)) /\
  (forall x, 0 <= x < Point.x last ->
     exists k p1 p2,
       nth_error terrain k = Some p1 /\ nth_error terrain (S k) = Some p2 /\
       Point.x p1 <= x < Point.x p2 /\
       getTerrainHeight x terrain = Some (interpolate p1 p2 x)) /\
  (forall k p, nth_error terrain k = Some p ->
     getTerrainHeight (Point.x p) terrain = Some (Point.y p) /\
     forall eps, 0 < eps ->
       exists delta, 0 < delta /\
         forall x, Rabs (x - Point.x p) < delta ->
           exists h, getTerrainHeight x terrain = Some h /\
                     Rabs (h - Point.y p) < eps).
Proof.
  intros Hu Hf Hl. repeat split.
  - intros x Hx. now apply getTerrainHeight_negative.
  - intros x Hx. now apply getTerrainHeight_beyond.
  - intros x [Hx0 Hx1].
    rewrite (Hu _ _ Hl) in Hx1. unfold segmentLength in Hx1.
    destruct (floor_spec (x / 50)) as [Hlo Hhi].
    pose proof (floor_nonneg (x / 50)) as Hnn.
    assert (H0 : (0 <= JsMath.floor (x / 50))%Z) by (apply Hnn; lra).
    set (k := Z.to_nat (JsMath.floor (x / 50))).
    assert (Hk : INR k = IZR (JsMath.floor (x / 50))).
    { unfold k. rewrite INR_IZR_INZ, Z2Nat.id; auto. }
    assert (Hkl : (S k < length terrain)%nat).
    { assert (Hlt : INR k < INR (length terrain - 1)) by (rewrite Hk; lra).
      apply INR_lt in Hlt. lia. }
    destruct (nth_error terrain k) as [p1|] eqn:H1;
      [|apply nth_error_None in H1; lia].
    destruct (nth_error terrain (S k)) as [p2|] eqn:H2;
      [|apply nth_error_None in H2; lia].
    assert (Hin : Point.x p1 <= x < Point.x p2).
    { rewrite (Hu _ _ H1), (Hu _ _ H2), S_INR, Hk. unfold segmentLength. lra. }
    exists k, p1, p2. repeat split; try tauto.
    now apply (getTerrainHeight_segment terrain k).
  - now apply (getTerrainHeight_at_sample terrain k).
  - intros eps Heps. now apply (getTerrainHeight_continuous_at_sample terrain k).
Qed.

(** ** Terrain generator: shape of the result *)

Lemma terrainLoop_unfold (n : nat) (totalSegments : Z) (seed : R) (i : Z)
    (points : list Point.t) (currentY : R) :
  terrainLoop n totalSegments seed i points currentY =
  points ++ map (fun k => terrainSample totalSegments seed (i + Z.of_nat k)%Z)
                (seq 0 n).
Proof.
  revert i points currentY.
  induction n as [|n IH]; intros i points currentY; simpl.
  - now rewrite app_nil_r.
  - rewrite IH, <- app_assoc. simpl. f_equal.
    rewrite Z.add_0_r. f_equal.
    rewrite <- seq_shift, map_map.
    apply map_ext. intros k. f_equal. lia.
Qed.

Lemma generateTerrain_length (length seed : R) :
  List.length (generateTerrain length seed) =
  Z.to_nat (JsMath.ceil (length / segmentLength) + 1).
Proof.
  unfold generateTerrain. rewrite terrainLoop_unfold. simpl.
  now rewrite length_map, length_seq.
Qed.

Lemma generateTerrain_nth (length seed : R) (i : nat) :
  (i < Z.to_nat (JsMath.ceil (length / segmentLength) + 1))%nat ->
  nth_error (generateTerrain length seed) i =
  Some (terrainSample (JsMath.ceil (length / segmentLength)) seed (Z.of_nat i)).
Proof.
  intros Hi. unfold generateTerrain. rewrite terrainLoop_unfold. simpl.
  rewrite nth_error_map, nth_error_seq.
  destruct (Nat.ltb_spec i (Z.to_nat (JsMath.ceil (length / segmentLength) + 1)));
    [reflexivity | lia].
Qed.

Lemma generateTerrain_uniform (length seed : R) :
  uniform (generateTerrain length seed).
Proof.
  intros i p Hp.
  assert (Hi : (i < List.length (generateTerrain length seed))%nat).
  { apply nth_error_Some. congruence. }
  rewrite generateTerrain_length in Hi.
  rewrite generateTerrain_nth in Hp by exact Hi.
  injection Hp as <-. unfold terrainSample. simpl.
  now rewrite INR_IZR_INZ.
Qed.

(** The loop-carried [currentY] is dead on entry to every iteration: the
    profile does not depend on its initial value. *)
Lemma terrainLoop_currentY_irrelevant (n : nat) (totalSegments : Z) (seed : R)
    (i : Z) (points : list Point.t) (y1 y2 : R) :
  terrainLoop n totalSegments seed i points y1 =
  terrainLoop n totalSegments seed i points y2.
Proof. now rewrite !terrainLoop_unfold. Qed.

(** C8: two calls of [generateTerrain] on identical arguments yield the
    same sample count and pointwise equal samples. *)
Theorem generateTerrain_deterministic (length1 seed1 length2 seed2 : R) :
  length1 = length2 -> seed1 = seed2 ->
  List.length (generateTerrain length1 seed1) =
  List.length (generateTerrain length2 seed2) /\
  forall i : nat,
    option_map Point.x (nth_error (generateTerrain length1 seed1) i) =
    option_map Point.x (nth_error (generateTerrain length2 seed2) i) /\
    option_map Point.y (nth_error (generateTerrain length1 seed1) i) =
    option_map Point.y (nth_error (generateTerrain length2 seed2) i).
Proof.
  intros Hl Hs. rewrite !generateTerrain_length.
  split.
  - now rewrite Hl.
  - intros i.
    destruct (Nat.ltb_spec i (Z.to_nat (JsMath.ceil (length1 / segmentLength) + 1)))
      as [Hi|Hi].
    + rewrite (generateTerrain_nth length1 seed1 i Hi).
      rewrite Hl in Hi.
      rewrite (generateTerrain_nth length2 seed2 i Hi).
      now rewrite Hl, Hs.
    + assert (H1 : nth_error (generateTerrain length1 seed1) i = None).
      { apply nth_error_None. now rewrite generateTerrain_length. }
      assert (H2 : nth_error (generateTerrain length2 seed2) i = None).
      { apply nth_error_None. rewrite generateTerrain_length, <- Hl. exact Hi. }
      now rewrite H1, H2.
Qed.

(** ** The tick on a running game *)



Lemma gameLoop_playing_outcome (now : R) (s : App) (groundRearY groundFrontY : R)
    (finish : Point.t) :
  gameState s = PLAYING ->
  getTerrainHeight (BikePhysics.x (bikeRef s)) (terrainRef s) = Some groundRearY ->
  getTerrainHeight (frontX (bikeRef s)) (terrainRef s) = Some groundFrontY ->
  index (terrainRef s) (len (terrainRef s) - 20) = Some finish ->
  gameLoop now s =
  match drawTerrain (integrate (bikeRef s) (inputsRef s) groundRearY groundFrontY)
          (terrainRef s) with
  | None => Threw (afterTick now s groundRearY groundFrontY finish)
  | Some _ => Returned (afterTick now s groundRearY groundFrontY finish)
  end.
Proof.
  intros Hg Hr Hf Hp. unfold gameLoop, afterTick, frontX in *.
  rewrite Hg. cbn [GameState_eqb negb]. cbv zeta. now rewrite Hr, Hf, Hp.
Qed.

Lemma gameLoop_playing (now : R) (s : App) (groundRearY groundFrontY : R)
    (finish : Point.t) :
  gameState s = PLAYING ->
  getTerrainHeight (BikePhysics.x (bikeRef s)) (terrainRef s) = Some groundRearY ->
  getTerrainHeight (frontX (bikeRef s)) (terrainRef s) = Some groundFrontY ->
  index (terrainRef s) (len (terrainRef s) - 20) = Some finish ->
  stateOf (gameLoop now s) = afterTick now s groundRearY groundFrontY finish.
Proof.
  intros Hg Hr Hf Hp.
  rewrite (gameLoop_playing_outcome now s _ _ _ Hg Hr Hf Hp).
  now destruct (drawTerrain _ _).
Qed.

Lemma gameLoop_not_playing (now : R) (s : App) :
  gameState s <> PLAYING -> gameLoop now s = Returned s.
Proof.
  intros H. unfold gameLoop.
  destruct (gameState s); try reflexivity. congruence.
Qed.

(** On a non-empty profile a running tick always gets as far as the
    integrator: the state it leaves, returned or thrown, holds the
    integrated pose. *)
Lemma gameLoop_integrates (now : R) (s : App) :
  gameState s = PLAYING -> terrainRef s <> [] ->
  exists groundRearY groundFrontY,
    getTerrainHeight (BikePhysics.x (bikeRef s)) (terrainRef s) = Some groundRearY /\
    getTerrainHeight (frontX (bikeRef s)) (terrainRef s) = Some groundFrontY /\
    bikeRef (stateOf (gameLoop now s)) =
    integrate (bikeRef s) (inputsRef s) groundRearY groundFrontY /\
    inputsRef (stateOf (gameLoop now s)) = inputsRef s.
Proof.
  intros Hg Hne.
  destruct (getTerrainHeight_defined (terrainRef s) (BikePhysics.x (bikeRef s)) Hne)
    as [gr Hr].
  destruct (getTerrainHeight_defined (terrainRef s) (frontX (bikeRef s)) Hne)
    as [gf Hf].
  exists gr, gf. split; [exact Hr|]. split; [exact Hf|].
  unfold gameLoop. rewrite Hg. cbn [GameState_eqb negb]. cbv zeta.
  rewrite Hr. unfold frontX in Hf. rewrite Hf.
  destruct (index (terrainRef s) (len (terrainRef s) - 20)) as [p|].
  - destruct (drawTerrain _ _), (headCollision _), (JsMath.geb _ _);
      simpl; auto.
  - destruct (headCollision _); simpl; auto.
Qed.

(** ** Speed clamp *)

(** Decides the two comparisons of the clamp once the unclamped value is
    known to lie inside the bounds. *)
Ltac clamp_inside :=
  repeat match goal with
  | |- context [JsMath.gtb ?a ?b] =>
      let E := fresh "E" in
      destruct (JsMath.gtb a b) eqn:E; [apply gtb_true in E; lra|]
  | |- context [JsMath.ltb ?a ?b] =>
      let E := fresh "E" in
      destruct (JsMath.ltb a b) eqn:E; [apply ltb_true in E; lra|]
  end.

Lemma updateVelocity_clamped (velocity angle : R) (inputs : Inputs.t) :
  - MAX_SPEED <= updateVelocity velocity angle inputs <= currentMaxSpeed inputs.
Proof.
  unfold updateVelocity.
  set (v := (_ * FRICTION)).
  assert (Hcap : - MAX_SPEED <= currentMaxSpeed inputs).
  { unfold currentMaxSpeed, MAX_SPEED, MAX_NITRO_SPEED.
    destruct (Inputs.nitro inputs); lra. }
  destruct (JsMath.gtb v (currentMaxSpeed inputs)) eqn:E1.
  - destruct (JsMath.ltb (currentMaxSpeed inputs) (- MAX_SPEED)) eqn:E2.
    + apply ltb_true in E2. lra.
    + lra.
  - apply gtb_false in E1.
    destruct (JsMath.ltb v (- MAX_SPEED)) eqn:E2.
    + lra.
    + apply ltb_false in E2. lra.
Qed.

(** C2: after a tick of a running game, whatever the pose, the (non-empty)
    profile and the inputs, the velocity lies between [-MAX_SPEED] and the
    cap in force: 60 with nitro held, 28 otherwise. *)
Theorem speed_clamp (now : R) (s : App) :
  gameState s = PLAYING -> terrainRef s <> [] ->
  let v := BikePhysics.velocity (bikeRef (stateOf (gameLoop now s))) in
  - MAX_SPEED <= v <= currentMaxSpeed (inputsRef s) /\
  MAX_SPEED = 28 /\
  currentMaxSpeed (inputsRef s) =
    (if Inputs.nitro (inputsRef s) then 60 else 28).
Proof.
  intros Hg Hne v.
  destruct (gameLoop_integrates now s Hg Hne) as (gr & gf & _ & _ & Hb & _).
  subst v. rewrite Hb. simpl.
  split; [apply updateVelocity_clamped|].
  split; reflexivity.
Qed.

(** ** Win detection *)

Lemma afterTick_bike (now : R) (s : App) (gr gf : R) (finish : Point.t) :
  bikeRef (afterTick now s gr gf finish) =
  integrate (bikeRef s) (inputsRef s) gr gf.
Proof.
  unfold afterTick.
  destruct (headCollision _), (JsMath.geb _ _); reflexivity.
Qed.

Lemma afterTick_won (now : R) (s : App) (gr gf : R) (finish : Point.t) :
  Point.x finish <= BikePhysics.x (integrate (bikeRef s) (inputsRef s) gr gf) ->
  let s' := afterTick now s gr gf finish in
  gameState s' = WON /\
  coins s' = (coins s + (50 + 25 * currentLevel s))%Z /\
  unlockedLevels s' = Z.max (unlockedLevels s) (currentLevel s + 1) /\
  storage s' =
    Some (mkSaved (Z.max (unlockedLevels s) (currentLevel s + 1))
            (coins s + (50 + 25 * currentLevel s))%Z (ownedBikes s)
            (selectedBikeId s)).
Proof.
  intros Hx. apply geb_true in Hx. unfold afterTick. rewrite Hx.
  replace (currentLevel s * 25)%Z with (25 * currentLevel s)%Z by lia.
  destruct (headCollision _); simpl; auto.
Qed.

Lemma index_some_nonempty {A : Type} (arr : list A) (i : Z) (a : A) :
  index arr i = Some a -> arr <> [].
Proof.
  intros H ->. unfold index in H.
  destruct (i <? 0)%Z; [discriminate|]. now destruct (Z.to_nat i).
Qed.

Lemma afterTick_terrain (now : R) (s : App) (gr gf : R) (finish : Point.t) :
  terrainRef (afterTick now s gr gf finish) = terrainRef s.
Proof.
  unfold afterTick.
  destruct (headCollision _), (JsMath.geb _ _); reflexivity.
Qed.

(** A running tick that gets past the finish-line read ends with the draw
    of the pose and course it leaves: it returns when the reads of the
    draw are in range and fails when one is not. *)
Lemma gameLoop_draw (now : R) (s : App) (finish : Point.t) :
  gameState s = PLAYING ->
  index (terrainRef s) (len (terrainRef s) - 20) = Some finish ->
  let s' := stateOf (gameLoop now s) in
  terrainRef s' = terrainRef s /\
  gameLoop now s =
  match drawTerrain (bikeRef s') (terrainRef s') with
  | None => Threw s'
  | Some _ => Returned s'
  end.
Proof.
  intros Hg Hfin s'.
  pose proof (index_some_nonempty _ _ _ Hfin) as Hne.
  destruct (gameLoop_integrates now s Hg Hne) as (gr & gf & Hr & Hf & _).
  assert (Hs : s' = afterTick now s gr gf finish).
  { unfold s'. now apply gameLoop_playing. }
  rewrite Hs, afterTick_terrain, afterTick_bike.
  split; [reflexivity|].
  now apply gameLoop_playing_outcome.
Qed.

Lemma gameLoop_returns_iff (now : R) (s : App) (finish : Point.t) :
  gameState s = PLAYING ->
  index (terrainRef s) (len (terrainRef s) - 20) = Some finish ->
  let s' := stateOf (gameLoop now s) in
  gameLoop now s = Returned s' <->
  drawTerrain (bikeRef s') (terrainRef s') <> None.
Proof.
  intros Hg Hfin s'.
  destruct (gameLoop_draw now s finish Hg Hfin) as (_ & Hd). fold s' in Hd.
  rewrite Hd.
  destruct (drawTerrain (bikeRef s') (terrainRef s')); split; intros H;
    try reflexivity; try discriminate; congruence.
Qed.

Lemma gameLoop_won (now : R) (s : App) (finish : Point.t) :
  gameState s = PLAYING ->
  index (terrainRef s) (len (terrainRef s) - 20) = Some finish ->
  Point.x finish <= BikePhysics.x (bikeRef (stateOf (gameLoop now s))) ->
  exists s', stateOf (gameLoop now s) = s' /\
    gameState s' = WON /\
    coins s' = (coins s + (50 + 25 * currentLevel s))%Z /\
    unlockedLevels s' = Z.max (unlockedLevels s) (currentLevel s + 1) /\
    storage s' =
      Some (mkSaved (Z.max (unlockedLevels s) (currentLevel s + 1))
              (coins s + (50 + 25 * currentLevel s))%Z (ownedBikes s)
              (selectedBikeId s)).
Proof.
  intros Hg Hfin Hx.
  pose proof (index_some_nonempty _ _ _ Hfin) as Hne.
  destruct (gameLoop_integrates now s Hg Hne) as (gr & gf & Hr & Hf & Hb & _).
  rewrite Hb in Hx.
  rewrite (gameLoop_playing now s gr gf finish Hg Hr Hf Hfin).
  eexists. split; [reflexivity|].
  now apply afterTick_won.
Qed.

(** C3: a tick that finds the pose at or beyond the finish line (the x of
    the 20th sample from the end) ends the run as Won, pays the reward
    [50 + 25 * levelId] and raises the unlocked-level count to
    [max (unlocked, levelId + 1)].  The pose the tick tests is the one it
    has just integrated.  The call returns when the reads of its closing
    draw are in range; the state is the same when they are not. *)
Theorem win_postcondition (now : R) (s : App) (finish : Point.t) :
  gameState s = PLAYING ->
  index (terrainRef s) (len (terrainRef s) - 20) = Some finish ->
  Point.x finish <= BikePhysics.x (bikeRef (stateOf (gameLoop now s))) ->
  exists s', stateOf (gameLoop now s) = s' /\
    (gameLoop now s = Returned s' <->
     drawTerrain (bikeRef s') (terrainRef s') <> None) /\
    gameState s' = WON /\
    coins s' = (coins s + (50 + 25 * currentLevel s))%Z /\
    unlockedLevels s' = Z.max (unlockedLevels s) (currentLevel s + 1) /\
    storage s' =
      Some (mkSaved (Z.max (unlockedLevels s) (currentLevel s + 1))
              (coins s + (50 + 25 * currentLevel s))%Z (ownedBikes s)
              (selectedBikeId s)).
Proof.
  intros Hg Hfin Hx.
  destruct (gameLoop_won now s finish Hg Hfin Hx) as (s' & Hs & Hw).
  exists s'. split; [exact Hs|]. split; [|exact Hw].
  rewrite <- Hs. now apply (gameLoop_returns_iff now s finish).
Qed.

(** ** Level gate *)

(** C6: [startLevel] on a level above the unlocked count returns without
    writing anything: the whole component state, run state and persistent
    state alike, is the one before the call. *)
Theorem level_gate (now : R) (levelId : Z) (s : App) :
  (levelId > unlockedLevels s)%Z ->
  startLevel now levelId s = Returned s.
Proof.
  intros H. unfold startLevel.
  destruct (Z.gtb_spec levelId (unlockedLevels s)); [reflexivity | lia].
Qed.

(** ** Crash detection *)

Lemma trunc_small (q : R) : -1 < q < 1 -> JsMath.trunc q = 0%Z.
Proof.
  intros [Hlo Hhi]. unfold JsMath.trunc.
  destruct (Rle_dec 0 q).
  - apply floor_unique. simpl. lra.
  - unfold JsMath.ceil. fold (JsMath.floor (- q)).
    rewrite (floor_unique (- q) 0); [reflexivity | simpl; lra].
Qed.

Lemma rem_small (a b : R) : 0 < b -> - b < a < b -> JsMath.rem a b = a.
Proof.
  intros Hb Ha. unfold JsMath.rem.
  rewrite trunc_small; [simpl; lra|].
  split.
  - apply (Rmult_lt_reg_r b); [lra|].
    unfold Rdiv. rewrite Rmult_assoc, Rinv_l by lra. lra.
  - apply (Rmult_lt_reg_r b); [lra|].
    unfold Rdiv. rewrite Rmult_assoc, Rinv_l by lra. lra.
Qed.

Lemma rem_bounded (a b : R) : 0 < b -> Rabs (JsMath.rem a b) < b.
Proof.
  intros Hb. unfold JsMath.rem, JsMath.trunc.
  assert (Hq : a = b * (a / b)) by (field; lra).
  destruct (Rle_dec 0 (a / b)) as [Hs|Hs].
  - destruct (floor_spec (a / b)) as [Hlo Hhi].
    set (f := IZR (JsMath.floor (a / b))) in *.
    rewrite Rabs_right; nra.
  - unfold JsMath.ceil. fold (JsMath.floor (- (a / b))).
    destruct (floor_spec (- (a / b))) as [Hlo Hhi].
    rewrite opp_IZR.
    set (f := IZR (JsMath.floor (- (a / b)))) in *.
    rewrite Rabs_left1; nra.
Qed.

Lemma normalizedAngle_range (angle : R) :
  0 <= normalizedAngle angle < 2 * PI.
Proof.
  unfold normalizedAngle. split; [apply Rabs_pos|].
  replace (2 * PI) with (PI * 2) by lra.
  apply rem_bounded. pose proof PI_RGT_0. lra.
Qed.

Lemma headCollision_true (angle : R) :
  headCollision angle = true <->
  PI / 1.8 < normalizedAngle angle < PI * 1.5.
Proof.
  unfold headCollision. rewrite andb_true_iff, gtb_true, ltb_true. tauto.
Qed.

Lemma afterTick_gameState (now : R) (s : App) (gr gf : R) (finish : Point.t) :
  gameState s = PLAYING ->
  let bike := integrate (bikeRef s) (inputsRef s) gr gf in
  gameState (afterTick now s gr gf finish) =
  if JsMath.geb (BikePhysics.x bike) (Point.x finish) then WON
  else if headCollision (BikePhysics.angle bike) then CRASHED
  else PLAYING.
Proof.
  intros Hg bike. unfold afterTick. fold bike.
  destruct (JsMath.geb _ _), (headCollision _); simpl; auto.
Qed.

Lemma gameLoop_crashed_iff (now : R) (s : App) (finish : Point.t) :
  gameState s = PLAYING ->
  index (terrainRef s) (len (terrainRef s) - 20) = Some finish ->
  let s' := stateOf (gameLoop now s) in
  gameState s' = CRASHED <->
  headCollision (BikePhysics.angle (bikeRef s')) = true /\
  BikePhysics.x (bikeRef s') < Point.x finish.
Proof.
  intros Hg Hfin s'.
  pose proof (index_some_nonempty _ _ _ Hfin) as Hne.
  destruct (gameLoop_integrates now s Hg Hne) as (gr & gf & Hr & Hf & Hb & _).
  assert (Hs : s' = afterTick now s gr gf finish).
  { unfold s'. now rewrite (gameLoop_playing now s gr gf finish Hg Hr Hf Hfin). }
  rewrite Hs, (afterTick_gameState now s gr gf finish Hg), afterTick_bike.
  destruct (JsMath.geb _ _) eqn:Hge.
  - apply geb_true in Hge. split; [discriminate | intros [_ H]; lra].
  - apply geb_false in Hge.
    destruct (headCollision _); split; try discriminate; try tauto.
    intros [H _]; discriminate.
Qed.

(** C1, as the code has it: every tick of a running game takes the
    absolute value of [angle % 2 PI], a number in [[0, 2 PI)], and tests it
    against the open window from [PI / 1.8] to [1.5 PI], whatever the
    pose's height above the ground; the run is left Crashed exactly when
    the test succeeds and the pose is short of the finish line.  With the
    pose at or beyond the finish line the later win update prevails. *)
Theorem crash_detection (now : R) (s : App) (finish : Point.t) :
  gameState s = PLAYING ->
  index (terrainRef s) (len (terrainRef s) - 20) = Some finish ->
  let s' := stateOf (gameLoop now s) in
  let a := normalizedAngle (BikePhysics.angle (bikeRef s')) in
  0 <= a < 2 * PI /\
  (gameState s' = CRASHED <->
   PI / 1.8 < a < PI * 1.5 /\ BikePhysics.x (bikeRef s') < Point.x finish) /\
  (Point.x finish <= BikePhysics.x (bikeRef s') -> gameState s' = WON).
Proof.
  intros Hg Hfin s' a. split; [apply normalizedAngle_range|]. split.
  - unfold a. rewrite <- headCollision_true.
    now apply gameLoop_crashed_iff.
  - intros Hx.
    destruct (gameLoop_won now s finish Hg Hfin Hx) as (s'' & Hs & Hw & _).
    subst s'. rewrite Hs. exact Hw.
Qed.

(** ** Level ground *)

Lemma index_In {A : Type} (arr : list A) (i : Z) (a : A) :
  index arr i = Some a -> In a arr.
Proof.
  unfold index. destruct (i <? 0)%Z; [discriminate|]. apply nth_error_In.
Qed.

Section LevelGround.

Variables (h : R) (terrain : list Point.t).
Hypothesis terrain_nonempty : terrain <> [].
Hypothesis terrain_flat : flat h terrain.

Lemma getTerrainHeight_flat (x : R) : getTerrainHeight x terrain = Some h.
Proof.
  destruct (getTerrainHeight_defined terrain x terrain_nonempty) as [v Hv].
  rewrite Hv. f_equal.
  pose proof terrain_flat as Hflat.
  unfold flat in Hflat. rewrite Forall_forall in Hflat.
  unfold getTerrainHeight in Hv.
  assert (Hy : forall i p, index terrain i = Some p -> Point.y p = h).
  { intros i p Hp. apply Hflat. now apply (index_In terrain i). }
  destruct (JsMath.ltb x 0).
  - destruct (index terrain 0) as [p|] eqn:Hp; [|discriminate].
    injection Hv as <-. now apply (Hy 0%Z).
  - destruct (_ >=? _)%Z.
    + destruct (index terrain (len terrain - 1)) as [p|] eqn:Hp; [|discriminate].
      injection Hv as <-. now apply (Hy (len terrain - 1)%Z).
    + destruct (index terrain (JsMath.floor (x / segmentLength))) as [p1|] eqn:H1;
        [|discriminate].
      destruct (index terrain (JsMath.floor (x / segmentLength) + 1)) as [p2|] eqn:H2;
        [|discriminate].
      injection Hv as <-.
      rewrite (Hy _ _ H1), (Hy _ _ H2). lra.
Qed.

Lemma physicsTick_flat (inputs : Inputs.t) (bike : BikePhysics.t) :
  physicsTick terrain inputs bike = Some (integrate bike inputs h h).
Proof. unfold physicsTick. now rewrite !getTerrainHeight_flat. Qed.

End LevelGround.

Lemma profile_nth (f : nat -> R) (n i : nat) :
  (i < n)%nat ->
  nth_error (profile f n) i = Some (Point.mk (INR i * segmentLength) (f i)).
Proof.
  intros Hi. unfold profile. rewrite nth_error_map, nth_error_seq.
  destruct (Nat.ltb_spec i n); [reflexivity | lia].
Qed.

Lemma profile_length (f : nat -> R) (n : nat) : length (profile f n) = n.
Proof. unfold profile. now rewrite length_map, length_seq. Qed.

Lemma profile_uniform (f : nat -> R) (n : nat) : uniform (profile f n).
Proof.
  intros i p Hp.
  assert (Hi : (i < n)%nat).
  { rewrite <- (profile_length f n). apply nth_error_Some. congruence. }
  rewrite profile_nth in Hp by exact Hi. now injection Hp as <-.
Qed.

Lemma levelGround_flat : flat 756 levelGround.
Proof.
  unfold flat, levelGround, profile. apply Forall_forall.
  intros p Hp. apply in_map_iff in Hp. destruct Hp as (k & <- & _). reflexivity.
Qed.

Lemma levelGround_nonempty : levelGround <> [].
Proof. discriminate. Qed.

Lemma profile_nth_at (f : nat -> R) (n i : nat) (x y : R) :
  (i < n)%nat -> x = IZR (Z.of_nat i) * 50 -> y = f i ->
  nth_error (profile f n) i = Some (Point.mk x y).
Proof.
  intros Hi -> ->. rewrite profile_nth by exact Hi.
  now rewrite INR_IZR_INZ.
Qed.

Lemma profile_finish (f : nat -> R) (n : nat) :
  (20 <= n)%nat ->
  index (profile f n) (len (profile f n) - 20) =
  Some (Point.mk (IZR (Z.of_nat (n - 20)) * 50) (f (n - 20)%nat)).
Proof.
  intros Hn. unfold len. rewrite profile_length.
  replace (Z.of_nat n - 20)%Z with (Z.of_nat (n - 20)) by lia.
  rewrite index_of_nat. apply profile_nth_at; auto. lia.
Qed.

Lemma levelGround_finish :
  index levelGround (len levelGround - 20) = Some (Point.mk 1050 756).
Proof.
  unfold levelGround. rewrite profile_finish by lia.
  do 2 f_equal. simpl. lra.
Qed.

Lemma levelGround_uniform : uniform levelGround.
Proof. apply profile_uniform. Qed.

Create HintDb ground.

#[local] Hint Resolve levelGround_nonempty levelGround_flat levelGround_uniform
  : ground.

(** ** Target angle and rotation on level ground *)

Lemma atan2_zero_pos (x : R) : 0 < x -> JsMath.atan2 0 x = 0.
Proof.
  intros H. unfold JsMath.atan2.
  destruct (Rlt_dec 0 x); [|lra].
  unfold Rdiv. now rewrite Rmult_0_l, atan_0.
Qed.

Lemma atan2_zero_neg (x : R) : x < 0 -> JsMath.atan2 0 x = PI.
Proof.
  intros H. unfold JsMath.atan2.
  destruct (Rlt_dec 0 x); [lra|].
  destruct (Rlt_dec x 0); [|lra].
  destruct (Rle_dec 0 0); [|lra].
  unfold Rdiv. rewrite Rmult_0_l, atan_0. lra.
Qed.

(** No torque: zero angular velocity, the pose aligned with the ground,
    left and right released, and no nitro flip. *)
Lemma updateAngularVelocity_rest (airborne : bool) (inputs : Inputs.t) :
  Inputs.left inputs = false -> Inputs.right inputs = false ->
  Inputs.nitro inputs && airborne = false ->
  updateAngularVelocity 0 0 airborne inputs = 0.
Proof.
  intros Hl Hr Hn. unfold updateAngularVelocity.
  rewrite Hl, Hr, Hn.
  destruct (Inputs.nitro inputs), (JsMath.gtb (Rabs 0) 0.5); lra.
Qed.

Lemma updateVelocity_rest (angle : R) :
  sin angle = 0 -> updateVelocity 0 angle Inputs.released = 0.
Proof.
  intros Hs. unfold updateVelocity. simpl. rewrite Hs.
  unfold currentMaxSpeed, MAX_SPEED, FRICTION, GRAVITY. simpl.
  clamp_inside. lra.
Qed.

Lemma normalizedAngle_small (angle : R) :
  0 <= angle < 2 * PI -> normalizedAngle angle = angle.
Proof.
  intros H. unfold normalizedAngle.
  rewrite rem_small by lra. apply Rabs_right. lra.
Qed.

Lemma PI_gt_3 : 3 < PI.
Proof. pose proof PI2_3_2. lra. Qed.

(** The tick of the inverted pose on the finish line. *)
Lemma invertedAtFinish_tick (now : R) :
  stateOf (gameLoop now invertedAtFinish) =
  afterTick now invertedAtFinish 756 756 (Point.mk 1050 756) /\
  integrate (bikeRef invertedAtFinish) (inputsRef invertedAtFinish) 756 756 =
  BikePhysics.mk 1050 756 0 PI 0 0.
Proof.
  split.
  - apply gameLoop_playing; try reflexivity.
    + apply getTerrainHeight_flat; auto with ground.
    + apply getTerrainHeight_flat; auto with ground.
    + apply levelGround_finish.
  - unfold integrate, invertedAtFinish, running. simpl.
    rewrite cos_PI, (updateVelocity_rest PI sin_PI).
    unfold WHEEL_BASE.
    replace (1050 + -1 * 70 - 1050) with (-70) by lra.
    rewrite Rminus_diag, atan2_zero_neg by lra.
    rewrite Rminus_diag.
    rewrite updateAngularVelocity_rest by reflexivity.
    f_equal; try lra. now destruct (negb _ && _).
Qed.

(** The claim of C1 fails on the finish line: the inverted pose is inside
    the window, yet the tick leaves the run Won, not Crashed. *)
Lemma crash_lost_at_finish :
  let s' := stateOf (gameLoop 0 invertedAtFinish) in
  let a := normalizedAngle (BikePhysics.angle (bikeRef s')) in
  gameState invertedAtFinish = PLAYING /\
  PI / 1.8 < a < PI * 1.5 /\
  gameState s' = WON /\
  ~ (gameState s' = CRASHED <-> PI / 1.8 < a < PI * 1.5).
Proof.
  destruct (invertedAtFinish_tick 0) as [Ht Hi].
  cbv zeta. rewrite Ht. cbn [stateOf].
  rewrite afterTick_bike, Hi.
  rewrite (afterTick_gameState 0 invertedAtFinish 756 756 _ eq_refl), Hi.
  cbn [BikePhysics.angle BikePhysics.x Point.x].
  assert (Hge : JsMath.geb 1050 1050 = true) by (apply geb_true; lra).
  rewrite Hge.
  pose proof PI_gt_3 as Hpi.
  rewrite normalizedAngle_small by lra.
  assert (Hw : PI / 1.8 < PI < PI * 1.5) by lra.
  repeat split; try lra.
  intros [_ H]. specialize (H Hw). discriminate.
Qed.

(** ** The run outcome is terminal *)

Lemma dispatch_idle (s : App) (e : Event) :
  inRun (gameState s) = false -> startsRun e = false ->
  idleStep s (dispatch s e).
Proof.
  intros Hrun He. unfold idleStep, dispatch.
  destruct (offered s e) eqn:Hoff; [|tauto].
  destruct e as [now|k active|g| |id price|id|now levelId]; simpl in *.
  - rewrite gameLoop_not_playing by (intros E; rewrite E in Hrun; discriminate).
    simpl. tauto.
  - destruct k; simpl; tauto.
  - destruct (gameState s), g; simpl in *; try discriminate;
      repeat split; auto; discriminate.
  - tauto.
  - unfold buyBike. destruct (_ && _); simpl; tauto.
  - unfold selectBike. destruct (includes _ _); simpl; tauto.
  - discriminate.
Qed.

Lemma run_idle (es : list Event) (s : App) :
  inRun (gameState s) = false ->
  forallb (fun e => negb (startsRun e)) es = true ->
  idleStep s (run es s).
Proof.
  revert s. induction es as [|e es IH]; intros s Hrun Hes; simpl in *.
  - unfold idleStep. tauto.
  - apply andb_true_iff in Hes. destruct Hes as [He Hes].
    apply negb_true_iff in He.
    destruct (dispatch_idle s e Hrun He) as (Hb & Ht & Htm & Hr & Ho).
    destruct (IH (dispatch s e) Hr Hes) as (Hb' & Ht' & Htm' & Hr' & Ho').
    unfold idleStep. repeat split; try congruence.
    intros H. rewrite (Ho' H). apply Ho. rewrite <- (Ho' H). exact H.
Qed.

(** C4: from a run that has ended Crashed or Won, through any sequence of
    frames, key events and button presses other than a press that calls
    [startLevel], every frame returns at the guard: the tick changes
    nothing, the pose and the profile stay as the run left them, the game
    is never running again, and an outcome still on display is the one
    the run ended with. *)
Theorem outcome_terminal (s : App) (es : list Event) :
  gameState s = CRASHED \/ gameState s = WON ->
  forallb (fun e => negb (startsRun e)) es = true ->
  let s' := run es s in
  (forall now, gameLoop now s' = Returned s') /\
  bikeRef s' = bikeRef s /\
  terrainRef s' = terrainRef s /\
  gameState s' <> PLAYING /\
  (gameState s' = CRASHED \/ gameState s' = WON -> gameState s' = gameState s).
Proof.
  intros Hend Hes s'.
  assert (Hrun : inRun (gameState s) = false) by (destruct Hend as [-> | ->]; reflexivity).
  destruct (run_idle es s Hrun Hes) as (Hb & Ht & _ & Hr & Ho).
  fold s' in Hb, Ht, Hr, Ho.
  assert (Hnp : gameState s' <> PLAYING) by (intros E; rewrite E in Hr; discriminate).
  repeat split; auto.
  - intros now. now apply gameLoop_not_playing.
  - intros [E | E]; apply Ho; rewrite E; reflexivity.
Qed.

(** ** Throttle from rest on level ground *)

Lemma gameLoop_physicsTick (now : R) (s : App) :
  gameState s = PLAYING -> terrainRef s <> [] ->
  physicsTick (terrainRef s) (inputsRef s) (bikeRef s) =
  Some (bikeRef (stateOf (gameLoop now s))).
Proof.
  intros Hg Hne.
  destruct (gameLoop_integrates now s Hg Hne) as (gr & gf & Hr & Hf & Hb & _).
  unfold physicsTick. now rewrite Hr, Hf, Hb.
Qed.

(** Upright on level ground the target angle is the pose's own. *)
Lemma integrate_upright (bike : BikePhysics.t) (inputs : Inputs.t) (h : R) :
  BikePhysics.angle bike = 0 -> BikePhysics.angularVelocity bike = 0 ->
  Inputs.left inputs = false -> Inputs.right inputs = false ->
  Inputs.nitro inputs && isAirborne bike h = false ->
  let b := integrate bike inputs h h in
  BikePhysics.angle b = 0 /\ BikePhysics.angularVelocity b = 0 /\
  BikePhysics.y b = h /\
  BikePhysics.velocity b = updateVelocity (BikePhysics.velocity bike) 0 inputs.
Proof.
  intros Ha Hw Hl Hr Hn. unfold integrate. simpl.
  rewrite Ha, Hw, cos_0. unfold WHEEL_BASE.
  replace (BikePhysics.x bike + 1 * 70 - BikePhysics.x bike) with 70 by lra.
  rewrite Rminus_diag, atan2_zero_pos by lra.
  rewrite Rminus_diag, updateAngularVelocity_rest by assumption.
  repeat split; try lra.
  now destruct (negb _ && _).
Qed.

Lemma updateVelocity_throttle (v : R) :
  0 <= v <= 6 ->
  updateVelocity v 0 throttleOnly = (v + ACCELERATION) * FRICTION.
Proof.
  intros Hv. unfold updateVelocity. simpl. rewrite sin_0.
  unfold currentMaxSpeed, MAX_SPEED, ACCELERATION, FRICTION, GRAVITY. simpl.
  clamp_inside. lra.
Qed.

(** The closed form of the velocity sequence. *)
Lemma throttle_closed_form (h : R) (terrain : list Point.t)
    (bike : BikePhysics.t) (n : nat) :
  terrain <> [] -> flat h terrain ->
  BikePhysics.velocity bike = 0 -> BikePhysics.angle bike = 0 ->
  BikePhysics.angularVelocity bike = 0 ->
  exists b, physicsTicks n terrain throttleOnly bike = Some b /\
    BikePhysics.velocity b = 6 * (1 - FRICTION ^ n) /\
    BikePhysics.angle b = 0 /\ BikePhysics.angularVelocity b = 0.
Proof.
  intros Hne Hflat Hv Ha Hw.
  induction n as [|n (b & Hb & Hvb & Hab & Hwb)].
  - exists bike. simpl. repeat split; auto. lra.
  - simpl. rewrite Hb, (physicsTick_flat h) by assumption.
    eexists. split; [reflexivity|].
    destruct (integrate_upright b throttleOnly h Hab Hwb eq_refl eq_refl eq_refl)
      as (Ha' & Hw' & _ & Hv').
    repeat split; auto.
    rewrite Hv', Hvb.
    assert (Hp : 0 < FRICTION ^ n <= 1).
    { unfold FRICTION. split; [apply pow_lt; lra|].
      rewrite <- (pow1 n). apply pow_incr. lra. }
    rewrite updateVelocity_throttle by lra.
    unfold ACCELERATION, FRICTION in *. lra.
Qed.

Lemma velocityAfter_throttle (h : R) (terrain : list Point.t)
    (bike : BikePhysics.t) (n : nat) :
  terrain <> [] -> flat h terrain ->
  BikePhysics.velocity bike = 0 -> BikePhysics.angle bike = 0 ->
  BikePhysics.angularVelocity bike = 0 ->
  velocityAfter terrain throttleOnly bike n = 6 * (1 - FRICTION ^ n).
Proof.
  intros Hne Hflat Hv Ha Hw.
  destruct (throttle_closed_form h terrain bike n Hne Hflat Hv Ha Hw)
    as (b & Hb & Hvb & _).
  unfold velocityAfter. now rewrite Hb.
Qed.

Lemma FRICTION_pow_bounds (n : nat) : 0 < FRICTION ^ n <= 1.
Proof.
  unfold FRICTION. split; [apply pow_lt; lra|].
  rewrite <- (pow1 n). apply pow_incr. lra.
Qed.

(** *** The sequence on binary64 numbers *)

Lemma rising64_spec (n m : nat) :
  rising64 n (velocityAfter64 m) = true ->
  forall k, (k < n)%nat ->
    (velocityAfter64 (m + k) <? velocityAfter64 (S (m + k)))%float = true /\
    (velocityAfter64 (m + k) <=? velocityAfter64 (S (m + k)))%float = true /\
    (velocityAfter64 (S (m + k)) <? 6)%float = true /\
    (velocityAfter64 (S (m + k)) <=? MAX_SPEED64)%float = true.
Proof.
  revert m. induction n as [|n IH]; intros m H k Hk; [lia|].
  cbn [rising64] in H.
  change (updateVelocity64 (velocityAfter64 m) 0%float throttleOnly)
    with (velocityAfter64 (S m)) in H.
  cbv zeta in H.
  apply andb_true_iff in H. destruct H as [H Hrest].
  apply andb_true_iff in H. destruct H as [H H4].
  apply andb_true_iff in H. destruct H as [H H3].
  apply andb_true_iff in H. destruct H as [H1 H2].
  destruct k as [|k].
  - rewrite Nat.add_0_r. auto.
  - replace (m + S k)%nat with (S m + k)%nat by lia.
    apply IH; [exact Hrest | lia].
Qed.

Lemma rising64_829 : rising64 829 0%float = true.
Proof. vm_compute. reflexivity. Qed.

Lemma velocityAfter64_829 : velocityAfter64 829 = throttleRest64.
Proof. vm_compute. reflexivity. Qed.

Lemma throttleRest64_fixed :
  updateVelocity64 throttleRest64 0%float throttleOnly = throttleRest64.
Proof. vm_compute. reflexivity. Qed.

Lemma velocityAfter64_rest (n : nat) :
  (829 <= n)%nat -> velocityAfter64 n = throttleRest64.
Proof.
  induction 1 as [|n Hn IH].
  - exact velocityAfter64_829.
  - cbn [velocityAfter64]. rewrite IH. exact throttleRest64_fixed.
Qed.

Lemma velocityAfter64_rising (n : nat) :
  (n < 829)%nat ->
  (velocityAfter64 n <? velocityAfter64 (S n))%float = true /\
  (velocityAfter64 n <=? velocityAfter64 (S n))%float = true /\
  (velocityAfter64 (S n) <? 6)%float = true /\
  (velocityAfter64 (S n) <=? MAX_SPEED64)%float = true.
Proof.
  intros Hn. exact (rising64_spec 829 0 rising64_829 n Hn).
Qed.

(** The sequence in the arithmetic of the code: it never falls, rises on
    each of the first 829 ticks, rests on [throttleRest64] from then on,
    and stays below 6 and so below the speed cap. *)
Lemma throttle_binary64 :
  (forall n, (velocityAfter64 n <=? velocityAfter64 (S n))%float = true) /\
  (forall n, (n < 829)%nat ->
     (velocityAfter64 n <? velocityAfter64 (S n))%float = true) /\
  (forall n, (829 <= n)%nat -> velocityAfter64 n = throttleRest64) /\
  (forall n, (velocityAfter64 n <? 6)%float = true) /\
  (forall n, (velocityAfter64 n <=? MAX_SPEED64)%float = true) /\
  (6 - throttleRest64 <? 2e-14)%float = true.
Proof.
  assert (Hrest : (throttleRest64 <=? throttleRest64)%float = true
                  /\ (throttleRest64 <? 6)%float = true
                  /\ (throttleRest64 <=? MAX_SPEED64)%float = true)
    by (vm_compute; auto).
  destruct Hrest as (Hr1 & Hr2 & Hr3).
  split; [|split; [|split; [|split; [|split]]]].
  - intros n. destruct (Nat.lt_ge_cases n 829) as [Hn|Hn].
    + now apply velocityAfter64_rising.
    + rewrite !velocityAfter64_rest by lia. exact Hr1.
  - intros n Hn. now apply velocityAfter64_rising.
  - exact velocityAfter64_rest.
  - intros [|n]; [vm_compute; reflexivity|].
    destruct (Nat.lt_ge_cases n 829) as [Hn|Hn].
    + now apply velocityAfter64_rising.
    + rewrite velocityAfter64_rest by lia. exact Hr2.
  - intros [|n]; [vm_compute; reflexivity|].
    destruct (Nat.lt_ge_cases n 829) as [Hn|Hn].
    + now apply velocityAfter64_rising.
    + rewrite velocityAfter64_rest by lia. exact Hr3.
  - vm_compute. reflexivity.
Qed.

(** C5, as the code has it: from rest on level ground with only the
    throttle held, a tick is always defined, the velocity never falls
    from one tick to the next, never exceeds [MAX_SPEED], and approaches
    [ACCELERATION * FRICTION / (1 - FRICTION)], which is 6: the friction
    factor multiplies the velocity after the acceleration is added.  On
    real numbers the sequence converges to 6.  On the binary64 numbers of
    the code it rises on each of the first 829 ticks and from then on
    rests on 5.999999999999984, less than 2e-14 below 6. *)
Theorem throttle_asymptote (h : R) (terrain : list Point.t) (bike : BikePhysics.t) :
  terrain <> [] -> flat h terrain ->
  BikePhysics.velocity bike = 0 -> BikePhysics.angle bike = 0 ->
  BikePhysics.angularVelocity bike = 0 ->
  let v := velocityAfter terrain throttleOnly bike in
  (forall n, physicsTicks n terrain throttleOnly bike <> None) /\
  (forall n, v n <= v (S n)) /\
  (forall n, v n <= MAX_SPEED) /\
  Un_cv v (ACCELERATION * FRICTION / (1 - FRICTION)) /\
  ACCELERATION * FRICTION / (1 - FRICTION) = 6 /\
  (forall n, (velocityAfter64 n <=? velocityAfter64 (S n))%float = true) /\
  (forall n, (n < 829)%nat ->
     (velocityAfter64 n <? velocityAfter64 (S n))%float = true) /\
  (forall n, (829 <= n)%nat -> velocityAfter64 n = throttleRest64) /\
  (forall n, (velocityAfter64 n <? 6)%float = true) /\
  (forall n, (velocityAfter64 n <=? MAX_SPEED64)%float = true) /\
  (6 - throttleRest64 <? 2e-14)%float = true.
Proof.
  intros Hne Hflat Hv Ha Hw v.
  assert (Hcf : forall n, v n = 6 * (1 - FRICTION ^ n)).
  { intros n. now apply (velocityAfter_throttle h). }
  assert (Hlim : ACCELERATION * FRICTION / (1 - FRICTION) = 6).
  { unfold ACCELERATION, FRICTION. replace (1 - 0.96) with 0.04 by lra. lra. }
  split; [|split; [|split; [|split; [|split; [exact Hlim|]]]]].
  - intros n.
    destruct (throttle_closed_form h terrain bike n Hne Hflat Hv Ha Hw)
      as (b & Hb & _).
    rewrite Hb. discriminate.
  - intros n. rewrite !Hcf. simpl.
    pose proof (FRICTION_pow_bounds n). unfold FRICTION in *. lra.
  - intros n. rewrite Hcf.
    pose proof (FRICTION_pow_bounds n). unfold MAX_SPEED. lra.
  - rewrite Hlim. intros eps Heps.
    destruct (pow_lt_1_zero FRICTION) with (y := eps / 6) as [N HN].
    + unfold FRICTION. rewrite Rabs_right; lra.
    + lra.
    + exists N. intros n Hn. unfold R_dist. rewrite Hcf.
      specialize (HN n Hn).
      pose proof (FRICTION_pow_bounds n) as Hp.
      rewrite Rabs_right in HN by lra.
      rewrite Rabs_left by lra. lra.
  - exact throttle_binary64.
Qed.

(** The asymptote of the claim of C5 is not reached: on level ground the
    velocity stays at or below 6, a quarter short of
    [ACCELERATION / (1 - FRICTION)]. *)
Lemma throttle_limit_not_6_25 :
  ACCELERATION / (1 - FRICTION) = 6.25 /\
  (forall n, velocityAfter levelGround throttleOnly startPose n <= 6) /\
  ~ Un_cv (velocityAfter levelGround throttleOnly startPose)
      (ACCELERATION / (1 - FRICTION)).
Proof.
  assert (Hcf : forall n,
    velocityAfter levelGround throttleOnly startPose n = 6 * (1 - FRICTION ^ n)).
  { intros n. apply (velocityAfter_throttle 756); auto with ground. }
  assert (Hq : ACCELERATION / (1 - FRICTION) = 6.25).
  { unfold ACCELERATION, FRICTION. replace (1 - 0.96) with 0.04 by lra. lra. }
  split; [exact Hq|]. split.
  - intros n. rewrite Hcf. pose proof (FRICTION_pow_bounds n). lra.
  - rewrite Hq. intros Hcv.
    destruct (Hcv 0.25) as [N HN]; [lra|].
    specialize (HN N (Nat.le_refl N)).
    unfold R_dist in HN. rewrite Hcf in HN.
    pose proof (FRICTION_pow_bounds N).
    rewrite Rabs_left in HN by lra. lra.
Qed.

(** ** The crash window at [PI] and at [0] *)

Lemma updateAngularVelocity_bounds (w d : R) (airborne : bool) (inputs : Inputs.t) :
  (w - 0.02 - Rabs d * 0.15 - 0.072) * 0.92
  <= updateAngularVelocity w d airborne inputs
  <= (w + Rabs d * 0.15 + 0.072) * 0.92.
Proof.
  unfold updateAngularVelocity, ROTATION_SPEED, AIR_ROTATION_BOOST, ANGULAR_DAMPING.
  pose proof (Rabs_pos d) as Hp.
  assert (Hd : - Rabs d <= d <= Rabs d).
  { unfold Rabs. destruct (Rcase_abs d); lra. }
  destruct (Inputs.nitro inputs), airborne, (JsMath.gtb (Rabs d) 0.5),
    (Inputs.left inputs), (Inputs.right inputs); simpl; lra.
Qed.

Lemma atan_nonpos (q : R) : q <= 0 -> atan q <= 0.
Proof.
  intros [H | ->].
  - pose proof (atan_increasing q 0 H) as Hi. rewrite atan_0 in Hi. lra.
  - rewrite atan_0. lra.
Qed.

Lemma atan_pos (q : R) : 0 < q -> 0 < atan q.
Proof.
  intros H. pose proof (atan_increasing 0 q H) as Hi. now rewrite atan_0 in Hi.
Qed.

(** The target angle seen from the inverted pose lies within a turn
    below [PI]. *)
Lemma atan2_behind (dy dx : R) :
  dx < 0 -> - (2 * PI) < JsMath.atan2 dy dx - PI <= 0.
Proof.
  intros Hdx. unfold JsMath.atan2.
  destruct (Rlt_dec 0 dx); [lra|].
  destruct (Rlt_dec dx 0); [|lra].
  pose proof (atan_bound (dy / dx)) as Hb.
  pose proof PI_RGT_0.
  pose proof (Rinv_neg dx Hdx) as Hinv.
  destruct (Rle_dec 0 dy) as [Hy|Hy].
  - assert (Hq : dy / dx <= 0) by (unfold Rdiv; nra).
    pose proof (atan_nonpos _ Hq). lra.
  - assert (Hq : 0 < dy / dx) by (unfold Rdiv; nra).
    pose proof (atan_pos _ Hq). lra.
Qed.

(** The target angle seen from the upright pose lies within a quarter
    turn of 0. *)
Lemma atan2_ahead (dy dx : R) :
  0 < dx -> - (PI / 2) < JsMath.atan2 dy dx < PI / 2.
Proof.
  intros Hdx. unfold JsMath.atan2.
  destruct (Rlt_dec 0 dx); [|lra].
  pose proof (atan_bound (dy / dx)). lra.
Qed.

Lemma headCollision_false_small (angle : R) :
  Rabs angle <= PI / 1.8 -> headCollision angle = false.
Proof.
  intros H. pose proof PI_gt_3 as Hpi.
  unfold headCollision. apply andb_false_iff. left. apply gtb_false.
  unfold normalizedAngle. rewrite rem_small; [exact H | lra |].
  unfold Rabs in H. destruct (Rcase_abs angle); lra.
Qed.

(** One tick of a pose with [angle = PI] and no angular velocity ends
    inside the window, on every ground and with every input. *)
Lemma integrate_inverted (bike : BikePhysics.t) (inputs : Inputs.t) (gr gf : R) :
  BikePhysics.angle bike = PI -> BikePhysics.angularVelocity bike = 0 ->
  headCollision (BikePhysics.angle (integrate bike inputs gr gf)) = true.
Proof.
  intros Ha Hw. pose proof PI_gt_3 as Hpi.
  unfold integrate. cbn [BikePhysics.angle]. rewrite Ha, Hw, cos_PI.
  set (d := JsMath.atan2 _ _ - PI).
  assert (Hd : - (2 * PI) < d <= 0).
  { apply atan2_behind. unfold WHEEL_BASE. lra. }
  pose proof (updateAngularVelocity_bounds 0 d (isAirborne bike gr) inputs) as Hb.
  set (w := updateAngularVelocity 0 d (isAirborne bike gr) inputs) in *.
  assert (Habs : Rabs d < 2 * PI) by (rewrite Rabs_left1; lra).
  pose proof (Rabs_pos d).
  apply headCollision_true.
  rewrite normalizedAngle_small by lra. lra.
Qed.

(** One tick of a pose with [angle = 0] and no angular velocity stays
    outside the window, on every ground and with every input. *)
Lemma integrate_upright_safe (bike : BikePhysics.t) (inputs : Inputs.t) (gr gf : R) :
  BikePhysics.angle bike = 0 -> BikePhysics.angularVelocity bike = 0 ->
  headCollision (BikePhysics.angle (integrate bike inputs gr gf)) = false.
Proof.
  intros Ha Hw. pose proof PI_gt_3 as Hpi.
  unfold integrate. cbn [BikePhysics.angle]. rewrite Ha, Hw, cos_0.
  set (d := JsMath.atan2 _ _ - 0).
  assert (Hd : - (PI / 2) < d < PI / 2).
  { unfold d. rewrite Rminus_0_r. apply atan2_ahead. unfold WHEEL_BASE. lra. }
  pose proof (updateAngularVelocity_bounds 0 d (isAirborne bike gr) inputs) as Hb.
  set (w := updateAngularVelocity 0 d (isAirborne bike gr) inputs) in *.
  assert (Habs : Rabs d < PI / 2).
  { unfold Rabs. destruct (Rcase_abs d); lra. }
  pose proof (Rabs_pos d).
  apply headCollision_false_small.
  unfold Rabs. destruct (Rcase_abs (0 + w)); lra.
Qed.

(** How a running tick on a non-empty profile leaves the run. *)
Lemma gameLoop_outcome (now : R) (s : App) :
  gameState s = PLAYING -> terrainRef s <> [] ->
  let s' := stateOf (gameLoop now s) in
  terrainRef s' = terrainRef s /\
  (gameState s' = WON \/
   (gameState s' = CRASHED /\
    headCollision (BikePhysics.angle (bikeRef s')) = true) \/
   (gameState s' = PLAYING /\
    headCollision (BikePhysics.angle (bikeRef s')) = false)).
Proof.
  intros Hg Hne.
  destruct (getTerrainHeight_defined (terrainRef s) (BikePhysics.x (bikeRef s)) Hne)
    as [gr Hr].
  destruct (getTerrainHeight_defined (terrainRef s) (frontX (bikeRef s)) Hne)
    as [gf Hf].
  unfold gameLoop. rewrite Hg. cbn [GameState_eqb negb].
  rewrite Hr. unfold frontX in Hf. rewrite Hf.
  destruct (headCollision _) eqn:Hc;
    destruct (index (terrainRef s) (len (terrainRef s) - 20)) as [p|];
    try destruct (JsMath.geb _ _); try destruct (drawTerrain _ _);
    cbn; rewrite ?Hc, ?Hg; auto.
Qed.

Lemma not_airborne (bike : BikePhysics.t) (h : R) :
  Rabs (BikePhysics.y bike - h) <= 10 -> isAirborne bike h = false.
Proof. intros H. now apply gtb_false. Qed.

(** The invariant of an upright run on level ground. *)
Lemma gameLoop_upright_level (now : R) (s : App) (h : R) :
  gameState s = PLAYING -> terrainRef s <> [] -> flat h (terrainRef s) ->
  BikePhysics.angle (bikeRef s) = 0 ->
  BikePhysics.angularVelocity (bikeRef s) = 0 ->
  Rabs (BikePhysics.y (bikeRef s) - h) <= 10 ->
  noRotation (inputsRef s) = true ->
  let s' := stateOf (gameLoop now s) in
  terrainRef s' = terrainRef s /\
  BikePhysics.angle (bikeRef s') = 0 /\
  BikePhysics.angularVelocity (bikeRef s') = 0 /\
  Rabs (BikePhysics.y (bikeRef s') - h) <= 10 /\
  (gameState s' = PLAYING \/ gameState s' = WON).
Proof.
  intros Hg Hne Hflat Ha Hw Hy Hrot s'.
  apply andb_true_iff in Hrot. destruct Hrot as [Hl Hr].
  apply negb_true_iff in Hl, Hr.
  destruct (gameLoop_integrates now s Hg Hne) as (gr & gf & Hgr & Hgf & Hb & _).
  rewrite (getTerrainHeight_flat h _ Hne Hflat) in Hgr.
  rewrite (getTerrainHeight_flat h _ Hne Hflat) in Hgf.
  injection Hgr as <-. injection Hgf as <-.
  fold s' in Hb.
  assert (Hair : Inputs.nitro (inputsRef s) && isAirborne (bikeRef s) h = false).
  { rewrite (not_airborne _ _ Hy). apply andb_false_r. }
  destruct (integrate_upright (bikeRef s) (inputsRef s) h Ha Hw Hl Hr Hair)
    as (Ha' & Hw' & Hy' & _).
  destruct (gameLoop_outcome now s Hg Hne) as (Ht & Hout).
  fold s' in Ht, Hout. rewrite Hb in *.
  rewrite Ha', Hw', Hy'.
  repeat split; auto.
  - rewrite Rminus_diag, Rabs_R0. lra.
  - destruct Hout as [H | [[_ H] | [H _]]]; auto.
    rewrite Ha' in H.
    rewrite headCollision_false_small in H; [discriminate|].
    rewrite Rabs_R0. pose proof PI_RGT_0. lra.
Qed.

Lemma ticks_upright_level (frames : list (Inputs.t * R)) (s : App) (h : R) :
  gameState s = PLAYING \/ gameState s = WON ->
  terrainRef s <> [] -> flat h (terrainRef s) ->
  BikePhysics.angle (bikeRef s) = 0 ->
  BikePhysics.angularVelocity (bikeRef s) = 0 ->
  Rabs (BikePhysics.y (bikeRef s) - h) <= 10 ->
  forallb (fun f => noRotation (fst f)) frames = true ->
  gameState (ticks frames s) = PLAYING \/ gameState (ticks frames s) = WON.
Proof.
  revert s.
  induction frames as [|[inputs now] frames IH];
    intros s Hg Hne Hflat Ha Hw Hy Hfr; simpl in *.
  - exact Hg.
  - apply andb_true_iff in Hfr. destruct Hfr as [Hrot Hfr].
    destruct Hg as [Hg | Hg].
    + destruct (gameLoop_upright_level now (setInputs inputs s) h)
        as (Ht & Ha' & Hw' & Hy' & Hg'); auto.
      apply IH; auto; rewrite Ht; auto.
    + rewrite gameLoop_not_playing
        by (cbn [setInputs gameState]; rewrite Hg; discriminate).
      apply IH; auto.
Qed.

(** C9, as the code has it.  A pose built with [angle = PI] and no angular
    velocity is inside the crash window after one tick, on every ground
    and with every input, and the run is left Crashed unless the same tick
    wins.  A pose with [angle = 0] and no angular velocity, standing on
    level ground, is never left Crashed, over any number of ticks, while
    left and right stay released. *)
Theorem crash_window_cases :
  (forall (now : R) (s : App),
     gameState s = PLAYING -> terrainRef s <> [] ->
     BikePhysics.angle (bikeRef s) = PI ->
     BikePhysics.angularVelocity (bikeRef s) = 0 ->
     let s' := stateOf (gameLoop now s) in
     headCollision (BikePhysics.angle (bikeRef s')) = true /\
     (gameState s' = CRASHED \/ gameState s' = WON)) /\
  (forall (frames : list (Inputs.t * R)) (s : App) (h : R),
     gameState s = PLAYING -> terrainRef s <> [] -> flat h (terrainRef s) ->
     BikePhysics.angle (bikeRef s) = 0 ->
     BikePhysics.angularVelocity (bikeRef s) = 0 ->
     Rabs (BikePhysics.y (bikeRef s) - h) <= 10 ->
     forallb (fun f => noRotation (fst f)) frames = true ->
     gameState (ticks frames s) <> CRASHED).
Proof.
  split.
  - intros now s Hg Hne Ha Hw s'.
    destruct (gameLoop_integrates now s Hg Hne) as (gr & gf & _ & _ & Hb & _).
    fold s' in Hb.
    assert (Hc : headCollision (BikePhysics.angle (bikeRef s')) = true).
    { rewrite Hb. now apply integrate_inverted. }
    split; [exact Hc|].
    destruct (gameLoop_outcome now s Hg Hne) as (_ & Hout).
    fold s' in Hout.
    destruct Hout as [H | [[H _] | [_ H]]]; auto. congruence.
  - intros frames s h Hg Hne Hflat Ha Hw Hy Hfr.
    destruct (ticks_upright_level frames s h) as [H | H]; auto;
      rewrite H; discriminate.
Qed.

(** ** A ramp turns a resting bike over *)

Lemma steepRamp_finish :
  index steepRamp (len steepRamp - 20) = Some (Point.mk 2050 756).
Proof.
  unfold steepRamp. rewrite profile_finish by lia.
  do 2 f_equal. simpl. lra.
Qed.

Lemma steepRamp_height (x : R) :
  1500 <= x < 1600 ->
  getTerrainHeight x steepRamp = Some (100 + 9.3 * (x - 1500)).
Proof.
  intros Hx.
  assert (H30 : nth_error steepRamp 30 = Some (Point.mk 1500 100)).
  { apply profile_nth_at; [lia | simpl; lra | reflexivity]. }
  assert (H31 : nth_error steepRamp 31 = Some (Point.mk 1550 565)).
  { apply profile_nth_at; [lia | simpl; lra | reflexivity]. }
  assert (H32 : nth_error steepRamp 32 = Some (Point.mk 1600 1030)).
  { apply profile_nth_at; [lia | simpl; lra | reflexivity]. }
  destruct (Rlt_dec x 1550) as [Hlt|Hge].
  - rewrite (getTerrainHeight_segment steepRamp 30 _ _ x
               (profile_uniform rampY 61) H30 H31) by (simpl; lra).
    unfold interpolate. simpl. f_equal. lra.
  - rewrite (getTerrainHeight_segment steepRamp 31 _ _ x
               (profile_uniform rampY 61) H31 H32) by (simpl; lra).
    unfold interpolate. simpl. f_equal. lra.
Qed.

Lemma atan2_slope (m dx : R) : 0 < dx -> JsMath.atan2 (m * dx) dx = atan m.
Proof.
  intros H. unfold JsMath.atan2. destruct (Rlt_dec 0 dx); [|lra].
  f_equal. field. lra.
Qed.

(** The slope angle of the ramp. *)
Lemma atan_ramp : PI / 2 - 0.2 < atan 9.3 < PI / 2 - 0.1.
Proof.
  pose proof PI_gt_3 as Hpi.
  assert (Hinv : atan (/ 9.3) = PI / 2 - atan 9.3) by (apply atan_inv; lra).
  assert (Hlo : 0.1 < atan (/ 9.3)).
  { rewrite <- (atan_tan 0.1) at 1 by lra.
    apply atan_increasing. unfold tan.
    assert (Hc : 0 < cos 0.1) by (apply cos_gt_0; lra).
    pose proof (sin_lt_x 0.1 ltac:(lra)) as Hs.
    destruct (pre_cos_bound 0.1 0 ltac:(lra) ltac:(lra)) as [Hcb _].
    unfold cos_approx, cos_term in Hcb. simpl in Hcb.
    apply (Rmult_lt_reg_r (cos 0.1)); [exact Hc|].
    unfold Rdiv. rewrite Rmult_assoc, Rinv_l by lra. lra. }
  assert (Hhi : atan (/ 9.3) < 0.2).
  { rewrite <- (atan_tan 0.2) by lra.
    apply atan_increasing. unfold tan.
    assert (Hc : 0 < cos 0.2) by (apply cos_gt_0; lra).
    pose proof (COS_bound 0.2) as [_ Hc1].
    destruct (pre_sin_bound 0.2 0 ltac:(lra) ltac:(lra)) as [Hsb _].
    unfold sin_approx, sin_term in Hsb. simpl in Hsb.
    apply (Rmult_lt_reg_r (cos 0.2)); [exact Hc|].
    unfold Rdiv. rewrite Rmult_assoc, Rinv_l by lra. lra. }
  lra.
Qed.

Lemma updateVelocity_released (v a : R) :
  - MAX_SPEED <= (v + sin a * GRAVITY) * FRICTION <= MAX_SPEED ->
  updateVelocity v a Inputs.released = (v + sin a * GRAVITY) * FRICTION.
Proof.
  intros H. unfold updateVelocity. simpl. unfold currentMaxSpeed. simpl.
  clamp_inside. reflexivity.
Qed.

Lemma updateAngularVelocity_released (w d : R) (airborne : bool) :
  updateAngularVelocity w d airborne Inputs.released =
  (w + d * 0.15) * ANGULAR_DAMPING.
Proof.
  unfold updateAngularVelocity.
  destruct (JsMath.gtb (Rabs d) 0.5); reflexivity.
Qed.

(** A frame with the controls released, with both wheels on the ramp and
    the bike short of a quarter turn. *)
Lemma ramp_frame (s : App) :
  gameState s = PLAYING -> terrainRef s = steepRamp ->
  1500 <= BikePhysics.x (bikeRef s) <= 1520 ->
  0 <= BikePhysics.angle (bikeRef s) < PI / 2 ->
  0 <= BikePhysics.velocity (bikeRef s) <= 2 ->
  let s' := frame s in
  gameState s' =
    (if headCollision (BikePhysics.angle (bikeRef s')) then CRASHED else PLAYING) /\
  terrainRef s' = steepRamp /\
  BikePhysics.angularVelocity (bikeRef s') =
    (BikePhysics.angularVelocity (bikeRef s)
     + (atan 9.3 - BikePhysics.angle (bikeRef s)) * 0.15) * 0.92 /\
  BikePhysics.angle (bikeRef s') =
    BikePhysics.angle (bikeRef s) + BikePhysics.angularVelocity (bikeRef s') /\
  0 <= BikePhysics.velocity (bikeRef s')
    <= BikePhysics.velocity (bikeRef s) + 0.22 /\
  BikePhysics.x (bikeRef s) <= BikePhysics.x (bikeRef s')
    <= BikePhysics.x (bikeRef s) + BikePhysics.velocity (bikeRef s) + 0.22.
Proof.
  intros Hg Ht Hx Ha Hv s'.
  pose proof PI_gt_3 as Hpi.
  set (b := bikeRef s) in *.
  assert (Hcos : 0 < cos (BikePhysics.angle b) <= 1).
  { split; [apply cos_gt_0; lra | apply COS_bound]. }
  assert (Hsin : 0 <= sin (BikePhysics.angle b) <= 1).
  { split; [apply sin_ge_0; lra | apply SIN_bound]. }
  assert (Hr : getTerrainHeight (BikePhysics.x b) steepRamp
               = Some (100 + 9.3 * (BikePhysics.x b - 1500))).
  { apply steepRamp_height. lra. }
  assert (Hf : getTerrainHeight (frontX b) steepRamp
               = Some (100 + 9.3 * (frontX b - 1500))).
  { apply steepRamp_height. unfold frontX, WHEEL_BASE. nra. }
  assert (Hs : s' = afterTick 0 (setInputs Inputs.released s)
                      (100 + 9.3 * (BikePhysics.x b - 1500))
                      (100 + 9.3 * (frontX b - 1500)) (Point.mk 2050 756)).
  { unfold s', frame. rewrite (gameLoop_playing 0 (setInputs Inputs.released s)
                          (100 + 9.3 * (BikePhysics.x b - 1500))
                          (100 + 9.3 * (frontX b - 1500)) (Point.mk 2050 756));
      cbn [setInputs gameState terrainRef bikeRef]; auto.
    - now rewrite Ht.
    - now rewrite Ht.
    - rewrite Ht. apply steepRamp_finish. }
  assert (Hb : bikeRef s' =
               integrate b Inputs.released (100 + 9.3 * (BikePhysics.x b - 1500))
                 (100 + 9.3 * (frontX b - 1500))).
  { rewrite Hs, afterTick_bike. reflexivity. }
  assert (Hvel : BikePhysics.velocity (bikeRef s') =
                 (BikePhysics.velocity b + sin (BikePhysics.angle b) * GRAVITY)
                 * FRICTION).
  { rewrite Hb. cbn [integrate BikePhysics.velocity].
    apply updateVelocity_released. unfold MAX_SPEED, GRAVITY, FRICTION. nra. }
  assert (Hw : BikePhysics.angularVelocity (bikeRef s') =
               (BikePhysics.angularVelocity b
                + (atan 9.3 - BikePhysics.angle b) * 0.15) * 0.92).
  { rewrite Hb. cbn [integrate BikePhysics.angularVelocity].
    rewrite updateAngularVelocity_released. unfold ANGULAR_DAMPING.
    replace (100 + 9.3 * (frontX b - 1500) - (100 + 9.3 * (BikePhysics.x b - 1500)))
      with (9.3 * (BikePhysics.x b + cos (BikePhysics.angle b) * WHEEL_BASE
                   - BikePhysics.x b))
      by (unfold frontX; lra).
    rewrite atan2_slope; [reflexivity|]. unfold WHEEL_BASE. lra. }
  assert (Hang : BikePhysics.angle (bikeRef s') =
                 BikePhysics.angle b + BikePhysics.angularVelocity (bikeRef s')).
  { rewrite Hb. reflexivity. }
  assert (Hxx : BikePhysics.x (bikeRef s') =
                BikePhysics.x b
                + cos (BikePhysics.angle b) * BikePhysics.velocity (bikeRef s')).
  { rewrite Hb. reflexivity. }
  assert (Hvb : 0 <= BikePhysics.velocity (bikeRef s')
                <= BikePhysics.velocity b + 0.22).
  { rewrite Hvel. unfold GRAVITY, FRICTION. nra. }
  assert (Hxb : BikePhysics.x b <= BikePhysics.x (bikeRef s')
                <= BikePhysics.x b + BikePhysics.velocity b + 0.22).
  { rewrite Hxx. nra. }
  repeat split; try tauto.
  - rewrite Hs at 1.
    rewrite (afterTick_gameState 0 (setInputs Inputs.released s) _ _ _ Hg).
    cbn [setInputs bikeRef inputsRef]. fold b. rewrite <- Hb.
    assert (Hge : JsMath.geb (BikePhysics.x (bikeRef s')) 2050 = false)
      by (apply geb_false; lra).
    cbn [Point.x]. now rewrite Hge.
  - rewrite Hs. unfold afterTick.
    destruct (headCollision _), (JsMath.geb _ _); cbn; exact Ht.
Qed.

Lemma ticks_released_5 (s : App) :
  ticks (repeat (Inputs.released, 0) 5) s =
  frame (frame (frame (frame (frame s)))).
Proof. unfold frame. cbn [repeat ticks]. reflexivity. Qed.

(** Five frames on the ramp, from rest, with every control released: the
    stability spring alone carries the angle into the crash window. *)
Lemma ramp_five_frames :
  gameState (ticks (repeat (Inputs.released, 0) 5) restingOnRamp) = CRASHED.
Proof.
  pose proof PI_gt_3 as Hpi. pose proof PI_4 as Hpi4. pose proof atan_ramp as Htau.
  rewrite ticks_released_5.
  set (s0 := restingOnRamp).
  assert (Hg0 : gameState s0 = PLAYING) by reflexivity.
  assert (Ht0 : terrainRef s0 = steepRamp) by reflexivity.
  assert (Hx0 : BikePhysics.x (bikeRef s0) = 1501) by reflexivity.
  assert (Ha0 : BikePhysics.angle (bikeRef s0) = 0) by reflexivity.
  assert (Hw0 : BikePhysics.angularVelocity (bikeRef s0) = 0) by reflexivity.
  assert (Hv0 : BikePhysics.velocity (bikeRef s0) = 0) by reflexivity.
  destruct (ramp_frame s0 Hg0 Ht0) as (Hg1 & Ht1 & Hw1 & Ha1 & Hv1 & Hx1);
    try lra.
  set (s1 := frame s0) in *.
  rewrite headCollision_false_small in Hg1 by (rewrite Rabs_right; lra).
  destruct (ramp_frame s1 Hg1 Ht1) as (Hg2 & Ht2 & Hw2 & Ha2 & Hv2 & Hx2);
    try lra.
  set (s2 := frame s1) in *.
  rewrite headCollision_false_small in Hg2 by (rewrite Rabs_right; lra).
  destruct (ramp_frame s2 Hg2 Ht2) as (Hg3 & Ht3 & Hw3 & Ha3 & Hv3 & Hx3);
    try lra.
  set (s3 := frame s2) in *.
  rewrite headCollision_false_small in Hg3 by (rewrite Rabs_right; lra).
  destruct (ramp_frame s3 Hg3 Ht3) as (Hg4 & Ht4 & Hw4 & Ha4 & Hv4 & Hx4);
    try lra.
  set (s4 := frame s3) in *.
  rewrite headCollision_false_small in Hg4 by (rewrite Rabs_right; lra).
  destruct (ramp_frame s4 Hg4 Ht4) as (Hg5 & Ht5 & Hw5 & Ha5 & Hv5 & Hx5);
    try lra.
  set (s5 := frame s4) in *.
  assert (Hc : headCollision (BikePhysics.angle (bikeRef s5)) = true).
  { apply headCollision_true. rewrite normalizedAngle_small; lra. }
  now rewrite Hc in Hg5.
Qed.

(** The inverted pose that is turning back leaves the window in one
    tick. *)
Lemma invertedTurning_tick :
  gameState (stateOf (gameLoop 0 invertedTurning)) = PLAYING /\
  headCollision (BikePhysics.angle (bikeRef (stateOf (gameLoop 0 invertedTurning))))
  = false.
Proof.
  pose proof PI_gt_3 as Hpi. pose proof PI_4 as Hpi4.
  assert (Ht : stateOf (gameLoop 0 invertedTurning) =
               afterTick 0 invertedTurning 756 756 (Point.mk 1050 756)).
  { apply gameLoop_playing; try reflexivity.
    - apply getTerrainHeight_flat; auto with ground.
    - apply getTerrainHeight_flat; auto with ground.
    - apply levelGround_finish. }
  assert (Hi : integrate (bikeRef invertedTurning) (inputsRef invertedTurning) 756 756
               = BikePhysics.mk 100 756 0 (PI + -2 * 0.92) (-2 * 0.92) 0).
  { unfold integrate, invertedTurning, running. simpl.
    rewrite cos_PI, (updateVelocity_rest PI sin_PI).
    unfold WHEEL_BASE.
    replace (100 + -1 * 70 - 100) with (-70) by lra.
    rewrite Rminus_diag, atan2_zero_neg by lra.
    rewrite Rminus_diag, updateAngularVelocity_released.
    unfold ANGULAR_DAMPING.
    f_equal; try lra. now destruct (negb _ && _). }
  rewrite Ht. cbn [stateOf].
  rewrite afterTick_bike, Hi.
  rewrite (afterTick_gameState 0 invertedTurning 756 756 _ eq_refl), Hi.
  cbn [BikePhysics.angle BikePhysics.x Point.x].
  assert (Hge : JsMath.geb 100 1050 = false) by (apply geb_false; lra).
  assert (Hc : headCollision (PI + -2 * 0.92) = false).
  { apply headCollision_false_small. rewrite Rabs_right; lra. }
  now rewrite Hge, Hc.
Qed.

(** The claim of C9 fails on both counts.  With [angle = PI] a pose that
    is turning back is outside the window after one tick and the run goes
    on.  With [angle = 0] a pose at rest on the ground at the foot of a
    ramp is turned into the window within five ticks, with left, right
    and every other control released throughout. *)
Lemma crash_window_cases_fail :
  (gameState invertedTurning = PLAYING /\
   BikePhysics.angle (bikeRef invertedTurning) = PI /\
   gameState (stateOf (gameLoop 0 invertedTurning)) <> CRASHED) /\
  (gameState restingOnRamp = PLAYING /\
   BikePhysics.angle (bikeRef restingOnRamp) = 0 /\
   BikePhysics.angularVelocity (bikeRef restingOnRamp) = 0 /\
   BikePhysics.velocity (bikeRef restingOnRamp) = 0 /\
   getTerrainHeight (BikePhysics.x (bikeRef restingOnRamp)) steepRamp
     = Some (BikePhysics.y (bikeRef restingOnRamp)) /\
   forallb (fun f => noRotation (fst f)) (repeat (Inputs.released, 0) 5) = true /\
   gameState (ticks (repeat (Inputs.released, 0) 5) restingOnRamp) = CRASHED).
Proof.
  split.
  - repeat split; try reflexivity.
    destruct invertedTurning_tick as [H _]. rewrite H. discriminate.
  - repeat split; try reflexivity.
    + rewrite steepRamp_height by (simpl; lra). simpl. f_equal. lra.
    + exact ramp_five_frames.
Qed.

(** ** Instances *)

Lemma gameLoop_level_bike (now : R) (s : App) (h : R) :
  gameState s = PLAYING -> terrainRef s <> [] -> flat h (terrainRef s) ->
  bikeRef (stateOf (gameLoop now s)) = integrate (bikeRef s) (inputsRef s) h h.
Proof.
  intros Hg Hne Hflat.
  destruct (gameLoop_integrates now s Hg Hne) as (gr & gf & Hr & Hf & Hb & _).
  rewrite (getTerrainHeight_flat h _ Hne Hflat) in Hr.
  rewrite (getTerrainHeight_flat h _ Hne Hflat) in Hf.
  injection Hr as <-. injection Hf as <-. exact Hb.
Qed.

Lemma atFinish_tick_x (now : R) :
  BikePhysics.x (bikeRef (stateOf (gameLoop now atFinish))) = 1050.
Proof.
  rewrite (gameLoop_level_bike now atFinish 756 eq_refl levelGround_nonempty
             levelGround_flat).
  unfold integrate, atFinish, running. cbn.
  rewrite (updateVelocity_rest 0 sin_0), cos_0. lra.
Qed.

(** The win test reads the pose after the position update: a bike placed
    on the finish line at rest with the brake held rolls back by 0.384
    and the run goes on. *)
Lemma win_test_after_integration :
  BikePhysics.x (bikeRef brakingAtFinish) = 1050 /\
  BikePhysics.x (bikeRef (stateOf (gameLoop 0 brakingAtFinish))) = 1050 - 0.384 /\
  gameState (stateOf (gameLoop 0 brakingAtFinish)) = PLAYING.
Proof.
  assert (Ht : stateOf (gameLoop 0 brakingAtFinish) =
               afterTick 0 brakingAtFinish 756 756 (Point.mk 1050 756)).
  { apply gameLoop_playing; try reflexivity.
    - apply getTerrainHeight_flat; auto with ground.
    - apply getTerrainHeight_flat; auto with ground.
    - apply levelGround_finish. }
  assert (Hv : updateVelocity 0 0 (inputsRef brakingAtFinish) = - 0.384).
  { unfold updateVelocity. simpl. rewrite sin_0.
    unfold currentMaxSpeed, MAX_SPEED, BRAKE_FORCE, FRICTION, GRAVITY. simpl.
    clamp_inside. lra. }
  assert (Hx : BikePhysics.x
                 (integrate (bikeRef brakingAtFinish) (inputsRef brakingAtFinish)
                    756 756) = 1050 - 0.384).
  { cbn [integrate BikePhysics.x].
    change (BikePhysics.velocity (bikeRef brakingAtFinish)) with 0.
    change (BikePhysics.angle (bikeRef brakingAtFinish)) with 0.
    change (BikePhysics.x (bikeRef brakingAtFinish)) with 1050.
    rewrite Hv, cos_0. lra. }
  split; [reflexivity|].
  rewrite Ht. cbn [stateOf].
  rewrite afterTick_bike, (afterTick_gameState 0 brakingAtFinish 756 756 _ eq_refl).
  rewrite Hx. split; [reflexivity|].
  assert (Hge : JsMath.geb (1050 - 0.384) (Point.x (Point.mk 1050 756)) = false)
    by (apply geb_false; simpl; lra).
  rewrite Hge, integrate_upright_safe; reflexivity.
Qed.

Lemma speed_clamp_witness :
  gameState atStart = PLAYING /\ terrainRef atStart <> [] /\
  let v := BikePhysics.velocity (bikeRef (stateOf (gameLoop 0 atStart))) in
  - MAX_SPEED <= v <= currentMaxSpeed (inputsRef atStart) /\
  MAX_SPEED = 28 /\
  currentMaxSpeed (inputsRef atStart) =
    (if Inputs.nitro (inputsRef atStart) then 60 else 28).
Proof.
  split; [reflexivity|]. split; [discriminate|].
  apply (speed_clamp 0 atStart); [reflexivity | discriminate].
Defined.

Lemma win_postcondition_witness :
  gameState atFinish = PLAYING /\
  index (terrainRef atFinish) (len (terrainRef atFinish) - 20)
    = Some (Point.mk 1050 756) /\
  Point.x (Point.mk 1050 756)
    <= BikePhysics.x (bikeRef (stateOf (gameLoop 0 atFinish))) /\
  exists s', stateOf (gameLoop 0 atFinish) = s' /\
    (gameLoop 0 atFinish = Returned s' <->
     drawTerrain (bikeRef s') (terrainRef s') <> None) /\
    gameState s' = WON /\
    coins s' = (coins atFinish + (50 + 25 * currentLevel atFinish))%Z /\
    unlockedLevels s' =
      Z.max (unlockedLevels atFinish) (currentLevel atFinish + 1) /\
    storage s' =
      Some (mkSaved (Z.max (unlockedLevels atFinish) (currentLevel atFinish + 1))
              (coins atFinish + (50 + 25 * currentLevel atFinish))%Z
              (ownedBikes atFinish) (selectedBikeId atFinish)).
Proof.
  assert (Hx : Point.x (Point.mk 1050 756)
               <= BikePhysics.x (bikeRef (stateOf (gameLoop 0 atFinish)))).
  { rewrite atFinish_tick_x. simpl. lra. }
  split; [reflexivity|]. split; [exact levelGround_finish|]. split; [exact Hx|].
  exact (win_postcondition 0 atFinish (Point.mk 1050 756) eq_refl
           levelGround_finish Hx).
Defined.

Lemma level_gate_witness :
  (5 > unlockedLevels atStart)%Z /\ startLevel 0 5 atStart = Returned atStart.
Proof.
  split; [reflexivity|]. apply level_gate. reflexivity.
Defined.

Lemma crash_detection_witness :
  gameState invertedAtFinish = PLAYING /\
  index (terrainRef invertedAtFinish) (len (terrainRef invertedAtFinish) - 20)
    = Some (Point.mk 1050 756) /\
  let s' := stateOf (gameLoop 0 invertedAtFinish) in
  let a := normalizedAngle (BikePhysics.angle (bikeRef s')) in
  0 <= a < 2 * PI /\
  (gameState s' = CRASHED <->
   PI / 1.8 < a < PI * 1.5 /\
   BikePhysics.x (bikeRef s') < Point.x (Point.mk 1050 756)) /\
  (Point.x (Point.mk 1050 756) <= BikePhysics.x (bikeRef s') ->
   gameState s' = WON).
Proof.
  split; [reflexivity|]. split; [exact levelGround_finish|].
  exact (crash_detection 0 invertedAtFinish (Point.mk 1050 756) eq_refl
           levelGround_finish).
Defined.

Lemma outcome_terminal_witness :
  let es := [Frame 1; Control Throttle true; Goto MENU; Frame 2;
             Goto LEVEL_SELECT; ToggleAudio] in
  (gameState crashedRun = CRASHED \/ gameState crashedRun = WON) /\
  forallb (fun e => negb (startsRun e)) es = true /\
  let s' := run es crashedRun in
  (forall now, gameLoop now s' = Returned s') /\
  bikeRef s' = bikeRef crashedRun /\
  terrainRef s' = terrainRef crashedRun /\
  gameState s' <> PLAYING /\
  (gameState s' = CRASHED \/ gameState s' = WON ->
   gameState s' = gameState crashedRun).
Proof.
  intros es.
  split; [left; reflexivity|]. split; [reflexivity|].
  apply (outcome_terminal crashedRun es); [left; reflexivity | reflexivity].
Defined.

Lemma throttle_asymptote_witness :
  levelGround <> [] /\ flat 756 levelGround /\
  BikePhysics.velocity startPose = 0 /\ BikePhysics.angle startPose = 0 /\
  BikePhysics.angularVelocity startPose = 0 /\
  let v := velocityAfter levelGround throttleOnly startPose in
  (forall n, physicsTicks n levelGround throttleOnly startPose <> None) /\
  (forall n, v n <= v (S n)) /\
  (forall n, v n <= MAX_SPEED) /\
  Un_cv v (ACCELERATION * FRICTION / (1 - FRICTION)) /\
  ACCELERATION * FRICTION / (1 - FRICTION) = 6 /\
  (forall n, (velocityAfter64 n <=? velocityAfter64 (S n))%float = true) /\
  (forall n, (n < 829)%nat ->
     (velocityAfter64 n <? velocityAfter64 (S n))%float = true) /\
  (forall n, (829 <= n)%nat -> velocityAfter64 n = throttleRest64) /\
  (forall n, (velocityAfter64 n <? 6)%float = true) /\
  (forall n, (velocityAfter64 n <=? MAX_SPEED64)%float = true) /\
  (6 - throttleRest64 <? 2e-14)%float = true.
Proof.
  split; [exact levelGround_nonempty|]. split; [exact levelGround_flat|].
  split; [reflexivity|]. split; [reflexivity|]. split; [reflexivity|].
  exact (throttle_asymptote 756 levelGround startPose levelGround_nonempty
           levelGround_flat eq_refl eq_refl eq_refl).
Defined.

Lemma sampler_contract_witness :
  let first := Point.mk (INR 0 * segmentLength) (rampY 0) in
  let last := Point.mk (INR 60 * segmentLength) (rampY 60) in
  uniform steepRamp /\
  nth_error steepRamp 0 = Some first /\
  nth_error steepRamp (length steepRamp - 1) = Some last /\
  (forall x, x < 0 -> getTerrainHeight x steepRamp = Some (Point.y first)) /\
  (forall x, Point.x last <= x ->
     getTerrainHeight x steepRamp = Some (Point.y last)) /\
  (forall x, 0 <= x < Point.x last ->
     exists k p1 p2,
       nth_error steepRamp k = Some p1 /\ nth_error steepRamp (S k) = Some p2 /\
       Point.x p1 <= x < Point.x p2 /\
       getTerrainHeight x steepRamp = Some (interpolate p1 p2 x)) /\
  (forall k p, nth_error steepRamp k = Some p ->
     getTerrainHeight (Point.x p) steepRamp = Some (Point.y p) /\
     forall eps, 0 < eps ->
       exists delta, 0 < delta /\
         forall x, Rabs (x - Point.x p) < delta ->
           exists h, getTerrainHeight x steepRamp = Some h /\
                     Rabs (h - Point.y p) < eps).
Proof.
  intros first last.
  split; [exact (profile_uniform rampY 61)|].
  split; [reflexivity|]. split; [reflexivity|].
  exact (sampler_contract steepRamp first last (profile_uniform rampY 61)
           eq_refl eq_refl).
Defined.

Lemma generateTerrain_deterministic_witness :
  5500 = 4000 + 1500 /\ 777 = 700 + 77 /\
  List.length (generateTerrain 5500 777) =
  List.length (generateTerrain (4000 + 1500) (700 + 77)) /\
  forall i : nat,
    option_map Point.x (nth_error (generateTerrain 5500 777) i) =
    option_map Point.x (nth_error (generateTerrain (4000 + 1500) (700 + 77)) i) /\
    option_map Point.y (nth_error (generateTerrain 5500 777) i) =
    option_map Point.y (nth_error (generateTerrain (4000 + 1500) (700 + 77)) i).
Proof.
  assert (H1 : 5500 = 4000 + 1500) by lra.
  assert (H2 : 777 = 700 + 77) by lra.
  split; [exact H1|]. split; [exact H2|].
  exact (generateTerrain_deterministic 5500 777 (4000 + 1500) (700 + 77) H1 H2).
Defined.

Lemma crash_window_cases_witness :
  (gameState invertedAtFinish = PLAYING /\ terrainRef invertedAtFinish <> [] /\
   BikePhysics.angle (bikeRef invertedAtFinish) = PI /\
   BikePhysics.angularVelocity (bikeRef invertedAtFinish) = 0 /\
   headCollision
     (BikePhysics.angle (bikeRef (stateOf (gameLoop 0 invertedAtFinish)))) = true) /\
  (let frames := [(throttleOnly, 1); (Inputs.released, 2)] in
   gameState atStart = PLAYING /\ flat 756 (terrainRef atStart) /\
   BikePhysics.angle (bikeRef atStart) = 0 /\
   BikePhysics.angularVelocity (bikeRef atStart) = 0 /\
   Rabs (BikePhysics.y (bikeRef atStart) - 756) <= 10 /\
   forallb (fun f => noRotation (fst f)) frames = true /\
   gameState (ticks frames atStart) <> CRASHED).
Proof.
  assert (Hy : Rabs (BikePhysics.y (bikeRef atStart) - 756) <= 10).
  { simpl. rewrite Rminus_diag, Rabs_R0. lra. }
  split.
  - split; [reflexivity|]. split; [discriminate|].
    split; [reflexivity|]. split; [reflexivity|].
    apply (proj1 crash_window_cases 0 invertedAtFinish);
      [reflexivity | discriminate | reflexivity | reflexivity].
  - intros frames.
    split; [reflexivity|]. split; [exact levelGround_flat|].
    split; [reflexivity|]. split; [reflexivity|]. split; [exact Hy|].
    split; [reflexivity|].
    apply (proj2 crash_window_cases frames atStart 756);
      [reflexivity | discriminate | exact levelGround_flat | reflexivity
      | reflexivity | exact Hy | reflexivity].
Defined.

(** * Further properties of the code *)

(** ** Terrain generator: count, spacing, height band, damped ends *)

Lemma ceil_spec (r : R) : IZR (JsMath.ceil r) - 1 < r <= IZR (JsMath.ceil r).
Proof.
  unfold JsMath.ceil. rewrite opp_IZR.
  destruct (base_Int_part (- r)). lra.
Qed.

Lemma ceil_unique (r : R) (z : Z) : IZR z - 1 < r <= IZR z -> JsMath.ceil r = z.
Proof.
  intros H. unfold JsMath.ceil.
  rewrite <- (Int_part_spec (- r) (- z)); [lia|].
  rewrite opp_IZR. lra.
Qed.

Lemma ceil_IZR (z : Z) : JsMath.ceil (IZR z) = z.
Proof. apply ceil_unique. lra. Qed.

(** X1: the profile has [ceil (length / 50) + 1] samples, none when that
    number is not positive; it is empty exactly for [length <= -50]. *)
Theorem generateTerrain_count (length seed : R) :
  len (generateTerrain length seed) =
    Z.max 0 (JsMath.ceil (length / segmentLength) + 1) /\
  (generateTerrain length seed = [] <-> length <= -50).
Proof.
  assert (Hlen : len (generateTerrain length seed) =
                 Z.max 0 (JsMath.ceil (length / segmentLength) + 1)).
  { unfold len. rewrite generateTerrain_length. lia. }
  split; [exact Hlen|].
  destruct (ceil_spec (length / segmentLength)) as [Hlo Hhi].
  unfold segmentLength in *.
  split.
  - intros He. rewrite He in Hlen. unfold len in Hlen. simpl in Hlen.
    assert (Hc : (JsMath.ceil (length / 50) <= -1)%Z) by lia.
    apply IZR_le in Hc. lra.
  - intros Hl.
    assert (Hc : (JsMath.ceil (length / 50) < 0)%Z).
    { apply lt_IZR. lra. }
    destruct (generateTerrain length seed) eqn:E; [reflexivity|].
    unfold len in Hlen. cbn [List.length] in Hlen. lia.
Qed.

(** X2: the x of the sample at position [i] is [50 * i]: the samples start
    at 0 and are spaced by the segment length. *)
Theorem generateTerrain_spacing (length seed : R) :
  map Point.x (generateTerrain length seed) =
  map (fun i => INR i * 50) (seq 0 (List.length (generateTerrain length seed))).
Proof.
  apply nth_error_ext. intros i.
  rewrite !nth_error_map, nth_error_seq.
  destruct (Nat.ltb_spec i (List.length (generateTerrain length seed))) as [Hi|Hi].
  - destruct (nth_error (generateTerrain length seed) i) as [p|] eqn:Hp.
    + simpl. f_equal. apply (generateTerrain_uniform length seed i p Hp).
    + apply nth_error_None in Hp. lia.
  - apply nth_error_None in Hi. now rewrite Hi.
Qed.

Lemma pow5_bounds (s : R) : -1 <= s <= 1 -> -1 <= s ^ 5 <= 1.
Proof.
  intros Hs.
  assert (H2 : 0 <= s * s <= 1) by nra.
  assert (H4 : 0 <= (s * s) * (s * s) <= 1) by nra.
  replace (s ^ 5) with (s * ((s * s) * (s * s))) by ring.
  nra.
Qed.

(** The shape of a generated sample: the baseline minus a noise between
    -100 and 500, scaled by a damping factor between 0 and 1 that the two
    end windows bound.  Neither clamp changes it. *)
Lemma terrainSample_shape (totalSegments : Z) (seed : R) (i : Z) :
  (0 <= i <= totalSegments)%Z ->
  exists n f : R,
    -100 <= n <= 500 /\ 0 <= f <= 1 /\
    ((i < 20)%Z -> f <= IZR i / 20) /\
    ((i > totalSegments - 20)%Z -> f <= IZR (totalSegments - i) / 20) /\
    Point.y (terrainSample totalSegments seed i) = 756 - n * f.
Proof.
  intros [Hi0 Hits].
  unfold terrainSample. cbv zeta. cbn [Point.y]. unfold CANVAS_HEIGHT.
  set (s1 := sin (IZR i * 0.1 + seed)).
  set (s2 := sin (IZR i * 0.15 + seed * 3)).
  pose proof (SIN_bound (IZR i * 0.1 + seed)) as H1. fold s1 in H1.
  pose proof (pow5_bounds s2 (SIN_bound _)) as H2.
  set (noise2 := if JsMath.gtb (s2 ^ 5) 0 then s2 ^ 5 * 400 else 0).
  assert (Hn2 : 0 <= noise2 <= 400).
  { unfold noise2. destruct (JsMath.gtb (s2 ^ 5) 0) eqn:E; [|lra].
    apply gtb_true in E. lra. }
  set (n := s1 * 100 + noise2).
  assert (Hn : -100 <= n <= 500) by (unfold n; lra).
  assert (Hi : 0 <= IZR i) by (apply IZR_le in Hi0; exact Hi0).
  assert (Hti : 0 <= IZR (totalSegments - i)) by (apply IZR_le; lia).
  set (f1 := if (i <? 20)%Z then IZR i / 20 else 1).
  set (f2 := if (i >? totalSegments - 20)%Z
             then IZR (totalSegments - i) / 20 else 1).
  assert (Hf1 : 0 <= f1 <= 1).
  { unfold f1. destruct (Z.ltb_spec i 20) as [H|H]; [|lra].
    apply IZR_lt in H. lra. }
  assert (Hf2 : 0 <= f2 <= 1).
  { unfold f2. destruct (Z.gtb_spec i (totalSegments - 20)) as [H|H]; [|lra].
    assert (H' : (totalSegments - i < 20)%Z) by lia.
    apply IZR_lt in H'. lra. }
  exists n, (f1 * f2).
  assert (Hf : 0 <= f1 * f2 <= 1) by nra.
  assert (Hnf : -100 <= n * (f1 * f2) <= 500) by nra.
  split; [exact Hn|]. split; [exact Hf|].
  split; [|split].
  - intros H. unfold f1. destruct (Z.ltb_spec i 20); [|lia]. nra.
  - intros H. unfold f2.
    destruct (Z.gtb_spec i (totalSegments - 20)); [|lia]. nra.
  - assert (Hy : (if (i >? totalSegments - 20)%Z
                  then (if (i <? 20)%Z then n * (IZR i / 20) else n)
                       * (IZR (totalSegments - i) / 20)
                  else if (i <? 20)%Z then n * (IZR i / 20) else n)
                 = n * (f1 * f2)).
    { unfold f1, f2.
      destruct (i >? totalSegments - 20)%Z, (i <? 20)%Z; lra. }
    fold n. rewrite Hy.
    assert (E1 : JsMath.gtb (1080 * 0.7 - n * (f1 * f2)) (1080 - 50) = false)
      by (apply gtb_false; lra).
    rewrite E1.
    assert (E2 : JsMath.ltb (1080 * 0.7 - n * (f1 * f2)) 100 = false)
      by (apply ltb_false; lra).
    rewrite E2. lra.
Qed.

Lemma generateTerrain_sample (length seed : R) (i : nat) (p : Point.t) :
  nth_error (generateTerrain length seed) i = Some p ->
  (0 <= Z.of_nat i <= JsMath.ceil (length / segmentLength))%Z /\
  p = terrainSample (JsMath.ceil (length / segmentLength)) seed (Z.of_nat i).
Proof.
  intros Hp.
  assert (Hi : (i < List.length (generateTerrain length seed))%nat).
  { apply nth_error_Some. congruence. }
  rewrite generateTerrain_length in Hi.
  rewrite generateTerrain_nth in Hp by exact Hi.
  injection Hp as <-. split; [lia | reflexivity].
Qed.

(** X3: every sample of a generated profile lies between 256 and 856, so
    inside the band from 100 to [CANVAS_HEIGHT - 50]: neither of the two
    clamps of the generator ever changes a height. *)
Theorem generateTerrain_band (length seed : R) :
  Forall (fun p => 256 <= Point.y p <= 856 /\
                   100 <= Point.y p <= CANVAS_HEIGHT - 50)
    (generateTerrain length seed).
Proof.
  apply Forall_forall. intros p Hin.
  apply In_nth_error in Hin. destruct Hin as [i Hi].
  destruct (generateTerrain_sample length seed i p Hi) as [Hr ->].
  destruct (terrainSample_shape _ seed _ Hr) as (n & f & Hn & Hf & _ & _ & ->).
  unfold CANVAS_HEIGHT. nra.
Qed.

(** X4: a non-empty generated profile starts at x = 0 and ends at
    x = 50 * ceil (length / 50), and both its first and its last sample
    lie exactly on the baseline 756. *)
Theorem generateTerrain_ends (length seed : R) :
  -50 < length ->
  exists first last,
    nth_error (generateTerrain length seed) 0 = Some first /\
    nth_error (generateTerrain length seed)
      (List.length (generateTerrain length seed) - 1) = Some last /\
    Point.x first = 0 /\ Point.y first = 756 /\
    Point.x last = 50 * IZR (JsMath.ceil (length / segmentLength)) /\
    Point.y last = 756.
Proof.
  intros Hl.
  set (ts := JsMath.ceil (length / segmentLength)).
  assert (Hts : (0 <= ts)%Z).
  { destruct (ceil_spec (length / segmentLength)) as [_ Hhi]. fold ts in Hhi.
    unfold segmentLength in Hhi.
    assert (H : IZR (-1) < IZR ts) by (simpl; lra).
    apply lt_IZR in H. lia. }
  rewrite generateTerrain_length. fold ts.
  replace (Z.to_nat (ts + 1) - 1)%nat with (Z.to_nat ts) by lia.
  rewrite (generateTerrain_nth length seed 0) by (fold ts; lia).
  rewrite (generateTerrain_nth length seed (Z.to_nat ts)) by (fold ts; lia).
  fold ts. rewrite Z2Nat.id by exact Hts. change (Z.of_nat 0) with 0%Z.
  exists (terrainSample ts seed 0), (terrainSample ts seed ts).
  split; [reflexivity|]. split; [reflexivity|].
  destruct (terrainSample_shape ts seed 0 ltac:(lia))
    as (n0 & f0 & Hn0 & Hf0 & Hd0 & _ & Hy0).
  destruct (terrainSample_shape ts seed ts ltac:(lia))
    as (n1 & f1 & Hn1 & Hf1 & _ & Hd1 & Hy1).
  specialize (Hd0 ltac:(lia)). specialize (Hd1 ltac:(lia)).
  replace (ts - ts)%Z with 0%Z in Hd1 by lia.
  assert (Hz0 : f0 = 0) by (simpl in Hd0; lra).
  assert (Hz1 : f1 = 0) by (simpl in Hd1; lra).
  rewrite Hy0, Hy1, Hz0, Hz1.
  unfold terrainSample. cbn [Point.x]. unfold segmentLength.
  repeat split; lra.
Qed.

(** X5: the two end windows damp the course: within the first twenty
    samples the height is within [25 * i] of the baseline at position
    [i], and within the last twenty it is within [25 * j] of it at the
    [j]-th position from the end. *)
Theorem generateTerrain_damped (length seed : R) (i : nat) (p : Point.t) :
  nth_error (generateTerrain length seed) i = Some p ->
  ((i < 20)%nat -> Rabs (Point.y p - 756) <= 25 * INR i) /\
  ((List.length (generateTerrain length seed) - 1 - i < 20)%nat ->
   Rabs (Point.y p - 756)
   <= 25 * INR (List.length (generateTerrain length seed) - 1 - i)).
Proof.
  intros Hp.
  destruct (generateTerrain_sample length seed i p Hp) as [Hr ->].
  set (ts := JsMath.ceil (length / segmentLength)) in *.
  destruct (terrainSample_shape ts seed _ Hr) as (n & f & Hn & Hf & Hd0 & Hd1 & ->).
  assert (Habs : Rabs (756 - n * f - 756) <= 500 * f).
  { unfold Rabs. destruct (Rcase_abs (756 - n * f - 756)); nra. }
  split.
  - intros Hi. specialize (Hd0 ltac:(lia)).
    rewrite <- INR_IZR_INZ in Hd0. lra.
  - rewrite generateTerrain_length. fold ts. intros Hi.
    specialize (Hd1 ltac:(lia)).
    replace (Z.to_nat (ts + 1) - 1 - i)%nat with (Z.to_nat (ts - Z.of_nat i))
      by lia.
    rewrite INR_IZR_INZ, Z2Nat.id by lia. lra.
Qed.

Lemma course_4000 (seed : R) (i : nat) :
  (i < 81)%nat ->
  nth_error (generateTerrain 4000 seed) i =
  Some (terrainSample 80 seed (Z.of_nat i)).
Proof.
  intros Hi.
  assert (Hc : JsMath.ceil (4000 / segmentLength) = 80%Z).
  { replace (4000 / segmentLength) with (IZR 80)
      by (unfold segmentLength; simpl; lra).
    apply ceil_IZR. }
  rewrite generateTerrain_nth by (rewrite Hc; lia).
  now rewrite Hc.
Qed.

Lemma generateTerrain_ends_witness :
  -50 < 4000 /\
  exists first last,
    nth_error (generateTerrain 4000 777) 0 = Some first /\
    nth_error (generateTerrain 4000 777)
      (List.length (generateTerrain 4000 777) - 1) = Some last /\
    Point.x first = 0 /\ Point.y first = 756 /\
    Point.x last = 50 * IZR (JsMath.ceil (4000 / segmentLength)) /\
    Point.y last = 756.
Proof.
  assert (H : -50 < 4000) by lra.
  split; [exact H|]. exact (generateTerrain_ends 4000 777 H).
Defined.

Lemma generateTerrain_damped_witness :
  nth_error (generateTerrain 4000 777) 3 = Some (terrainSample 80 777 3) /\
  ((3 < 20)%nat -> Rabs (Point.y (terrainSample 80 777 3) - 756) <= 25 * INR 3) /\
  ((List.length (generateTerrain 4000 777) - 1 - 3 < 20)%nat ->
   Rabs (Point.y (terrainSample 80 777 3) - 756)
   <= 25 * INR (List.length (generateTerrain 4000 777) - 1 - 3)).
Proof.
  assert (H : nth_error (generateTerrain 4000 777) 3
              = Some (terrainSample 80 777 3)).
  { apply (course_4000 777 3). lia. }
  split; [exact H|].
  exact (generateTerrain_damped 4000 777 3 (terrainSample 80 777 3) H).
Defined.

(** ** Terrain sampler: heights stay inside the band of the samples *)

Lemma getTerrainHeight_convex (terrain : list Point.t) (lo hi x h : R) :
  uniform terrain ->
  Forall (fun p => lo <= Point.y p <= hi) terrain ->
  getTerrainHeight x terrain = Some h ->
  lo <= h <= hi.
Proof.
  intros Hu Hband Hh. rewrite Forall_forall in Hband.
  assert (Hy : forall i p, index terrain i = Some p -> lo <= Point.y p <= hi).
  { intros i p Hp. apply Hband. now apply (index_In terrain i). }
  unfold getTerrainHeight in Hh.
  destruct (JsMath.ltb x 0) eqn:Hx.
  - destruct (index terrain 0) as [p|] eqn:Hp; [|discriminate].
    injection Hh as <-. now apply (Hy 0%Z).
  - apply ltb_false in Hx.
    destruct (_ >=? _)%Z.
    + destruct (index terrain (len terrain - 1)) as [p|] eqn:Hp; [|discriminate].
      injection Hh as <-. now apply (Hy (len terrain - 1)%Z).
    + set (idx := JsMath.floor (x / segmentLength)) in *.
      destruct (index terrain idx) as [p1|] eqn:H1; [|discriminate].
      destruct (index terrain (idx + 1)) as [p2|] eqn:H2; [|discriminate].
      injection Hh as <-.
      pose proof (Hy _ _ H1) as Hb1. pose proof (Hy _ _ H2) as Hb2.
      assert (Hidx : (0 <= idx)%Z).
      { apply floor_nonneg. unfold segmentLength. lra. }
      rewrite index_nonneg in H1 by exact Hidx.
      pose proof (Hu _ _ H1) as Hx1.
      rewrite INR_IZR_INZ, Z2Nat.id in Hx1 by exact Hidx.
      destruct (floor_spec (x / segmentLength)) as [Hlo Hhi]. fold idx in Hlo, Hhi.
      unfold segmentLength in *.
      set (t := (x - Point.x p1) / 50).
      assert (Ht : 0 <= t < 1) by (unfold t; lra).
      nra.
Qed.

(** X6: on a profile with the spacing invariant the sampled height never
    leaves the band its samples lie in: interpolation does not overshoot
    and there is no extrapolation beyond either end. *)
Theorem getTerrainHeight_within (terrain : list Point.t) (lo hi x h : R) :
  uniform terrain ->
  Forall (fun p => lo <= Point.y p <= hi) terrain ->
  getTerrainHeight x terrain = Some h ->
  lo <= h <= hi.
Proof. exact (getTerrainHeight_convex terrain lo hi x h). Qed.

Lemma steepRamp_band : Forall (fun p => 100 <= Point.y p <= 1030) steepRamp.
Proof.
  apply Forall_forall. intros p Hp.
  unfold steepRamp, profile in Hp. apply in_map_iff in Hp.
  destruct Hp as (k & <- & _). cbn [Point.y]. unfold rampY.
  destruct (k <? 20)%nat; [lra|]. destruct (k <=? 30)%nat; [lra|].
  destruct (k =? 31)%nat; [lra|]. destruct (k <=? 40)%nat; lra.
Qed.

Lemma getTerrainHeight_within_witness :
  uniform steepRamp /\
  Forall (fun p => 100 <= Point.y p <= 1030) steepRamp /\
  getTerrainHeight 1510 steepRamp = Some (100 + 9.3 * (1510 - 1500)) /\
  100 <= 100 + 9.3 * (1510 - 1500) <= 1030.
Proof.
  assert (H : getTerrainHeight 1510 steepRamp = Some (100 + 9.3 * (1510 - 1500))).
  { apply steepRamp_height. lra. }
  split; [exact (profile_uniform rampY 61)|].
  split; [exact steepRamp_band|]. split; [exact H|].
  exact (getTerrainHeight_within steepRamp 100 1030 1510 _
           (profile_uniform rampY 61) steepRamp_band H).
Defined.

Lemma generateTerrain_sample_band (length seed : R) :
  Forall (fun p => 256 <= Point.y p <= 856) (generateTerrain length seed).
Proof.
  apply Forall_forall. intros p Hin.
  apply In_nth_error in Hin. destruct Hin as [i Hi].
  destruct (generateTerrain_sample length seed i p Hi) as [Hr ->].
  destruct (terrainSample_shape _ seed _ Hr) as (n & f & Hn & Hf & _ & _ & ->).
  nra.
Qed.

Lemma generateTerrain_nonempty (length seed : R) :
  -50 < length -> generateTerrain length seed <> [].
Proof.
  intros Hl He.
  assert (Hlen : List.length (generateTerrain length seed) = 0%nat)
    by now rewrite He.
  rewrite generateTerrain_length in Hlen.
  destruct (ceil_spec (length / segmentLength)) as [_ Hhi].
  unfold segmentLength in *.
  assert (H : (JsMath.ceil (length / 50) <= -1)%Z) by lia.
  apply IZR_le in H. lra.
Qed.

(** X7: over a generated course of length above -50 the sampler is
    defined at every x and the ground lies between 256 and 856. *)
Theorem generated_ground_band (length seed x : R) :
  -50 < length ->
  exists h, getTerrainHeight x (generateTerrain length seed) = Some h /\
            256 <= h <= 856.
Proof.
  intros Hl.
  destruct (getTerrainHeight_defined (generateTerrain length seed) x
              (generateTerrain_nonempty length seed Hl)) as [h Hh].
  exists h. split; [exact Hh|].
  exact (getTerrainHeight_convex _ 256 856 x h
           (generateTerrain_uniform length seed)
           (generateTerrain_sample_band length seed) Hh).
Qed.

Lemma generated_ground_band_witness :
  -50 < 5500 /\
  exists h, getTerrainHeight 100 (generateTerrain 5500 777) = Some h /\
            256 <= h <= 856.
Proof.
  assert (H : -50 < 5500) by lra.
  split; [exact H|]. exact (generated_ground_band 5500 777 100 H).
Defined.

(** ** Run start: the course of a level, the start pose, the edge *)

Lemma level_ceil (levelId : Z) :
  JsMath.ceil (levelLength levelId / segmentLength) = (30 * levelId + 80)%Z.
Proof.
  unfold levelLength, segmentLength.
  replace (IZR (4000 + levelId * 1500) / 50) with (IZR (30 * levelId + 80)).
  - apply ceil_IZR.
  - rewrite !plus_IZR, !mult_IZR. simpl. lra.
Qed.

Lemma levelTerrain_length (levelId : Z) :
  List.length (levelTerrain levelId) = Z.to_nat (30 * levelId + 81).
Proof.
  unfold levelTerrain. rewrite generateTerrain_length, level_ceil.
  f_equal. lia.
Qed.

Lemma levelTerrain_nonempty (levelId : Z) :
  (-2 <= levelId)%Z -> levelTerrain levelId <> [].
Proof.
  intros Hl He.
  assert (H : List.length (levelTerrain levelId) = 0%nat) by now rewrite He.
  rewrite levelTerrain_length in H. lia.
Qed.

Lemma levelTerrain_empty (levelId : Z) :
  (levelId <= -3)%Z -> levelTerrain levelId = [].
Proof.
  intros Hl. apply length_zero_iff_nil.
  rewrite levelTerrain_length. lia.
Qed.

Lemma levelTerrain_finish (levelId : Z) :
  (-2 <= levelId)%Z ->
  index (levelTerrain levelId) (len (levelTerrain levelId) - 20) =
  Some (terrainSample (30 * levelId + 80) (levelSeed levelId)
          (30 * levelId + 61)).
Proof.
  intros Hl. unfold len. rewrite levelTerrain_length.
  replace (Z.of_nat (Z.to_nat (30 * levelId + 81)) - 20)%Z
    with (Z.of_nat (Z.to_nat (30 * levelId + 61))) by lia.
  rewrite index_of_nat. unfold levelTerrain.
  rewrite generateTerrain_nth by (rewrite level_ceil; lia).
  rewrite level_ceil, Z2Nat.id by lia. reflexivity.
Qed.

(** X8: the course of level [levelId], for [levelId >= -2], has
    [30 * levelId + 81] samples, and its finish line, the 20th sample from
    the end, stands at x = [1500 * levelId + 3050]. *)
Theorem level_course_geometry (levelId : Z) :
  (-2 <= levelId)%Z ->
  len (levelTerrain levelId) = (30 * levelId + 81)%Z /\
  exists finish,
    index (levelTerrain levelId) (len (levelTerrain levelId) - 20)
      = Some finish /\
    Point.x finish = IZR (1500 * levelId + 3050).
Proof.
  intros Hl. split.
  - unfold len. rewrite levelTerrain_length. lia.
  - eexists. split; [apply levelTerrain_finish; exact Hl|].
    unfold terrainSample. cbn [Point.x]. unfold segmentLength.
    rewrite !plus_IZR, !mult_IZR. simpl. lra.
Qed.

Lemma level_course_geometry_witness :
  (-2 <= 1)%Z /\
  len (levelTerrain 1) = (30 * 1 + 81)%Z /\
  exists finish,
    index (levelTerrain 1) (len (levelTerrain 1) - 20) = Some finish /\
    Point.x finish = IZR (1500 * 1 + 3050).
Proof.
  assert (H : (-2 <= 1)%Z) by lia.
  split; [exact H|]. exact (level_course_geometry 1 H).
Defined.

Lemma startLevel_accepted (now : R) (levelId : Z) (s : App) (h : R) :
  (levelId <= unlockedLevels s)%Z ->
  getTerrainHeight 100 (levelTerrain levelId) = Some h ->
  startLevel now levelId s =
  Returned
    (mkApp (unlockedLevels s) (coins s) (ownedBikes s) (selectedBikeId s)
       PLAYING levelId 0 (isMuted s) (BikePhysics.mk 100 h 0 0 0 0)
       Inputs.released (levelTerrain levelId) now (storage s)).
Proof.
  intros Hl Hh. unfold startLevel.
  destruct (Z.gtb_spec levelId (unlockedLevels s)); [lia|].
  cbn [setTerrain terrainRef].
  fold (levelLength levelId) (levelSeed levelId).
  fold (levelTerrain levelId). rewrite Hh. reflexivity.
Qed.

Lemma startLevel_starts_aux (now : R) (levelId : Z) (s : App) :
  (-2 <= levelId <= unlockedLevels s)%Z ->
  exists h,
    getTerrainHeight 100 (levelTerrain levelId) = Some h /\
    startLevel now levelId s =
    Returned
      (mkApp (unlockedLevels s) (coins s) (ownedBikes s) (selectedBikeId s)
         PLAYING levelId 0 (isMuted s) (BikePhysics.mk 100 h 0 0 0 0)
         Inputs.released (levelTerrain levelId) now (storage s)).
Proof.
  intros [Hlo Hhi].
  destruct (getTerrainHeight_defined (levelTerrain levelId) 100
              (levelTerrain_nonempty levelId Hlo)) as [h Hh].
  exists h. split; [exact Hh|]. now apply startLevel_accepted.
Qed.

(** X9: [startLevel] on an unlocked level [levelId >= -2] returns with the
    game running on the course of the level: the pose at x = 100 at rest
    and upright on the ground, which lies between 256 and 856, the
    controls released, the timer at 0; the coins, the unlocked count, the
    bikes, the mute flag and the storage are the ones before the call. *)
Theorem startLevel_starts (now : R) (levelId : Z) (s : App) :
  (-2 <= levelId <= unlockedLevels s)%Z ->
  exists h,
    getTerrainHeight 100 (levelTerrain levelId) = Some h /\
    256 <= h <= 856 /\
    isAirborne (BikePhysics.mk 100 h 0 0 0 0) h = false /\
    startLevel now levelId s =
    Returned
      (mkApp (unlockedLevels s) (coins s) (ownedBikes s) (selectedBikeId s)
         PLAYING levelId 0 (isMuted s) (BikePhysics.mk 100 h 0 0 0 0)
         Inputs.released (levelTerrain levelId) now (storage s)).
Proof.
  intros [Hlo Hhi].
  destruct (getTerrainHeight_defined (levelTerrain levelId) 100
              (levelTerrain_nonempty levelId Hlo)) as [h Hh].
  exists h. split; [exact Hh|]. split; [|split].
  - exact (getTerrainHeight_convex _ 256 856 100 h
             (generateTerrain_uniform _ _) (generateTerrain_sample_band _ _) Hh).
  - apply not_airborne. cbn [BikePhysics.y].
    rewrite Rminus_diag, Rabs_R0. lra.
  - now apply startLevel_accepted.
Qed.

Lemma startLevel_starts_witness :
  (-2 <= 1 <= unlockedLevels atStart)%Z /\
  exists h,
    getTerrainHeight 100 (levelTerrain 1) = Some h /\
    256 <= h <= 856 /\
    isAirborne (BikePhysics.mk 100 h 0 0 0 0) h = false /\
    startLevel 5 1 atStart =
    Returned
      (mkApp (unlockedLevels atStart) (coins atStart) (ownedBikes atStart)
         (selectedBikeId atStart) PLAYING 1 0 (isMuted atStart)
         (BikePhysics.mk 100 h 0 0 0 0) Inputs.released (levelTerrain 1) 5
         (storage atStart)).
Proof.
  assert (H : (-2 <= 1 <= unlockedLevels atStart)%Z) by (simpl; lia).
  split; [exact H|]. exact (startLevel_starts 5 1 atStart H).
Defined.

(** X10: on a level id of -3 or below that passes the gate the generated
    course is empty: [startLevel] stores the empty course and then fails
    on the height read at x = 100.  The game state, the pose, the controls
    and the current level are the ones before the call. *)
Theorem startLevel_empty_course (now : R) (levelId : Z) (s : App) :
  (levelId <= -3)%Z -> (levelId <= unlockedLevels s)%Z ->
  startLevel now levelId s = Threw (setTerrain [] s).
Proof.
  intros Hl Hu. unfold startLevel.
  destruct (Z.gtb_spec levelId (unlockedLevels s)); [lia|].
  cbn [setTerrain terrainRef].
  fold (levelLength levelId) (levelSeed levelId).
  fold (levelTerrain levelId).
  rewrite (levelTerrain_empty levelId Hl), getTerrainHeight_empty.
  reflexivity.
Qed.

Lemma startLevel_empty_course_witness :
  (-3 <= -3)%Z /\ (-3 <= unlockedLevels atStart)%Z /\
  startLevel 0 (-3) atStart = Threw (setTerrain [] atStart).
Proof.
  assert (H1 : (-3 <= -3)%Z) by lia.
  assert (H2 : (-3 <= unlockedLevels atStart)%Z) by (simpl; lia).
  split; [exact H1|]. split; [exact H2|].
  exact (startLevel_empty_course 0 (-3) atStart H1 H2).
Defined.

(** ** The tick: failure, pose, speed *)

Lemma gameLoop_bike_cases (now : R) (s : App) :
  bikeRef (stateOf (gameLoop now s)) = bikeRef s \/
  exists gr gf,
    getTerrainHeight (BikePhysics.x (bikeRef s)) (terrainRef s) = Some gr /\
    bikeRef (stateOf (gameLoop now s)) =
    integrate (bikeRef s) (inputsRef s) gr gf.
Proof.
  destruct (GameState_eqb (gameState s) PLAYING) eqn:Hg.
  - assert (Hp : gameState s = PLAYING) by (destruct (gameState s); auto; discriminate).
    destruct (terrainRef s) eqn:Ht.
    + left. unfold gameLoop. rewrite Hp, Ht. cbn [GameState_eqb negb].
      now rewrite getTerrainHeight_empty.
    + right.
      assert (Hne : terrainRef s <> []) by (rewrite Ht; discriminate).
      destruct (gameLoop_integrates now s Hp Hne) as (gr & gf & Hr & _ & Hb & _).
      rewrite <- Ht. eauto.
  - left. rewrite gameLoop_not_playing; [reflexivity|].
    intros E. rewrite E in Hg. discriminate.
Qed.

(** X12: a running tick on a non-empty course leaves the pose on the
    ground under the x it had before the move: both branches of the
    suspension test store that height.  The rider lean is never written. *)
Theorem gameLoop_snaps_to_ground (now : R) (s : App) :
  gameState s = PLAYING -> terrainRef s <> [] ->
  getTerrainHeight (BikePhysics.x (bikeRef s)) (terrainRef s) =
    Some (BikePhysics.y (bikeRef (stateOf (gameLoop now s)))) /\
  BikePhysics.lean (bikeRef (stateOf (gameLoop now s))) =
    BikePhysics.lean (bikeRef s).
Proof.
  intros Hg Hne.
  destruct (gameLoop_integrates now s Hg Hne) as (gr & gf & Hr & _ & Hb & _).
  rewrite Hb, Hr. unfold integrate. cbn [BikePhysics.y BikePhysics.lean].
  split; [|reflexivity]. now destruct (negb _ && _).
Qed.

Lemma gameLoop_snaps_to_ground_witness :
  gameState atStart = PLAYING /\ terrainRef atStart <> [] /\
  getTerrainHeight (BikePhysics.x (bikeRef atStart)) (terrainRef atStart) =
    Some (BikePhysics.y (bikeRef (stateOf (gameLoop 0 atStart)))) /\
  BikePhysics.lean (bikeRef (stateOf (gameLoop 0 atStart))) =
    BikePhysics.lean (bikeRef atStart).
Proof.
  split; [reflexivity|]. split; [discriminate|].
  apply (gameLoop_snaps_to_ground 0 atStart); [reflexivity | discriminate].
Defined.

Lemma gameLoop_moves_at_most (now : R) (s : App) :
  Rabs (BikePhysics.x (bikeRef (stateOf (gameLoop now s)))
        - BikePhysics.x (bikeRef s))
  <= currentMaxSpeed (inputsRef s) <= 60.
Proof.
  assert (Hcap : 28 <= currentMaxSpeed (inputsRef s) <= 60).
  { unfold currentMaxSpeed, MAX_SPEED, MAX_NITRO_SPEED.
    destruct (Inputs.nitro (inputsRef s)); lra. }
  split; [|lra].
  destruct (gameLoop_bike_cases now s) as [-> | (gr & gf & _ & ->)].
  - rewrite Rminus_diag, Rabs_R0. lra.
  - unfold integrate. cbn [BikePhysics.x].
    pose proof (updateVelocity_clamped (BikePhysics.velocity (bikeRef s))
                  (BikePhysics.angle (bikeRef s)) (inputsRef s)) as Hv.
    pose proof (COS_bound (BikePhysics.angle (bikeRef s))) as Hc.
    unfold MAX_SPEED in Hv.
    set (v := updateVelocity _ _ _) in *.
    set (c := cos _) in *.
    replace (BikePhysics.x (bikeRef s) + c * v - BikePhysics.x (bikeRef s))
      with (c * v) by lra.
    unfold Rabs. destruct (Rcase_abs (c * v)); nra.
Qed.

(** X13: a tick moves the bike by at most the speed cap in force: 28 a
    tick, 60 with nitro held. *)
Theorem gameLoop_displacement (now : R) (s : App) :
  Rabs (BikePhysics.x (bikeRef (stateOf (gameLoop now s)))
        - BikePhysics.x (bikeRef s))
  <= currentMaxSpeed (inputsRef s) <= 60.
Proof. exact (gameLoop_moves_at_most now s). Qed.


Lemma updateVelocity_cruising (v a : R) (inputs : Inputs.t) :
  cruising v ->
  cruising (updateVelocity v a inputs) /\
  (Inputs.nitro inputs = false -> v <= 11.28 ->
   updateVelocity v a inputs <= 11.28) /\
  (Inputs.nitro inputs = true \/ v <= 28 ->
   updateVelocity v a inputs = accelerate v a inputs).
Proof.
  unfold cruising. intros Hv.
  pose proof (SIN_bound a) as Hs.
  unfold updateVelocity, accelerate, currentMaxSpeed, MAX_SPEED,
    MAX_NITRO_SPEED, GRAVITY, ACCELERATION, NITRO_ACCELERATION,
    BRAKE_FORCE, FRICTION.
  destruct (Inputs.throttle inputs), (Inputs.nitro inputs),
    (Inputs.brake inputs); cbv iota;
    repeat match goal with
    | |- context [JsMath.gtb ?x ?y] =>
        let E := fresh "E" in
        destruct (JsMath.gtb x y) eqn:E;
        [apply gtb_true in E | apply gtb_false in E]
    | |- context [JsMath.ltb ?x ?y] =>
        let E := fresh "E" in
        destruct (JsMath.ltb x y) eqn:E;
        [apply ltb_true in E | apply ltb_false in E]
    end;
    (split; [lra|]; split;
     [intros Hn Hv'; try discriminate; lra
     | intros [Hn | Hv']; try discriminate; lra]).
Qed.

Lemma ticks_bike_invariant (P : BikePhysics.t -> Prop) :
  (forall b inputs gr gf, P b -> P (integrate b inputs gr gf)) ->
  forall frames s, P (bikeRef s) -> P (bikeRef (ticks frames s)).
Proof.
  intros Hstep frames.
  induction frames as [|[inputs now] frames IH]; intros s Hs; simpl.
  - exact Hs.
  - apply IH.
    destruct (gameLoop_bike_cases now (setInputs inputs s))
      as [-> | (gr & gf & _ & ->)].
    + exact Hs.
    + now apply Hstep.
Qed.

(** X14: the speeds between -14.88 and 30.48 are closed under the tick,
    for every terrain and every state of the controls, over any number
    of frames: from rest the bike never reaches either clamp, neither
    [MAX_SPEED] in reverse nor [MAX_NITRO_SPEED] forward. *)
Theorem velocity_envelope (frames : list (Inputs.t * R)) (s : App) :
  cruising (BikePhysics.velocity (bikeRef s)) ->
  cruising (BikePhysics.velocity (bikeRef (ticks frames s))) /\
  - MAX_SPEED < -14.88 /\ 30.48 < MAX_NITRO_SPEED.
Proof.
  intros Hv. split; [|unfold MAX_SPEED, MAX_NITRO_SPEED; lra].
  apply (ticks_bike_invariant (fun b => cruising (BikePhysics.velocity b)));
    [|exact Hv].
  intros b inputs gr gf Hb. unfold integrate. cbn [BikePhysics.velocity].
  now apply updateVelocity_cruising.
Qed.

Lemma velocity_envelope_witness :
  let frames := [(throttleOnly, 1); (Inputs.mk true false false false true, 2)] in
  cruising (BikePhysics.velocity (bikeRef atStart)) /\
  cruising (BikePhysics.velocity (bikeRef (ticks frames atStart))) /\
  - MAX_SPEED < -14.88 /\ 30.48 < MAX_NITRO_SPEED.
Proof.
  intros frames.
  assert (H : cruising (BikePhysics.velocity (bikeRef atStart))).
  { unfold cruising. simpl. lra. }
  split; [exact H|]. exact (velocity_envelope frames atStart H).
Defined.


(** ** The crash test as a function of the angle *)

Lemma trunc_opp (q : R) : JsMath.trunc (- q) = (- JsMath.trunc q)%Z.
Proof.
  unfold JsMath.trunc, JsMath.ceil, JsMath.floor.
  destruct (Rle_dec 0 (- q)) as [H1|H1], (Rle_dec 0 q) as [H2|H2].
  - assert (Hq : q = 0) by lra. subst q. rewrite Ropp_0.
    change 0 with (IZR 0). rewrite <- (Int_part_spec (IZR 0) 0); [reflexivity|].
    simpl. lra.
  - lia.
  - rewrite Ropp_involutive. lia.
  - lra.
Qed.

Lemma rem_opp (a b : R) : JsMath.rem (- a) b = - JsMath.rem a b.
Proof.
  unfold JsMath.rem.
  replace (- a / b) with (- (a / b)) by (unfold Rdiv; ring).
  rewrite trunc_opp, opp_IZR. ring.
Qed.

(** X15: the crash test is even in the angle: a rotation and the same
    rotation the other way are judged alike. *)
Theorem headCollision_even (angle : R) :
  headCollision (- angle) = headCollision angle.
Proof.
  unfold headCollision, normalizedAngle.
  now rewrite rem_opp, Rabs_Ropp.
Qed.

(** X16: the crash test is not a function of the orientation: for a turn
    [theta] between a quarter turn and [PI / 1.8], the angle [- theta] is
    outside the window while [2 PI - theta], the same orientation, is
    inside.  The remainder keeps the sign of the angle before the
    absolute value is taken. *)
Theorem headCollision_not_periodic (theta : R) :
  PI / 2 < theta <= PI / 1.8 ->
  headCollision (- theta) = false /\ headCollision (2 * PI - theta) = true.
Proof.
  intros Ht. pose proof PI_gt_3 as Hpi. split.
  - apply headCollision_false_small. rewrite Rabs_Ropp, Rabs_right; lra.
  - apply headCollision_true. rewrite normalizedAngle_small; lra.
Qed.

Lemma headCollision_not_periodic_witness :
  PI / 2 < PI / 1.8 <= PI / 1.8 /\
  headCollision (- (PI / 1.8)) = false /\
  headCollision (2 * PI - PI / 1.8) = true.
Proof.
  assert (H : PI / 2 < PI / 1.8 <= PI / 1.8).
  { pose proof PI_RGT_0. lra. }
  split; [exact H|]. exact (headCollision_not_periodic (PI / 1.8) H).
Defined.

(** ** What the events do to the persistent cells *)

(** A tick either leaves the persistent cells and the storage alone, the
    game state unchanged or Crashed, or it is a win: the reward is paid,
    the next level unlocked and both are saved. *)
Lemma gameLoop_cells (now : R) (s : App) :
  let s' := stateOf (gameLoop now s) in
  ownedBikes s' = ownedBikes s /\ selectedBikeId s' = selectedBikeId s /\
  currentLevel s' = currentLevel s /\
  ((unlockedLevels s' = unlockedLevels s /\ coins s' = coins s /\
    storage s' = storage s /\
    (gameState s' = gameState s \/ gameState s' = CRASHED)) \/
   (gameState s = PLAYING /\ gameState s' = WON /\
    unlockedLevels s' = Z.max (unlockedLevels s) (currentLevel s + 1) /\
    coins s' = (coins s + (50 + currentLevel s * 25))%Z /\
    storage s' =
      Some (mkSaved (unlockedLevels s') (coins s') (ownedBikes s')
              (selectedBikeId s')))).
Proof.
  unfold gameLoop.
  destruct (GameState_eqb (gameState s) PLAYING) eqn:Hg; cbn [negb].
  2:{ cbn. tauto. }
  assert (Hp : gameState s = PLAYING)
    by (destruct (gameState s); auto; discriminate).
  destruct (getTerrainHeight _ _) as [gr|]; [|cbn; tauto].
  destruct (getTerrainHeight _ _) as [gf|]; [|cbn; tauto].
  destruct (index (terrainRef s) (len (terrainRef s) - 20)) as [p|].
  - destruct (drawTerrain _ _), (headCollision _), (JsMath.geb _ _);
      cbn; tauto.
  - destruct (headCollision _); cbn; tauto.
Qed.

Lemma startLevel_cells (now : R) (levelId : Z) (s : App) :
  let s' := stateOf (startLevel now levelId s) in
  unlockedLevels s' = unlockedLevels s /\ coins s' = coins s /\
  ownedBikes s' = ownedBikes s /\ selectedBikeId s' = selectedBikeId s /\
  storage s' = storage s /\
  (s' = s \/
   (gameState s' = gameState s /\ currentLevel s' = currentLevel s) \/
   ((levelId <= unlockedLevels s)%Z /\ gameState s' = PLAYING /\
    currentLevel s' = levelId)).
Proof.
  unfold startLevel.
  destruct (Z.gtb_spec levelId (unlockedLevels s)); [cbn; tauto|].
  cbn [setTerrain terrainRef].
  destruct (getTerrainHeight _ _); cbn; repeat split; auto.
Qed.

Lemma includes_In (l : list Z) (id : Z) : includes l id = true <-> In id l.
Proof.
  unfold includes. rewrite existsb_exists. split.
  - intros (x & Hx & E). apply Z.eqb_eq in E. now subst.
  - intros H. exists id. split; [exact H | apply Z.eqb_refl].
Qed.

(** X18: no sequence of events breaks the garage: along it no bike is
    owned twice and the selected bike is owned. *)
Theorem garage_stays_sound (es : list Event) (s : App) :
  garageSound s -> garageSound (run es s).
Proof.
  revert s. induction es as [|e es IH]; intros s Hs; simpl; [exact Hs|].
  apply IH. unfold dispatch. destruct (offered s e); [|exact Hs].
  destruct Hs as [Hnd Hin]. unfold garageSound.
  destruct e as [now|k active|g| |id price|id|now levelId]; cbn [handle].
  - destruct (gameLoop_cells now s) as (Ho & Hsel & _). now rewrite Ho, Hsel.
  - destruct k; cbn; auto.
  - cbn. auto.
  - cbn. auto.
  - unfold buyBike.
    destruct (_ && _) eqn:E; [|auto]. cbn.
    apply andb_true_iff in E. destruct E as [_ E].
    apply negb_true_iff in E.
    assert (Hni : ~ In id (ownedBikes s)).
    { intros H. apply includes_In in H. congruence. }
    split.
    + apply NoDup_app; [exact Hnd | repeat constructor; simpl; tauto |].
      intros x Hx [<- | []]. contradiction.
    + apply in_or_app. right. now left.
  - unfold selectBike. destruct (includes _ _) eqn:E; [|auto]. cbn.
    split; [exact Hnd|]. now apply includes_In.
  - destruct (startLevel_cells now levelId s) as (_ & _ & Ho & Hsel & _).
    now rewrite Ho, Hsel.
Qed.

Lemma garage_stays_sound_witness :
  let es := [Goto SHOP; Buy 1 0; Select 0; Buy 1 0; Goto MENU] in
  garageSound (setGameState MENU atStart) /\
  garageSound (run es (setGameState MENU atStart)).
Proof.
  intros es.
  assert (H : garageSound (setGameState MENU atStart)).
  { split; cbn; [repeat constructor; simpl; tauto | tauto]. }
  split; [exact H|]. exact (garage_stays_sound es _ H).
Defined.

(** What one event does to the unlocked count, the coins and the level. *)
Lemma dispatch_progress (s : App) (e : Event) :
  (unlockedLevels s <= unlockedLevels (dispatch s e))%Z /\
  ((1 <= currentLevel s)%Z -> (1 <= currentLevel (dispatch s e))%Z) /\
  ((1 <= currentLevel s)%Z -> (0 <= coins s)%Z ->
   (0 <= coins (dispatch s e))%Z).
Proof.
  unfold dispatch. destruct (offered s e) eqn:Hoff; [|repeat split; auto; lia].
  destruct e as [now|k active|g| |id price|id|now levelId]; cbn [handle].
  - destruct (gameLoop_cells now s)
      as (_ & _ & Hc & [(Hu & Hco & _) | (_ & _ & Hu & Hco & _)]);
      rewrite Hu, Hc, Hco; repeat split; lia.
  - destruct k; cbn; repeat split; auto; lia.
  - cbn. repeat split; auto; lia.
  - cbn. repeat split; auto; lia.
  - unfold buyBike. destruct (_ && _) eqn:E; cbn; repeat split; auto; lia.
  - unfold selectBike. destruct (includes _ _); cbn; repeat split; auto; lia.
  - destruct (startLevel_cells now levelId s)
      as (Hu & Hco & _ & _ & _ & [-> | [[_ Hc] | (_ & _ & Hc)]]);
      try (repeat split; auto; lia);
      rewrite ?Hu, ?Hco, ?Hc; repeat split; auto; try lia.
    intros Hcur. cbn [offered] in Hoff.
    destruct (gameState s); try discriminate; lia.
Qed.

(** X19: the unlocked-level count never goes down, whatever the events:
    no handler writes a smaller count. *)
Theorem unlocked_never_decreases (es : list Event) (s : App) :
  (unlockedLevels s <= unlockedLevels (run es s))%Z.
Proof.
  revert s. induction es as [|e es IH]; intros s; simpl; [lia|].
  destruct (dispatch_progress s e) as (H & _).
  specialize (IH (dispatch s e)). lia.
Qed.

(** X20: with a level of at least 1 on display, the coins never go
    negative: a purchase needs the price in hand and a win pays a
    positive reward. *)
Theorem coins_never_negative (es : list Event) (s : App) :
  (1 <= currentLevel s)%Z -> (0 <= coins s)%Z ->
  (0 <= coins (run es s))%Z /\ (1 <= currentLevel (run es s))%Z.
Proof.
  revert s. induction es as [|e es IH]; intros s Hl Hc; simpl; [auto|].
  destruct (dispatch_progress s e) as (_ & H1 & H2).
  apply IH; auto.
Qed.

Lemma coins_never_negative_witness :
  let es := [Frame 1; Goto PAUSED; Goto MENU; Goto SHOP; Buy 1 100] in
  (1 <= currentLevel atFinish)%Z /\ (0 <= coins atFinish)%Z /\
  (0 <= coins (run es atFinish))%Z /\ (1 <= currentLevel (run es atFinish))%Z.
Proof.
  intros es.
  assert (H1 : (1 <= currentLevel atFinish)%Z) by (simpl; lia).
  assert (H2 : (0 <= coins atFinish)%Z) by (simpl; lia).
  split; [exact H1|]. split; [exact H2|].
  exact (coins_never_negative es atFinish H1 H2).
Defined.

(** ** The level gate as seen from the screens *)

Lemma dispatch_levelUnlocked (s : App) (e : Event) :
  levelUnlocked s -> levelUnlocked (dispatch s e).
Proof.
  intros [Hc Hw]. unfold levelUnlocked, dispatch.
  destruct (offered s e) eqn:Hoff; [|tauto].
  destruct e as [now|k active|g| |id price|id|now levelId]; cbn [handle].
  - destruct (gameLoop_cells now s)
      as (_ & _ & Hcl & [(Hu & _ & _ & [Hg | Hg]) | (Hp & _ & Hu & _)]);
      rewrite Hu, Hcl.
    + rewrite Hg. tauto.
    + rewrite Hg. split; [exact Hc | discriminate].
    + split; intros; lia.
    - destruct k; cbn; tauto.
  - cbn. split; [exact Hc|]. intros ->. cbn [offered] in Hoff.
    destruct (gameState s); discriminate.
  - cbn. tauto.
  - unfold buyBike. destruct (_ && _); cbn; tauto.
  - unfold selectBike. destruct (includes _ _); cbn; tauto.
  - destruct (startLevel_cells now levelId s)
      as (Hu & _ & _ & _ & _ & [-> | [[Hg Hcl] | (Hle & Hg & Hcl)]]).
    + tauto.
    + rewrite Hu, Hg, Hcl. tauto.
    + rewrite Hu, Hg, Hcl. split; [exact Hle | discriminate].
Qed.

Lemma run_levelUnlocked (es : list Event) (s : App) :
  levelUnlocked s -> levelUnlocked (run es s).
Proof.
  revert s. induction es as [|e es IH]; intros s Hs; simpl; [exact Hs|].
  apply IH. now apply dispatch_levelUnlocked.
Qed.

(** X21: the gate of [startLevel] is never met from the screens.  From a
    state whose level on display is unlocked (with the next one unlocked
    on the win screen), after any sequence of events, every button that
    calls [startLevel] passes a level within the unlocked count. *)
Theorem screens_respect_gate (es : list Event) (s : App) (now : R) (levelId : Z) :
  levelUnlocked s ->
  offered (run es s) (Start now levelId) = true ->
  (levelId <= unlockedLevels (run es s))%Z.
Proof.
  intros Hs Hoff.
  destruct (run_levelUnlocked es s Hs) as [Hc Hw].
  cbn [offered] in Hoff.
  destruct (gameState (run es s)) eqn:Hg; try discriminate.
  - lia.
  - specialize (Hw eq_refl). lia.
  - lia.
Qed.

Lemma screens_respect_gate_witness :
  let es := [Frame 1] in
  levelUnlocked atFinish /\
  offered (run es atFinish) (Start 2 2) = true /\
  (2 <= unlockedLevels (run es atFinish))%Z.
Proof.
  intros es.
  assert (H : levelUnlocked atFinish).
  { split; [simpl; lia | discriminate]. }
  assert (Hrun : run es atFinish = stateOf (gameLoop 1 atFinish)) by reflexivity.
  assert (Hx : Point.x (Point.mk 1050 756)
               <= BikePhysics.x (bikeRef (stateOf (gameLoop 1 atFinish)))).
  { rewrite atFinish_tick_x. simpl. lra. }
  destruct (gameLoop_won 1 atFinish (Point.mk 1050 756) eq_refl
              levelGround_finish Hx) as (s' & Hs' & Hg & _ & Hu & _).
  assert (Hc : currentLevel s' = 1%Z).
  { destruct (gameLoop_cells 1 atFinish) as (_ & _ & Hcl & _).
    rewrite Hs' in Hcl. exact Hcl. }
  assert (Hoff : offered (run es atFinish) (Start 2 2) = true).
  { rewrite Hrun, Hs'. cbn [stateOf offered]. now rewrite Hg, Hc. }
  split; [exact H|]. split; [exact Hoff|].
  exact (screens_respect_gate es atFinish 2 2 H Hoff).
Defined.

(** ** Storage, game states, pause *)

(** X22: once the storage entry holds the four persistent cells it keeps
    doing so: every handler that writes one of them writes the entry too. *)
Theorem storage_stays_in_sync (es : list Event) (s : App) :
  storageInSync s -> storageInSync (run es s).
Proof.
  revert s. induction es as [|e es IH]; intros s Hs; simpl; [exact Hs|].
  apply IH. unfold dispatch. destruct (offered s e); [|exact Hs].
  unfold storageInSync in *.
  destruct e as [now|k active|g| |id price|id|now levelId]; cbn [handle].
  - destruct (gameLoop_cells now s)
      as (Ho & Hsel & _ & [(Hu & Hco & Hst & _) | (_ & _ & _ & _ & Hst)]).
    + now rewrite Hst, Hu, Hco, Ho, Hsel.
    + now rewrite Hst.
  - destruct k; cbn; exact Hs.
  - cbn. exact Hs.
  - cbn. exact Hs.
  - unfold buyBike. destruct (_ && _); cbn; auto.
  - unfold selectBike. destruct (includes _ _); cbn; auto.
  - destruct (startLevel_cells now levelId s) as (Hu & Hco & Ho & Hsel & Hst & _).
    now rewrite Hst, Hu, Hco, Ho, Hsel.
Qed.

Lemma storage_stays_in_sync_witness :
  let es := [Frame 1; Goto MENU; Goto SHOP; Buy 3 10] in
  storageInSync atFinish /\ storageInSync (run es atFinish).
Proof.
  intros es.
  assert (H : storageInSync atFinish) by exact I.
  split; [exact H|]. exact (storage_stays_in_sync es atFinish H).
Defined.

(** X23: the game is set running in two ways only: by a [startLevel] call
    on a level within the unlocked count, and by the resume button of the
    pause screen. *)
Theorem running_entry_points (s : App) (e : Event) :
  gameState (dispatch s e) = PLAYING ->
  gameState s = PLAYING \/
  (gameState s = PAUSED /\ e = Goto PLAYING) \/
  (exists now levelId,
     e = Start now levelId /\ (levelId <= unlockedLevels s)%Z).
Proof.
  unfold dispatch. destruct (offered s e) eqn:Hoff; [|tauto].
  destruct e as [now|k active|g| |id price|id|now levelId]; cbn [handle].
  - destruct (gameLoop_cells now s)
      as (_ & _ & _ & [(_ & _ & _ & [Hg | Hg]) | (_ & Hg & _)]);
      rewrite Hg; auto; discriminate.
  - destruct k; cbn; auto.
  - cbn. intros ->. cbn [offered] in Hoff.
    destruct (gameState s); try discriminate. auto.
  - cbn. auto.
  - unfold buyBike. destruct (_ && _); cbn; auto.
  - unfold selectBike. destruct (includes _ _); cbn; auto.
  - destruct (startLevel_cells now levelId s)
      as (_ & _ & _ & _ & _ & [-> | [[Hg _] | (Hle & _ & _)]]).
    + auto.
    + rewrite Hg. auto.
    + intros _. right. right. eauto.
Qed.

Lemma running_entry_points_witness :
  gameState (dispatch (setGameState PAUSED atStart) (Goto PLAYING)) = PLAYING /\
  (gameState (setGameState PAUSED atStart) = PLAYING \/
   (gameState (setGameState PAUSED atStart) = PAUSED /\
    Goto PLAYING = Goto PLAYING) \/
   (exists now levelId,
      Goto PLAYING = Start now levelId /\
      (levelId <= unlockedLevels (setGameState PAUSED atStart))%Z)).
Proof.
  assert (H : gameState (dispatch (setGameState PAUSED atStart) (Goto PLAYING))
              = PLAYING) by reflexivity.
  split; [exact H|].
  exact (running_entry_points (setGameState PAUSED atStart) (Goto PLAYING) H).
Defined.

Lemma run_app (es1 es2 : list Event) (s : App) :
  run (es1 ++ es2) s = run es2 (run es1 s).
Proof. unfold run. apply fold_left_app. Qed.

Lemma run_frames_idle (times : list R) (s : App) :
  gameState s <> PLAYING -> run (map Frame times) s = s.
Proof.
  intros Hg. induction times as [|t times IH]; simpl; [reflexivity|].
  unfold dispatch. cbn [offered handle].
  now rewrite gameLoop_not_playing by exact Hg.
Qed.

(** X24: pausing a running game, letting any number of frames pass and
    resuming gives back the very state the game was paused in: pose,
    course, controls and timer cells included. *)
Theorem pause_resume (times : list R) (s : App) :
  gameState s = PLAYING ->
  run (Goto PAUSED :: map Frame times ++ [Goto PLAYING]) s = s.
Proof.
  intros Hg. cbn [run fold_left]. fold (run (map Frame times ++ [Goto PLAYING])).
  assert (Hd : dispatch s (Goto PAUSED) = setGameState PAUSED s).
  { unfold dispatch. cbn [offered]. now rewrite Hg. }
  rewrite Hd, run_app, run_frames_idle by (cbn; discriminate).
  cbn. unfold dispatch. cbn.
  destruct s; cbn in *. now subst.
Qed.

Lemma pause_resume_witness :
  gameState atStart = PLAYING /\
  run (Goto PAUSED :: map Frame [1; 2; 3] ++ [Goto PLAYING]) atStart = atStart.
Proof.
  split; [reflexivity|]. exact (pause_resume [1; 2; 3] atStart eq_refl).
Defined.

(** ** Shop *)

(** X25: [buyBike] ends with the bike owned exactly when it was owned
    already or the coins cover the price; a price that is not negative
    never raises the coins; and asking again for the same bike at the
    same price changes nothing more. *)
Theorem buyBike_once (id price : Z) (s : App) :
  (In id (ownedBikes (buyBike id price s)) <->
   In id (ownedBikes s) \/ (price <= coins s)%Z) /\
  ((0 <= price)%Z -> (coins (buyBike id price s) <= coins s)%Z) /\
  buyBike id price (buyBike id price s) = buyBike id price s.
Proof.
  assert (Hself : In id (ownedBikes s ++ [id]))
    by (apply in_or_app; right; now left).
  destruct (includes (ownedBikes s) id) eqn:Hi.
  - assert (E : buyBike id price s = s).
    { unfold buyBike. now rewrite Hi, andb_false_r. }
    rewrite !E. apply includes_In in Hi.
    split; [tauto|]. split; [lia | reflexivity].
  - assert (Hni : ~ In id (ownedBikes s)).
    { intros H. apply includes_In in H. congruence. }
    destruct (coins s >=? price)%Z eqn:Hc.
    + assert (E : buyBike id price s =
                  saveData (unlockedLevels s) (coins s - price)%Z
                    (ownedBikes s ++ [id]) id s).
      { unfold buyBike. now rewrite Hc, Hi. }
      rewrite E at 1 2. split; [|split].
      * cbn. split; [intros _; right; lia | intros _; exact Hself].
      * cbn. lia.
      * rewrite E. unfold buyBike at 1. cbn [saveData ownedBikes coins].
        apply includes_In in Hself. now rewrite Hself, andb_false_r.
    + assert (E : buyBike id price s = s).
      { unfold buyBike. now rewrite Hc. }
      rewrite !E. split; [|split; [lia | reflexivity]].
      split; [tauto | intros [H | H]; [exact H | lia]].
Qed.

(** ** Rendering *)

Lemma readRange_in_range (terrain : list Point.t) (n : nat) (i : Z) :
  (0 <= i)%Z -> (i + Z.of_nat n <= len terrain)%Z ->
  exists ps, readRange terrain i n = Some ps /\ List.length ps = n /\
             forall p, In p ps -> In p terrain.
Proof.
  revert i. induction n as [|n IH]; intros i Hi Hn.
  - exists []. repeat split; auto. intros p [].
  - cbn [readRange].
    destruct (index_in_range terrain i) as [p Hp]; [lia|].
    destruct (IH (i + 1)%Z) as (ps & Hps & Hl & Hin); [lia | lia |].
    rewrite Hp, Hps. exists (p :: ps). repeat split.
    + simpl. now rewrite Hl.
    + intros q [<- | Hq]; [now apply (index_In terrain i) | auto].
Qed.

Lemma floor_le_of_lt (r : R) (z : Z) : r < IZR z -> (JsMath.floor r <= z - 1)%Z.
Proof.
  intros H. destruct (floor_spec r) as [Hlo _].
  assert (Hlt : IZR (JsMath.floor r) < IZR z) by lra.
  apply lt_IZR in Hlt. lia.
Qed.

Lemma floor_mono (a b : R) : a <= b -> (JsMath.floor a <= JsMath.floor b)%Z.
Proof.
  intros H. destruct (floor_spec a) as [Hlo _]. destruct (floor_spec b) as [_ Hhi].
  assert (Hlt : IZR (JsMath.floor a) < IZR (JsMath.floor b + 1)).
  { rewrite plus_IZR. simpl. lra. }
  apply lt_IZR in Hlt. lia.
Qed.

Lemma drawTerrain_reads (bike : BikePhysics.t) (terrain : list Point.t) :
  (20 <= len terrain)%Z ->
  -1394 < BikePhysics.x bike < 50 * IZR (len terrain) + 576 ->
  exists strip finish,
    drawTerrain bike terrain = Some (strip, Some finish) /\
    index terrain (len terrain - 20) = Some finish /\
    (List.length strip <= 41)%nat /\
    (forall p, In p strip -> In p terrain) /\
    (0 <= BikePhysics.x bike < 50 * IZR (len terrain) ->
     (fst (visibleRange bike terrain)
      <= JsMath.floor (BikePhysics.x bike / 50)
      <= snd (visibleRange bike terrain))%Z).
Proof.
  intros Hlen [Hxl Hxr].
  unfold drawTerrain.
  destruct (Z.gtb_spec (len terrain) 0) as [_|H]; [|lia].
  set (c := BikePhysics.x bike - CANVAS_WIDTH * 0.3).
  assert (Hvr : visibleRange bike terrain =
                (Z.max 0 (JsMath.floor (c / 50)),
                 Z.min (len terrain - 1)
                   (JsMath.ceil ((c + CANVAS_WIDTH) / 50)))) by reflexivity.
  rewrite Hvr. cbn [fst snd].
  set (fl := JsMath.floor (c / 50)).
  set (ce := JsMath.ceil ((c + CANVAS_WIDTH) / 50)).
  destruct (floor_spec (c / 50)) as [Hf1 Hf2]. fold fl in Hf1, Hf2.
  destruct (ceil_spec ((c + CANVAS_WIDTH) / 50)) as [Hc1 Hc2]. fold ce in Hc1, Hc2.
  unfold c, CANVAS_WIDTH in Hf1, Hf2, Hc1, Hc2.
  assert (Hfl : (fl <= len terrain - 1)%Z).
  { apply floor_le_of_lt. unfold c, CANVAS_WIDTH. lra. }
  assert (Hce : (0 <= ce)%Z).
  { assert (H : IZR (-1) < IZR ce) by (simpl; lra).
    apply lt_IZR in H. lia. }
  assert (Hspan : (ce - fl <= 40)%Z).
  { assert (H : IZR (ce - fl) < IZR 41).
    { rewrite minus_IZR. simpl. lra. }
    apply lt_IZR in H. lia. }
  set (st := Z.max 0 fl). set (en := Z.min (len terrain - 1) ce).
  destruct (index_in_range terrain st) as [p0 Hp0]; [unfold st; lia|].
  destruct (readRange_in_range terrain (Z.to_nat (en - st + 1)) st)
    as (strip & Hstrip & Hl & Hin); [unfold st; lia | unfold st, en; lia|].
  destruct (index_in_range terrain en) as [p1 Hp1]; [unfold en; lia|].
  destruct (index_in_range terrain (len terrain - 20)) as [fin Hfin]; [lia|].
  rewrite Hp0, Hstrip, Hp1, Hfin.
  exists strip, fin. split; [reflexivity|]. split; [reflexivity|].
  split; [rewrite Hl; unfold st, en; lia|]. split; [exact Hin|].
  intros [Hx0 Hx1].
  assert (Hm : (fl <= JsMath.floor (BikePhysics.x bike / 50))%Z).
  { apply floor_mono. unfold c, CANVAS_WIDTH. lra. }
  assert (Hnn : (0 <= JsMath.floor (BikePhysics.x bike / 50))%Z).
  { apply floor_nonneg. lra. }
  assert (Hup : (JsMath.floor (BikePhysics.x bike / 50) <= len terrain - 1)%Z).
  { apply floor_le_of_lt. lra. }
  assert (Hce' : (JsMath.floor (BikePhysics.x bike / 50) <= ce)%Z).
  { destruct (floor_spec (BikePhysics.x bike / 50)) as [Hb _].
    assert (H : IZR (JsMath.floor (BikePhysics.x bike / 50)) < IZR (ce + 1)).
    { rewrite plus_IZR. simpl. lra. }
    apply lt_IZR in H. lia. }
  unfold st, en. lia.
Qed.

(** X26: with at least 20 samples, the bike right of x = -1394 and less
    than 576 beyond the end of the course, every terrain read of
    [drawFrame] is in range; at most 41 samples are joined, however long
    the course; and while the bike is over the course the segment under
    it is among them. *)
Theorem drawTerrain_in_bounds (bike : BikePhysics.t) (terrain : list Point.t) :
  (20 <= len terrain)%Z ->
  -1394 < BikePhysics.x bike < 50 * IZR (len terrain) + 576 ->
  exists strip finish,
    drawTerrain bike terrain = Some (strip, Some finish) /\
    index terrain (len terrain - 20) = Some finish /\
    (List.length strip <= 41)%nat /\
    (forall p, In p strip -> In p terrain) /\
    (0 <= BikePhysics.x bike < 50 * IZR (len terrain) ->
     (fst (visibleRange bike terrain)
      <= JsMath.floor (BikePhysics.x bike / 50)
      <= snd (visibleRange bike terrain))%Z).
Proof. exact (drawTerrain_reads bike terrain). Qed.


Lemma drawTerrain_in_bounds_witness :
  (20 <= len levelGround)%Z /\
  -1394 < BikePhysics.x startPose < 50 * IZR (len levelGround) + 576 /\
  exists strip finish,
    drawTerrain startPose levelGround = Some (strip, Some finish) /\
    index levelGround (len levelGround - 20) = Some finish /\
    (List.length strip <= 41)%nat /\
    (forall p, In p strip -> In p levelGround) /\
    (0 <= BikePhysics.x startPose < 50 * IZR (len levelGround) ->
     (fst (visibleRange startPose levelGround)
      <= JsMath.floor (BikePhysics.x startPose / 50)
      <= snd (visibleRange startPose levelGround))%Z).
Proof.
  assert (H1 : (20 <= len levelGround)%Z).
  { change (len levelGround) with 41%Z. lia. }
  assert (H2 : -1394 < BikePhysics.x startPose
               < 50 * IZR (len levelGround) + 576).
  { change (len levelGround) with 41%Z. simpl. lra. }
  split; [exact H1|]. split; [exact H2|].
  exact (drawTerrain_in_bounds startPose levelGround H1 H2).
Defined.

Lemma drawTerrain_outside (bike : BikePhysics.t) (terrain : list Point.t) :
  (0 < len terrain)%Z ->
  BikePhysics.x bike <= -1394 \/
  50 * IZR (len terrain) + 576 <= BikePhysics.x bike ->
  drawTerrain bike terrain = None.
Proof.
  intros Hlen Hx.
  unfold drawTerrain.
  destruct (Z.gtb_spec (len terrain) 0) as [_|H]; [|lia].
  unfold visibleRange. cbn [fst snd].
  destruct (floor_spec ((BikePhysics.x bike - CANVAS_WIDTH * 0.3) / 50))
    as [Hf0 Hf].
  destruct (ceil_spec ((BikePhysics.x bike - CANVAS_WIDTH * 0.3 + CANVAS_WIDTH) / 50))
    as [Hc0 Hc].
  set (fl := JsMath.floor _) in *. set (ce := JsMath.ceil _) in *.
  unfold CANVAS_WIDTH in *.
  destruct Hx as [Hx | Hx].
  - assert (Hce : (ce <= -1)%Z).
    { assert (H : IZR ce < IZR 0) by (simpl; lra).
      apply lt_IZR in H. lia. }
    assert (Hfl : (fl < 0)%Z).
    { apply lt_IZR. simpl. lra. }
    replace (Z.max 0 fl) with 0%Z by lia.
    replace (Z.min (len terrain - 1) ce) with ce by lia.
    destruct (index_in_range terrain 0) as [p0 Hp0]; [lia|].
    rewrite Hp0.
    replace (Z.to_nat (ce - 0 + 1)) with 0%nat by lia.
    cbn [readRange].
    rewrite (index_out_of_range terrain ce); [reflexivity | lia].
  - assert (Hfl : (len terrain <= fl)%Z).
    { assert (H : IZR (len terrain - 1) < IZR fl).
      { rewrite minus_IZR. simpl. lra. }
      apply lt_IZR in H. lia. }
    rewrite index_out_of_range; [reflexivity | lia].
Qed.

(** X27: on a non-empty course a terrain read of [drawFrame] fails as
    soon as the bike is at or left of x = -1394 (the last sample in view
    has a negative index) or 576 or more beyond the end of the course
    (the first sample in view is past the last one).  On the empty course
    nothing is read. *)
Theorem drawTerrain_out_of_view (bike : BikePhysics.t) (terrain : list Point.t) :
  (0 < len terrain)%Z ->
  BikePhysics.x bike <= -1394 \/
  50 * IZR (len terrain) + 576 <= BikePhysics.x bike ->
  drawTerrain bike terrain = None /\ drawTerrain bike [] = Some ([], None).
Proof.
  intros Hlen Hx. split; [now apply drawTerrain_outside | reflexivity].
Qed.

Lemma drawTerrain_out_of_view_witness :
  (0 < len levelGround)%Z /\
  (BikePhysics.x (BikePhysics.mk (-1400) 756 0 0 0 0) <= -1394 \/
   50 * IZR (len levelGround) + 576
   <= BikePhysics.x (BikePhysics.mk (-1400) 756 0 0 0 0)) /\
  drawTerrain (BikePhysics.mk (-1400) 756 0 0 0 0) levelGround = None /\
  drawTerrain (BikePhysics.mk (-1400) 756 0 0 0 0) [] = Some ([], None).
Proof.
  assert (H1 : (0 < len levelGround)%Z).
  { change (len levelGround) with 41%Z. lia. }
  assert (H2 : BikePhysics.x (BikePhysics.mk (-1400) 756 0 0 0 0) <= -1394 \/
               50 * IZR (len levelGround) + 576
               <= BikePhysics.x (BikePhysics.mk (-1400) 756 0 0 0 0)).
  { left. simpl. lra. }
  split; [exact H1|]. split; [exact H2|].
  exact (drawTerrain_out_of_view (BikePhysics.mk (-1400) 756 0 0 0 0)
           levelGround H1 H2).
Defined.

(** X11: a [gameLoop] call fails exactly when the game is running and
    either the course has fewer than 20 samples, the empty course
    included, or the pose the tick has moved is outside the range its
    closing draw can read: at or left of x = -1394, or 576 or more beyond
    the end of the course.  In every other state the call returns. *)
Theorem gameLoop_throws_iff (now : R) (s : App) :
  let x' := BikePhysics.x (bikeRef (stateOf (gameLoop now s))) in
  (exists s', gameLoop now s = Threw s') <->
  gameState s = PLAYING /\
  ((len (terrainRef s) < 20)%Z \/
   x' <= -1394 \/ 50 * IZR (len (terrainRef s)) + 576 <= x').
Proof.
  intros x'.
  destruct (Z.ltb_spec (len (terrainRef s)) 20) as [Hlen|Hlen].
  - split.
    + intros [s' Hs]. split; [|left; exact Hlen].
      destruct (gameState s) eqn:E; try reflexivity;
        rewrite gameLoop_not_playing in Hs by (rewrite E; discriminate);
        discriminate.
    + intros [Hg _]. unfold gameLoop. rewrite Hg. cbn [GameState_eqb negb].
      destruct (getTerrainHeight _ _) as [gr|]; [|eauto].
      destruct (getTerrainHeight _ _) as [gf|]; [|eauto].
      rewrite (index_out_of_range (terrainRef s) (len (terrainRef s) - 20))
        by lia.
      eauto.
  - destruct (index_in_range (terrainRef s) (len (terrainRef s) - 20))
      as [p Hp]; [lia|].
    split.
    + intros [s' Hs].
      assert (Hg : gameState s = PLAYING).
      { destruct (gameState s) eqn:E; try reflexivity;
          rewrite gameLoop_not_playing in Hs by (rewrite E; discriminate);
          discriminate. }
      split; [exact Hg|]. right.
      destruct (gameLoop_draw now s p Hg Hp) as (Ht & Hd).
      destruct (Rle_or_lt x' (-1394)) as [Hl|Hl]; [left; exact Hl|].
      destruct (Rle_or_lt (50 * IZR (len (terrainRef s)) + 576) x') as [Hr|Hr];
        [right; exact Hr|].
      exfalso.
      destruct (drawTerrain_reads (bikeRef (stateOf (gameLoop now s)))
                  (terrainRef s) Hlen (conj Hl Hr)) as (strip & fin & Hdr & _).
      rewrite Ht, Hdr in Hd. rewrite Hd in Hs. discriminate.
    + intros [Hg [Hl | Hx]]; [lia|].
      destruct (gameLoop_draw now s p Hg Hp) as (Ht & Hd).
      rewrite Ht, (drawTerrain_outside _ (terrainRef s)) in Hd
        by (lia || exact Hx).
      eauto.
Qed.

(** ** The first frame of a run *)

(** X17: after [startLevel] on an unlocked level [levelId >= 1], the next
    frame, whatever the controls have become, neither fails nor ends the
    run: its closing draw reads in range, the game is still running, the
    bike within 1.1 of x = 100. *)
Theorem first_frame_runs (now now' : R) (levelId : Z) (s : App)
    (inputs : Inputs.t) :
  (1 <= levelId <= unlockedLevels s)%Z ->
  let s1 := stateOf (startLevel now levelId s) in
  exists s2,
    gameLoop now' (setInputs inputs s1) = Returned s2 /\
    drawTerrain (bikeRef s2) (terrainRef s2) <> None /\
    gameState s2 = PLAYING /\
    Rabs (BikePhysics.x (bikeRef s2) - 100) <= 1.1.
Proof.
  intros [Hlo Hhi] s1.
  destruct (startLevel_starts_aux now levelId s) as (h & Hh & Hs); [lia|].
  unfold s1. rewrite Hs. cbn [stateOf].
  set (s0 := setInputs inputs _).
  assert (Hg : gameState s0 = PLAYING) by reflexivity.
  assert (Hne : terrainRef s0 <> []).
  { cbn. apply levelTerrain_nonempty. lia. }
  destruct (gameLoop_integrates now' s0 Hg Hne) as (gr & gf & Hr & Hf & Hb & _).
  assert (Hfin := levelTerrain_finish levelId ltac:(lia)).
  assert (Hx : BikePhysics.x (integrate (BikePhysics.mk 100 h 0 0 0 0) inputs gr gf)
               = 100 + accelerate 0 0 inputs).
  { unfold integrate. cbn [BikePhysics.x BikePhysics.angle BikePhysics.velocity].
    destruct (updateVelocity_cruising 0 0 inputs) as (_ & _ & He);
      [unfold cruising; lra|].
    rewrite He by (right; lra). rewrite cos_0. lra. }
  assert (Ha : -0.4 <= accelerate 0 0 inputs <= 1.1).
  { unfold accelerate, GRAVITY, ACCELERATION, NITRO_ACCELERATION,
      BRAKE_FORCE, FRICTION. rewrite sin_0.
    destruct (Inputs.throttle inputs), (Inputs.nitro inputs),
      (Inputs.brake inputs); cbv iota; lra. }
  assert (Hlen : len (levelTerrain levelId) = (30 * levelId + 81)%Z).
  { unfold len. rewrite levelTerrain_length. lia. }
  assert (Hlen' : 111 <= IZR (len (levelTerrain levelId))).
  { rewrite Hlen. replace 111 with (IZR 111) by (simpl; lra).
    apply IZR_le. lia. }
  destruct (drawTerrain_reads
              (integrate (BikePhysics.mk 100 h 0 0 0 0) inputs gr gf)
              (levelTerrain levelId)) as (strip & fin & Hd & _);
    [lia | rewrite Hx; lra |].
  rewrite (gameLoop_playing_outcome now' s0 gr gf _ Hg Hr Hf Hfin).
  change (drawTerrain (integrate (bikeRef s0) (inputsRef s0) gr gf)
            (terrainRef s0))
    with (drawTerrain (integrate (BikePhysics.mk 100 h 0 0 0 0) inputs gr gf)
            (levelTerrain levelId)).
  rewrite Hd.
  eexists. split; [reflexivity|].
  rewrite afterTick_terrain, afterTick_bike,
    (afterTick_gameState now' s0 gr gf _ Hg).
  cbn [s0 setInputs bikeRef inputsRef terrainRef].
  rewrite Hd. split; [discriminate|].
  rewrite integrate_upright_safe by reflexivity.
  rewrite Hx.
  assert (Hfx : Point.x (terrainSample (30 * levelId + 80) (levelSeed levelId)
                           (30 * levelId + 61)) = IZR (1500 * levelId + 3050)).
  { unfold terrainSample. cbn [Point.x]. unfold segmentLength.
    rewrite !plus_IZR, !mult_IZR. simpl. lra. }
  rewrite Hfx.
  assert (Hl : 4550 <= IZR (1500 * levelId + 3050)).
  { replace 4550 with (IZR 4550) by (simpl; lra). apply IZR_le. lia. }
  assert (Hge : JsMath.geb (100 + accelerate 0 0 inputs)
                  (IZR (1500 * levelId + 3050)) = false)
    by (apply geb_false; lra).
  rewrite Hge. split; [reflexivity|].
  unfold Rabs. destruct (Rcase_abs _); lra.
Qed.

Lemma first_frame_runs_witness :
  (1 <= 1 <= unlockedLevels atStart)%Z /\
  let s1 := stateOf (startLevel 0 1 atStart) in
  exists s2,
    gameLoop 1 (setInputs throttleOnly s1) = Returned s2 /\
    drawTerrain (bikeRef s2) (terrainRef s2) <> None /\
    gameState s2 = PLAYING /\
    Rabs (BikePhysics.x (bikeRef s2) - 100) <= 1.1.
Proof.
  assert (H : (1 <= 1 <= unlockedLevels atStart)%Z) by (simpl; lia).
  split; [exact H|]. exact (first_frame_runs 0 1 1 atStart throttleOnly H).
Defined.

Lemma finish_position (terrain : list Point.t) (finish : Point.t) :
  uniform terrain ->
  index terrain (len terrain - 20) = Some finish ->
  (20 <= len terrain)%Z /\ Point.x finish = 50 * IZR (len terrain) - 1000.
Proof.
  intros Hu Hf.
  assert (Hlen : (20 <= len terrain)%Z).
  { destruct (Z.ltb_spec (len terrain) 20) as [H|H]; [|exact H].
    rewrite index_out_of_range in Hf by lia. discriminate. }
  split; [exact Hlen|].
  rewrite index_nonneg in Hf by lia.
  rewrite (Hu _ _ Hf), INR_IZR_INZ, Z2Nat.id by lia.
  rewrite minus_IZR. unfold segmentLength. simpl. lra.
Qed.

(** X28: the frame of a forward run can be drawn.  When a tick starts
    with the bike short of the finish line of a course with the spacing
    invariant, and right of x = -1334, the terrain reads [drawFrame]
    makes at the end of that tick on the moved pose are all in range. *)
Theorem frame_can_be_drawn (now : R) (s : App) (finish : Point.t) :
  gameState s = PLAYING -> uniform (terrainRef s) ->
  index (terrainRef s) (len (terrainRef s) - 20) = Some finish ->
  -1334 < BikePhysics.x (bikeRef s) < Point.x finish ->
  let s' := stateOf (gameLoop now s) in
  exists strip,
    drawTerrain (bikeRef s') (terrainRef s') = Some (strip, Some finish) /\
    (List.length strip <= 41)%nat.
Proof.
  intros Hg Hu Hfin Hx s'.
  destruct (finish_position _ _ Hu Hfin) as [Hlen Hfx].
  assert (Hne : terrainRef s <> []) by exact (index_some_nonempty _ _ _ Hfin).
  destruct (gameLoop_outcome now s Hg Hne) as (Ht & _). fold s' in Ht.
  destruct (gameLoop_moves_at_most now s) as [Hd Hcap]. fold s' in Hd.
  assert (Hmove : -60 <= BikePhysics.x (bikeRef s') - BikePhysics.x (bikeRef s)
                  <= 60).
  { revert Hd. unfold Rabs. destruct (Rcase_abs _); lra. }
  rewrite Ht.
  destruct (drawTerrain_reads (bikeRef s') (terrainRef s) Hlen)
    as (strip & fin & Hdraw & Hf' & Hl & _); [lra|].
  exists strip. rewrite Hdraw. split; [|exact Hl]. congruence.
Qed.

Lemma frame_can_be_drawn_witness :
  gameState atStart = PLAYING /\ uniform (terrainRef atStart) /\
  index (terrainRef atStart) (len (terrainRef atStart) - 20)
    = Some (Point.mk 1050 756) /\
  -1334 < BikePhysics.x (bikeRef atStart) < Point.x (Point.mk 1050 756) /\
  let s' := stateOf (gameLoop 0 atStart) in
  exists strip,
    drawTerrain (bikeRef s') (terrainRef s')
      = Some (strip, Some (Point.mk 1050 756)) /\
    (List.length strip <= 41)%nat.
Proof.
  assert (Hx : -1334 < BikePhysics.x (bikeRef atStart)
               < Point.x (Point.mk 1050 756)) by (simpl; lra).
  split; [reflexivity|]. split; [exact levelGround_uniform|].
  split; [exact levelGround_finish|]. split; [exact Hx|].
  exact (frame_can_be_drawn 0 atStart (Point.mk 1050 756) eq_refl
           levelGround_uniform levelGround_finish Hx).
Defined.

(** ** From a win to the next level *)

(** X29: a win on a level of at least 1 opens the next one: on the win
    screen the button for [currentLevel + 1] is offered, its [startLevel]
    call passes the gate and returns with the game running on the course
    of the next level, the reward of the win in the coins. *)
Theorem win_then_next (now now' : R) (s : App) (finish : Point.t) :
  gameState s = PLAYING ->
  index (terrainRef s) (len (terrainRef s) - 20) = Some finish ->
  Point.x finish <= BikePhysics.x (bikeRef (stateOf (gameLoop now s))) ->
  (1 <= currentLevel s)%Z ->
  let s1 := stateOf (gameLoop now s) in
  offered s1 (Start now' (currentLevel s + 1)) = true /\
  exists s2,
    startLevel now' (currentLevel s + 1) s1 = Returned s2 /\
    gameState s2 = PLAYING /\
    currentLevel s2 = (currentLevel s + 1)%Z /\
    terrainRef s2 = levelTerrain (currentLevel s + 1) /\
    coins s2 = (coins s + (50 + 25 * currentLevel s))%Z.
Proof.
  intros Hg Hfin Hx Hl s1.
  destruct (gameLoop_won now s finish Hg Hfin Hx)
    as (s' & Hs' & Hw & Hco & Hu & _).
  assert (Hc : currentLevel s1 = currentLevel s).
  { destruct (gameLoop_cells now s) as (_ & _ & H & _). exact H. }
  assert (E : s1 = s') by (unfold s1; now rewrite Hs').
  rewrite <- E in Hw, Hco, Hu.
  split.
  - cbn [offered]. rewrite Hw, Hc, Z.eqb_refl. apply orb_true_r.
  - destruct (startLevel_starts_aux now' (currentLevel s + 1) s1)
      as (h & _ & Hst); [lia|].
    rewrite Hst. eexists. split; [reflexivity|]. cbn.
    repeat split; auto.
Qed.

Lemma win_then_next_witness :
  gameState atFinish = PLAYING /\
  index (terrainRef atFinish) (len (terrainRef atFinish) - 20)
    = Some (Point.mk 1050 756) /\
  Point.x (Point.mk 1050 756)
    <= BikePhysics.x (bikeRef (stateOf (gameLoop 0 atFinish))) /\
  (1 <= currentLevel atFinish)%Z /\
  let s1 := stateOf (gameLoop 0 atFinish) in
  offered s1 (Start 1 (currentLevel atFinish + 1)) = true /\
  exists s2,
    startLevel 1 (currentLevel atFinish + 1) s1 = Returned s2 /\
    gameState s2 = PLAYING /\
    currentLevel s2 = (currentLevel atFinish + 1)%Z /\
    terrainRef s2 = levelTerrain (currentLevel atFinish + 1) /\
    coins s2 = (coins atFinish + (50 + 25 * currentLevel atFinish))%Z.
Proof.
  assert (Hx : Point.x (Point.mk 1050 756)
               <= BikePhysics.x (bikeRef (stateOf (gameLoop 0 atFinish)))).
  { rewrite atFinish_tick_x. simpl. lra. }
  assert (Hl : (1 <= currentLevel atFinish)%Z) by (simpl; lia).
  split; [reflexivity|]. split; [exact levelGround_finish|].
  split; [exact Hx|]. split; [exact Hl|].
  exact (win_then_next 0 1 atFinish (Point.mk 1050 756) eq_refl
           levelGround_finish Hx Hl).
Defined.

(** ** Reversing off the screen *)

Lemma updateVelocity_brake (v : R) :
  -9.6 <= v <= 0 ->
  updateVelocity v 0 brakeOnly = (v - BRAKE_FORCE) * FRICTION.
Proof.
  intros Hv. unfold updateVelocity. simpl. rewrite sin_0.
  unfold currentMaxSpeed, MAX_SPEED, BRAKE_FORCE, FRICTION, GRAVITY. simpl.
  clamp_inside. lra.
Qed.

Lemma reversing_distance (n : nat) :
  230.4 * (1 - FRICTION ^ n) <= 9.6 * INR n.
Proof.
  induction n as [|n IH].
  - simpl. lra.
  - rewrite S_INR. cbn [pow].
    pose proof (FRICTION_pow_bounds n) as Hq.
    set (q := FRICTION ^ n) in *. unfold FRICTION at 1. lra.
Qed.

Lemma reversing_frame (now h lean : R) (n : nat) (s : App) (finish : Point.t) :
  flat h (terrainRef s) ->
  index (terrainRef s) (len (terrainRef s) - 20) = Some finish ->
  100 < Point.x finish ->
  gameState s = PLAYING -> bikeRef s = reversed h lean n ->
  let s' := stateOf (gameLoop now (setInputs brakeOnly s)) in
  gameState s' = PLAYING /\ terrainRef s' = terrainRef s /\
  bikeRef s' = reversed h lean (S n).
Proof.
  intros Hflat Hfin Hfx Hg Hb s'.
  set (s0 := setInputs brakeOnly s).
  assert (Hne : terrainRef s0 <> []) by exact (index_some_nonempty _ _ _ Hfin).
  assert (Hs : s' = afterTick now s0 h h finish).
  { unfold s'. fold s0.
    rewrite (gameLoop_playing now s0 h h finish); auto.
    - apply getTerrainHeight_flat; auto.
    - apply getTerrainHeight_flat; auto. }
  pose proof (FRICTION_pow_bounds n) as Hq.
  assert (Hi : integrate (bikeRef s0) (inputsRef s0) h h = reversed h lean (S n)).
  { cbn [s0 setInputs bikeRef inputsRef]. rewrite Hb.
    unfold integrate, reversed.
    cbn [BikePhysics.x BikePhysics.y BikePhysics.velocity BikePhysics.angle
         BikePhysics.angularVelocity BikePhysics.lean].
    rewrite cos_0. unfold WHEEL_BASE.
    replace (100 - 9.6 * INR n + 230.4 * (1 - FRICTION ^ n) + 1 * 70
             - (100 - 9.6 * INR n + 230.4 * (1 - FRICTION ^ n))) with 70 by lra.
    rewrite Rminus_diag, atan2_zero_pos by lra.
    rewrite Rminus_diag, updateAngularVelocity_rest by reflexivity.
    rewrite updateVelocity_brake by (unfold FRICTION in *; lra).
    rewrite S_INR. cbn [pow]. unfold BRAKE_FORCE, FRICTION in *.
    f_equal; try lra. now destruct (negb _ && _). }
  rewrite Hs. split; [|split].
  - rewrite (afterTick_gameState now s0 h h finish Hg), Hi.
    pose proof (FRICTION_pow_bounds (S n)) as Hq'. pose proof (pos_INR (S n)) as Hn.
    assert (Hge : JsMath.geb (BikePhysics.x (reversed h lean (S n)))
                    (Point.x finish) = false).
    { apply geb_false. unfold reversed. cbn [BikePhysics.x].
      pose proof (reversing_distance (S n)). lra. }
    rewrite Hge.
    rewrite headCollision_false_small; [reflexivity|].
    unfold reversed. cbn [BikePhysics.angle]. rewrite Rabs_R0.
    pose proof PI_RGT_0. lra.
  - unfold afterTick. destruct (headCollision _), (JsMath.geb _ _); reflexivity.
  - rewrite afterTick_bike. exact Hi.
Qed.

Lemma reversing_frames (h lean : R) (times : list R) (n : nat) (s : App)
    (finish : Point.t) :
  flat h (terrainRef s) ->
  index (terrainRef s) (len (terrainRef s) - 20) = Some finish ->
  100 < Point.x finish ->
  gameState s = PLAYING -> bikeRef s = reversed h lean n ->
  let s' := ticks (map (fun t => (brakeOnly, t)) times) s in
  gameState s' = PLAYING /\ terrainRef s' = terrainRef s /\
  bikeRef s' = reversed h lean (n + List.length times).
Proof.
  revert n s. induction times as [|t times IH]; intros n s Hflat Hfin Hfx Hg Hb.
  - cbn. rewrite Nat.add_0_r. auto.
  - cbn [map ticks List.length].
    destruct (reversing_frame t h lean n s finish Hflat Hfin Hfx Hg Hb)
      as (Hg' & Ht' & Hb').
    destruct (IH (S n) _ ltac:(rewrite Ht'; exact Hflat)
                ltac:(rewrite Ht'; exact Hfin) Hfx Hg' Hb')
      as (Hg'' & Ht'' & Hb'').
    replace (n + S (List.length times))%nat with (S n + List.length times)%nat
      by lia.
    split; [exact Hg''|]. split; [congruence | exact Hb''].
Qed.

(** X30: reversing runs the bike off the drawable range.  On level
    ground, from the start pose at x = 100 with only the brake held, the
    bike stays upright and the game running, the speed between -9.6 and
    0; after 180 frames or more the bike is at or left of x = -1394,
    where the terrain reads of [drawFrame] fail. *)
Theorem reversing_leaves_the_view (h lean : R) (times : list R) (s : App)
    (finish : Point.t) :
  flat h (terrainRef s) ->
  index (terrainRef s) (len (terrainRef s) - 20) = Some finish ->
  100 < Point.x finish ->
  gameState s = PLAYING ->
  bikeRef s = BikePhysics.mk 100 h 0 0 0 lean ->
  (180 <= List.length times)%nat ->
  let s' := ticks (map (fun t => (brakeOnly, t)) times) s in
  gameState s' = PLAYING /\
  BikePhysics.angle (bikeRef s') = 0 /\
  -9.6 <= BikePhysics.velocity (bikeRef s') <= 0 /\
  BikePhysics.x (bikeRef s') <= -1394 /\
  drawTerrain (bikeRef s') (terrainRef s') = None.
Proof.
  intros Hflat Hfin Hfx Hg Hb Hn s'.
  assert (Hb0 : bikeRef s = reversed h lean 0).
  { rewrite Hb. unfold reversed. simpl. f_equal; lra. }
  destruct (reversing_frames h lean times 0 s finish Hflat Hfin Hfx Hg Hb0)
    as (Hg' & Ht' & Hb').
  fold s' in Hg', Ht', Hb'. cbn [Nat.add] in Hb'.
  pose proof (FRICTION_pow_bounds (List.length times)) as Hq.
  assert (Hlen : 180 <= INR (List.length times)).
  { replace 180 with (INR 180) by (rewrite INR_IZR_INZ; simpl; lra).
    now apply le_INR. }
  assert (Hx : BikePhysics.x (bikeRef s') <= -1394).
  { rewrite Hb'. unfold reversed. cbn [BikePhysics.x]. lra. }
  rewrite Hb' at 1 2 3. unfold reversed at 1 2 3.
  cbn [BikePhysics.angle BikePhysics.velocity].
  split; [exact Hg'|]. split; [reflexivity|]. split; [lra|]. split; [exact Hx|].
  apply drawTerrain_outside; [|left; exact Hx].
  rewrite Ht'.
  destruct (Z.ltb_spec 0 (len (terrainRef s))) as [H|H]; [exact H|].
  rewrite index_out_of_range in Hfin by lia. discriminate.
Qed.

Lemma reversing_leaves_the_view_witness :
  let times := repeat 0 180 in
  let s := running levelGround startPose Inputs.released in
  flat 756 (terrainRef s) /\
  index (terrainRef s) (len (terrainRef s) - 20) = Some (Point.mk 1050 756) /\
  100 < Point.x (Point.mk 1050 756) /\
  gameState s = PLAYING /\
  bikeRef s = BikePhysics.mk 100 756 0 0 0 0 /\
  (180 <= List.length times)%nat /\
  let s' := ticks (map (fun t => (brakeOnly, t)) times) s in
  gameState s' = PLAYING /\
  BikePhysics.angle (bikeRef s') = 0 /\
  -9.6 <= BikePhysics.velocity (bikeRef s') <= 0 /\
  BikePhysics.x (bikeRef s') <= -1394 /\
  drawTerrain (bikeRef s') (terrainRef s') = None.
Proof.
  intros times s.
  assert (Hx : 100 < Point.x (Point.mk 1050 756)) by (simpl; lra).
  assert (Hn : (180 <= List.length times)%nat).
  { unfold times. rewrite repeat_length. lia. }
  split; [exact levelGround_flat|]. split; [exact levelGround_finish|].
  split; [exact Hx|]. split; [reflexivity|]. split; [reflexivity|].
  split; [exact Hn|].
  exact (reversing_leaves_the_view 756 0 times s (Point.mk 1050 756)
           levelGround_flat levelGround_finish Hx eq_refl eq_refl Hn).
Defined.
